(** * Duplicate resolution of migration 904464ea4041

    A shallow embedding of
    [zen_stores/migrations/versions/904464ea4041_add_pipeline_model_run_unique_constraints.py]:
    the data reconciliation [resolve_duplicate_entities], and the schema
    steps [upgrade] and [downgrade].

    The database connection is modelled as a value holding the four tables
    the migration reflects, the unique constraints of the schema, and the
    chronological trace of the statements and log lines the migration issues.
    A call that raises returns [Raise]: the database refuses a unique
    constraint over rows that share its columns, and the drop of a constraint
    the table does not have.
    Python's [defaultdict(set)] is a [gmap] from keys to [gset]s, read with
    the empty set as default. *)

From stdpp Require Import gmap strings list fin_maps pretty.

Open Scope Z_scope.

(** ** Rows and tables *)

(** A row of [pipeline_run], [pipeline] or [model], as selected on line 39:
    [(id, name, workspace_id)]. *)
Record row := Row {
  r_id : string;
  r_name : string;
  r_workspace_id : string
}.

(** A row of [model_version], as selected on lines 66-71:
    [(id, name, number, model_id)]. *)
Record version_row := VersionRow {
  mv_id : string;
  mv_name : string;
  mv_number : Z;
  mv_model_id : string
}.

#[global] Instance row_eq_dec : EqDecision row.
Proof. solve_decision. Defined.

#[global] Instance version_row_eq_dec : EqDecision version_row.
Proof. solve_decision. Defined.

(** The three tables of the first loop (line 36). *)
Inductive simple_table := PipelineRun | Pipeline | Model.

#[global] Instance simple_table_eq_dec : EqDecision simple_table.
Proof. solve_decision. Defined.

Definition table_name (t : simple_table) : string :=
  match t with
  | PipelineRun => "pipeline_run"
  | Pipeline => "pipeline"
  | Model => "model"
  end.

(** A unique constraint: table, constraint name, columns. *)
Record constraint := Constraint {
  c_table : string;
  c_name : string;
  c_columns : list string
}.

#[global] Instance constraint_eq_dec : EqDecision constraint.
Proof. solve_decision. Defined.

Record database := Database {
  t_pipeline_run : list row;
  t_pipeline : list row;
  t_model : list row;
  t_model_version : list version_row;
  constraints : list constraint
}.

(** The keyword arguments of [sa.update(...).values(...)]: the dictionary
    [values] of line 102 only ever holds the keys ["name"] and ["number"]. *)
Record values := Values {
  v_name : option string;
  v_number : option Z
}.

(** What the migration does to the outside world, in the order it does it. *)
Inductive event :=
  | Warning (fmt : string) (args : list string)
  | Update (table : string) (id_ : string) (vals : values)
  | CreateUnique (table : string) (cname : string) (columns : list string)
  | DropConstraint (table : string) (cname : string).

#[global] Instance values_eq_dec : EqDecision values.
Proof. solve_decision. Defined.

#[global] Instance event_eq_dec : EqDecision event.
Proof. solve_decision. Defined.

Record conn := Conn {
  db : database;
  trace : list event
}.

(** [max] of an empty set raises [ValueError]. A unique constraint over rows
    that share its columns is refused with an [IntegrityError]. [SchemaError]
    stands for the error that meets a table, a column or a constraint the
    schema does not have. *)
Inductive exn := ValueError | IntegrityError | SchemaError.

Inductive result (A : Type) :=
  | Ok (a : A)
  | Raise (e : exn).
Arguments Ok {A} a.
Arguments Raise {A} e.

(** Statements in sequence: the first exception ends the run. *)
#[global] Instance result_bind : MBind result := λ A B f m,
  match m with
  | Ok a => f a
  | Raise e => Raise e
  end.

(** ** Store access *)

Definition select (t : simple_table) (d : database) : list row :=
  match t with
  | PipelineRun => t_pipeline_run d
  | Pipeline => t_pipeline d
  | Model => t_model d
  end.

Definition set_table (t : simple_table) (rows : list row) (d : database)
  : database :=
  match t with
  | PipelineRun =>
      Database rows (t_pipeline d) (t_model d) (t_model_version d) (constraints d)
  | Pipeline =>
      Database (t_pipeline_run d) rows (t_model d) (t_model_version d) (constraints d)
  | Model =>
      Database (t_pipeline_run d) (t_pipeline d) rows (t_model_version d) (constraints d)
  end.

Definition set_versions (rows : list version_row) (d : database) : database :=
  Database (t_pipeline_run d) (t_pipeline d) (t_model d) rows (constraints d).

Definition set_constraints (cs : list constraint) (d : database) : database :=
  Database (t_pipeline_run d) (t_pipeline d) (t_model d) (t_model_version d) cs.

(** [UPDATE t SET name = new_name WHERE id = id_]. *)
Definition rename_where (id_ new_name : string) (r : row) : row :=
  if decide (r_id r = id_) then Row (r_id r) new_name (r_workspace_id r) else r.

(** [UPDATE model_version SET **vals WHERE id = id_]. *)
Definition assign_where (id_ : string) (vals : values) (r : version_row)
  : version_row :=
  if decide (mv_id r = id_)
  then VersionRow (mv_id r)
                  (default (mv_name r) (v_name vals))
                  (default (mv_number r) (v_number vals))
                  (mv_model_id r)
  else r.

Definition emit (e : event) (c : conn) : conn :=
  Conn (db c) (trace c ++ [e]).

Definition log_warning (fmt : string) (args : list string) (c : conn) : conn :=
  emit (Warning fmt args) c.

Definition execute_update (t : simple_table) (id_ new_name : string) (c : conn)
  : conn :=
  emit (Update (table_name t) id_ (Values (Some new_name) None))
       (Conn (set_table t (rename_where id_ new_name <$> select t (db c)) (db c))
             (trace c)).

Definition execute_version_update (id_ : string) (vals : values) (c : conn)
  : conn :=
  emit (Update "model_version" id_ vals)
       (Conn (set_versions (assign_where id_ vals <$> t_model_version (db c)) (db c))
             (trace c)).

(** ** Helpers standing for Python built-ins *)

(** [d[k]] on a [defaultdict(set)]. *)
Definition get_set `{Countable A} (d : gmap string (gset A)) (k : string)
  : gset A :=
  default ∅ (d !! k).

(** [d[k].add(x)] on a [defaultdict(set)]. *)
Definition add_to `{Countable A} (d : gmap string (gset A)) (k : string) (x : A)
  : gmap string (gset A) :=
  <[k := {[x]} ∪ get_set d k]> d.

(** [id_[:6]]. *)
Definition first6 (id_ : string) : string := String.substring 0 6 id_.

(** [f"{name}_{id_[:6]}"]. *)
Definition suffixed (name id_ : string) : string :=
  name +:+ "_" +:+ first6 id_.

(** [str(number)]. *)
Definition str (number : Z) : string := pretty number.

(** [max(s)], [None] standing for the [ValueError] of an empty argument. *)
Definition set_max (s : gset Z) : option Z :=
  match elements s with
  | [] => None
  | x :: l => Some (foldr Z.max x l)
  end.

(** ** Simple entities: lines 36-61 *)

Definition simple_fmt : string :=
  "Migrating %s name from %s to %s to resolve duplicate name.".

Definition version_fmt : string :=
  "Migrating model version %s to %s to resolve duplicate name.".

(** The body of the [for id_, name, workspace_id in result] loop. *)
Definition dedupe_row (t : simple_table)
    (st : gmap string (gset string) * conn) (r : row)
  : gmap string (gset string) * conn :=
  let '(existing, c) := st in
  let names_in_workspace := get_set existing (r_workspace_id r) in
  if decide (r_name r ∈ names_in_workspace) then
    let new_name := suffixed (r_name r) (r_id r) in
    let c := log_warning simple_fmt [table_name t; r_name r; new_name] c in
    let c := execute_update t (r_id r) new_name c in
    (add_to existing (r_workspace_id r) new_name, c)
  else
    (add_to existing (r_workspace_id r) (r_name r), c).

(** One iteration of [for table_name in ["pipeline_run", "pipeline", "model"]]:
    the rows are read once, before any update. *)
Definition resolve_simple_table (c : conn) (t : simple_table) : conn :=
  let result := select t (db c) in
  (foldl (dedupe_row t) (∅, c) result).2.

(** ** Model versions: lines 63-134 *)

(** An element of [needs_update]. *)
Record staged := Staged {
  s_id : string;
  s_name : string;
  s_number : Z;
  s_model_id : string;
  needs_new_name : bool;
  needs_new_number : bool
}.

Record detection := Detection {
  existing_names : gmap string (gset string);
  existing_numbers : gmap string (gset Z);
  needs_update : list staged
}.

(** The body of the first loop over [result] (lines 79-92). *)
Definition detect_row (st : detection) (r : version_row) : detection :=
  let names_for_model := get_set (existing_names st) (mv_model_id r) in
  let numbers_for_model := get_set (existing_numbers st) (mv_model_id r) in
  let new_name := bool_decide (mv_name r ∈ names_for_model) in
  let new_number := bool_decide (mv_number r ∈ numbers_for_model) in
  Detection
    (add_to (existing_names st) (mv_model_id r) (mv_name r))
    (add_to (existing_numbers st) (mv_model_id r) (mv_number r))
    (if new_name || new_number
     then needs_update st ++
          [Staged (mv_id r) (mv_name r) (mv_number r) (mv_model_id r)
                  new_name new_number]
     else needs_update st).

Definition detect (rows : list version_row) : detection :=
  foldl detect_row (Detection ∅ ∅ []) rows.

(** The body of the second loop, over [needs_update] (lines 94-134). *)
Definition fix_row (st : gmap string (gset Z) * conn) (s : staged)
  : result (gmap string (gset Z) * conn) :=
  let '(numbers, c) := st in
  let is_numeric_version := bool_decide (str (s_number s) = s_name s) in
  match set_max (get_set numbers (s_model_id s)) with
  | None => Raise ValueError
  | Some m =>
      let next_numeric_version := m + 1 in
      if is_numeric_version then
        let vals := Values (Some (str next_numeric_version))
                           (Some next_numeric_version) in
        let numbers := add_to numbers (s_model_id s) next_numeric_version in
        let c := log_warning version_fmt [s_name s; str next_numeric_version] c in
        Ok (numbers, execute_version_update (s_id s) vals c)
      else
        let '(vname, c) :=
          if needs_new_name s then
            let new_name := suffixed (s_name s) (s_id s) in
            (Some new_name, log_warning version_fmt [s_name s; new_name] c)
          else (None, c) in
        let '(vnumber, numbers) :=
          if needs_new_number s then
            (Some next_numeric_version,
             add_to numbers (s_model_id s) next_numeric_version)
          else (None, numbers) in
        Ok (numbers, execute_version_update (s_id s) (Values vname vnumber) c)
  end.

Fixpoint fix_rows (st : gmap string (gset Z) * conn) (l : list staged)
  : result (gmap string (gset Z) * conn) :=
  match l with
  | [] => Ok st
  | s :: l =>
      match fix_row st s with
      | Ok st => fix_rows st l
      | Raise e => Raise e
      end
  end.

Definition resolve_model_versions (c : conn) : result conn :=
  let result := t_model_version (db c) in
  let d := detect result in
  match fix_rows (existing_numbers d, c) (needs_update d) with
  | Ok st => Ok st.2
  | Raise e => Raise e
  end.

(** ** The migration *)

Definition resolve_duplicate_entities (c : conn) : result conn :=
  resolve_model_versions
    (foldl resolve_simple_table c [PipelineRun; Pipeline; Model]).

(** ** Unique constraints: lines 137-192 *)

(** A value of a column. *)
Inductive cell := Text (s : string) | Integer (z : Z).

#[global] Instance cell_eq_dec : EqDecision cell.
Proof. solve_decision. Defined.

(** The columns of the rows read on line 39, by name. *)
Definition row_column (column : string) : option (row → cell) :=
  if decide (column = "id") then Some (λ r, Text (r_id r))
  else if decide (column = "name") then Some (λ r, Text (r_name r))
  else if decide (column = "workspace_id")
       then Some (λ r, Text (r_workspace_id r))
  else None.

(** The columns of the rows read on lines 66-71, by name. *)
Definition version_column (column : string) : option (version_row → cell) :=
  if decide (column = "id") then Some (λ r, Text (mv_id r))
  else if decide (column = "name") then Some (λ r, Text (mv_name r))
  else if decide (column = "number") then Some (λ r, Integer (mv_number r))
  else if decide (column = "model_id") then Some (λ r, Text (mv_model_id r))
  else None.

Definition simple_table_named (table : string) : option simple_table :=
  if decide (table = "pipeline_run") then Some PipelineRun
  else if decide (table = "pipeline") then Some Pipeline
  else if decide (table = "model") then Some Model
  else None.

Definition project {A} (columns : list (A → cell)) (r : A) : list cell :=
  (λ f, f r) <$> columns.

(** The rows of [table] cut down to [columns], in table order; [None] when
    the table or one of the columns is not there. *)
Definition table_keys (table : string) (columns : list string) (d : database)
  : option (list (list cell)) :=
  if decide (table = "model_version") then
    fs ← mapM version_column columns;
    Some (project fs <$> t_model_version d)
  else
    t ← simple_table_named table;
    fs ← mapM row_column columns;
    Some (project fs <$> select t d).

(** Whether [table] holds a constraint named [cname]. *)
Definition has_constraint (table cname : string) (d : database) : bool :=
  bool_decide
    (Exists (λ k, c_table k = table ∧ c_name k = cname) (constraints d)).

(** [batch_op.create_unique_constraint(cname, columns)] on [table]. The
    database builds the constraint over the rows the table holds and refuses
    it with an [IntegrityError] when two rows agree on [columns]. A table
    holds one constraint per name: a constraint the table already holds
    under [cname] is replaced. Rows are never touched. *)
Definition create_unique_constraint (table cname : string)
    (columns : list string) (c : conn) : result conn :=
  match table_keys table columns (db c) with
  | None => Raise SchemaError
  | Some keys =>
      if bool_decide (NoDup keys) then
        Ok (emit (CreateUnique table cname columns)
                 (Conn (set_constraints
                          (filter (λ k, ¬ (c_table k = table ∧ c_name k = cname))
                                  (constraints (db c))
                           ++ [Constraint table cname columns])
                          (db c))
                       (trace c)))
      else Raise IntegrityError
  end.

(** [batch_op.drop_constraint(cname, type_="unique")] on [table]: a
    constraint the table does not hold cannot be dropped. *)
Definition drop_constraint (table cname : string) (c : conn) : result conn :=
  if has_constraint table cname (db c) then
    Ok (emit (DropConstraint table cname)
             (Conn (set_constraints
                      (filter (λ k, ¬ (c_table k = table ∧ c_name k = cname))
                              (constraints (db c)))
                      (db c))
                   (trace c)))
  else Raise SchemaError.

Definition upgrade (c : conn) : result conn :=
  c ← resolve_duplicate_entities c;
  c ← create_unique_constraint
         "pipeline" "unique_pipeline_name_in_workspace"
         ["name"; "workspace_id"] c;
  c ← create_unique_constraint
         "pipeline_run" "unique_run_name_in_workspace"
         ["name"; "workspace_id"] c;
  c ← create_unique_constraint
         "model" "unique_model_name_in_workspace"
         ["name"; "workspace_id"] c;
  c ← create_unique_constraint
         "model_version" "unique_version_for_model_id"
         ["name"; "model_id"] c;
  create_unique_constraint
    "model_version" "unique_version_number_for_model_id"
    ["number"; "model_id"] c.

Definition downgrade (c : conn) : result conn :=
  c ← drop_constraint "model_version" "unique_version_number_for_model_id" c;
  c ← drop_constraint "model_version" "unique_version_for_model_id" c;
  c ← drop_constraint "model" "unique_model_name_in_workspace" c;
  c ← drop_constraint "pipeline_run" "unique_run_name_in_workspace" c;
  drop_constraint "pipeline" "unique_pipeline_name_in_workspace" c.

(** * Vocabulary of the properties *)

(** ** Keys of the unique constraints *)

(** What the constraints on the simple tables are about: the name within
    the workspace. *)
Definition key (r : row) : string * string := (r_name r, r_workspace_id r).

(** What the two constraints on [model_version] are about. *)
Definition version_name_key (r : version_row) : string * string :=
  (mv_name r, mv_model_id r).

Definition version_number_key (r : version_row) : Z * string :=
  (mv_number r, mv_model_id r).

(** What the five constraints of [upgrade] ask of the rows. *)
Definition duplicate_free (d : database) : Prop :=
  (∀ t, NoDup (key <$> select t d)) ∧
  NoDup (version_name_key <$> t_model_version d) ∧
  NoDup (version_number_key <$> t_model_version d).

(** ** Traces *)

Definition is_warning (e : event) : bool :=
  match e with Warning _ _ => true | _ => false end.

Definition is_update (e : event) : bool :=
  match e with Update _ _ _ => true | _ => false end.

(** An update whose values hold the key ["name"]. *)
Definition is_rename (e : event) : bool :=
  match e with Update _ _ (Values (Some _) _) => true | _ => false end.

Definition is_schema_change (e : event) : bool :=
  match e with CreateUnique _ _ _ | DropConstraint _ _ => true | _ => false end.

Definition count (p : event → bool) (tr : list event) : nat :=
  length (filter (λ e, p e = true) tr).

(** The constraints a trace creates, in order. *)
Definition created (tr : list event) : list constraint :=
  omap (λ e, match e with
             | CreateUnique t n cols => Some (Constraint t n cols)
             | _ => None
             end) tr.

(** The constraints a trace drops, in order, by table and name. *)
Definition dropped (tr : list event) : list (string * string) :=
  omap (λ e, match e with
             | DropConstraint t n => Some (t, n)
             | _ => None
             end) tr.

Definition create_event (k : constraint) : event :=
  CreateUnique (c_table k) (c_name k) (c_columns k).

Definition drop_event (k : constraint) : event :=
  DropConstraint (c_table k) (c_name k).

(** The constraints [upgrade] creates, in creation order (lines 143-164). *)
Definition upgrade_constraints : list constraint :=
  [Constraint "pipeline" "unique_pipeline_name_in_workspace"
              ["name"; "workspace_id"];
   Constraint "pipeline_run" "unique_run_name_in_workspace"
              ["name"; "workspace_id"];
   Constraint "model" "unique_model_name_in_workspace"
              ["name"; "workspace_id"];
   Constraint "model_version" "unique_version_for_model_id"
              ["name"; "model_id"];
   Constraint "model_version" "unique_version_number_for_model_id"
              ["number"; "model_id"]].

(** The shape of the trace a resolution leaves, over the rows [d] held when
    it started: a rename of a simple entity is a warning followed by its
    update; an update of a model version that assigns a name is a warning
    followed by the update; an update of a model version that assigns the
    number alone stands by itself. *)
Inductive well_logged (d : database) : list event → Prop :=
  | wl_nil : well_logged d []
  | wl_simple t r tr :
      r ∈ select t d →
      well_logged d tr →
      well_logged d
        (Warning simple_fmt
                 [table_name t; r_name r; suffixed (r_name r) (r_id r)]
         :: Update (table_name t) (r_id r)
                   (Values (Some (suffixed (r_name r) (r_id r))) None)
         :: tr)
  | wl_version_name r new_name number tr :
      r ∈ t_model_version d →
      well_logged d tr →
      well_logged d
        (Warning version_fmt [mv_name r; new_name]
         :: Update "model_version" (mv_id r) (Values (Some new_name) number)
         :: tr)
  | wl_version_number r number tr :
      r ∈ t_model_version d →
      well_logged d tr →
      well_logged d
        (Update "model_version" (mv_id r) (Values None (Some number)) :: tr).

(** ** Frames *)

Definition same_schema (c c' : conn) : Prop :=
  constraints (db c') = constraints (db c).

Definition same_rows (c c' : conn) : Prop :=
  t_pipeline_run (db c') = t_pipeline_run (db c) ∧
  t_pipeline (db c') = t_pipeline (db c) ∧
  t_model (db c') = t_model (db c) ∧
  t_model_version (db c') = t_model_version (db c).

(** What the loop over one simple table does to everything but its rows. *)
Record simple_frame (d : database) (t : simple_table) (c c' : conn) : Prop := {
  sf_schema : same_schema c c';
  sf_versions : t_model_version (db c') = t_model_version (db c);
  sf_others : ∀ t', t' ≠ t → select t' (db c') = select t' (db c);
  sf_trace : ∃ tr, trace c' = trace c ++ tr ∧ well_logged d tr
}.

(** What pass 2 does to everything but the rows of [model_version]. *)
Record version_frame (d : database) (c c' : conn) : Prop := {
  vf_schema : same_schema c c';
  vf_simple : ∀ t, select t (db c') = select t (db c);
  vf_trace : ∃ tr, trace c' = trace c ++ tr ∧ well_logged d tr
}.

(** ** The simple-entity loop as a function on rows *)

(** A row with the name of line 47. *)
Definition renamed (r : row) : row :=
  Row (r_id r) (suffixed (r_name r) (r_id r)) (r_workspace_id r).

(** The row as the loop body leaves it in the table, given the names seen. *)
Definition resolved_row (existing : gmap string (gset string)) (r : row) : row :=
  if decide (r_name r ∈ get_set existing (r_workspace_id r)) then renamed r else r.

(** The names seen once the loop body has run on a row (lines 59 and 61). *)
Definition see (existing : gmap string (gset string)) (r : row)
  : gmap string (gset string) :=
  add_to existing (r_workspace_id r) (r_name (resolved_row existing r)).

Fixpoint resolved_rows (existing : gmap string (gset string)) (rows : list row)
  : list row :=
  match rows with
  | [] => []
  | r :: rows => resolved_row existing r :: resolved_rows (see existing r) rows
  end.

Definition seen_after (existing : gmap string (gset string)) (rows : list row)
  : gmap string (gset string) :=
  foldl see existing rows.

(** No row ends up with a name already seen for its workspace: for a row
    that keeps its name this holds by the test of line 46, for a renamed row
    it says that the synthesized name is new. *)
Fixpoint collision_free (existing : gmap string (gset string)) (rows : list row)
  : Prop :=
  match rows with
  | [] => True
  | r :: rows =>
      (r_name (resolved_row existing r) ∉ get_set existing (r_workspace_id r))
      ∧ collision_free (see existing r) rows
  end.

(** ** The two passes over the model versions *)

(** Every staged entry has its number among those seen for its model. *)
Definition staged_seen (d : detection) : Prop :=
  ∀ s, s ∈ needs_update d →
       s_number s ∈ get_set (existing_numbers d) (s_model_id s).

(** A staged entry is the row it was made from, with its two flags, one of
    which is set. *)
Definition staged_from (rows : list version_row) (s : staged) : Prop :=
  ∃ r, r ∈ rows ∧
       s = Staged (mv_id r) (mv_name r) (mv_number r) (mv_model_id r)
                  (needs_new_name s) (needs_new_number s) ∧
       needs_new_name s || needs_new_number s = true.

(** A number of the table that pass 1 saw for the model of the row; a number
    it did not see was allocated by pass 2. *)
Definition original (rows : list version_row) (q : version_row) : Prop :=
  mv_number q ∈ get_set (existing_numbers (detect rows)) (mv_model_id q).

(** The state of pass 2 on the rows [rows], with the staged entries [l] still
    to process: ids still identify the rows of the table; every number of the
    table is among the numbers seen, which only grew; a row has the number it
    was read with or one that pass 1 did not see; two rows of one model with
    the same number both still have a number pass 1 saw; and a row that still
    has such a number while staged as needing a new one is still to process. *)
Record pass2_inv (rows : list version_row) (numbers : gmap string (gset Z))
    (table : list version_row) (l : list staged) : Prop := {
  inv_ids : NoDup (mv_id <$> table);
  inv_seen : ∀ q, q ∈ table → mv_number q ∈ get_set numbers (mv_model_id q);
  inv_grown : ∀ k,
    get_set (existing_numbers (detect rows)) k ⊆ get_set numbers k;
  inv_rows : ∀ q, q ∈ table →
    ∃ r, r ∈ rows ∧ mv_id r = mv_id q ∧ mv_model_id r = mv_model_id q ∧
         (mv_number r = mv_number q ∨ ¬ original rows q);
  inv_distinct : ∀ (i j : nat) q1 q2,
    table !! i = Some q1 → table !! j = Some q2 → i ≠ j →
    version_number_key q1 = version_number_key q2 → original rows q1;
  inv_pending : ∀ q s,
    q ∈ table → original rows q → s ∈ needs_update (detect rows) →
    s_id s = mv_id q → needs_new_number s = true → s ∈ l
}.

(** ** What the resolution never touches *)

Definition identity (r : row) : string * string := (r_id r, r_workspace_id r).

Definition version_identity (r : version_row) : string * string :=
  (mv_id r, mv_model_id r).

(** The same rows in the same order, up to names and numbers. *)
Definition same_identities (d d' : database) : Prop :=
  (∀ t, identity <$> select t d' = identity <$> select t d) ∧
  version_identity <$> t_model_version d' = version_identity <$> t_model_version d.

(** ** One workspace, one model *)

(** The rows of a simple table that belong to one workspace. *)
Definition rows_of_workspace (w : string) (rows : list row) : list row :=
  filter (λ r, r_workspace_id r = w) rows.

(** The connection with a simple table cut down to one workspace. *)
Definition only_workspace (t : simple_table) (w : string) (c : conn) : conn :=
  Conn (set_table t (rows_of_workspace w (select t (db c))) (db c)) (trace c).

(** ** The two passes as one function on rows *)

(** The dictionary [values] pass 2 builds for a staged entry (lines 102-128),
    given the maximum [m] of the numbers seen for its model. *)
Definition fix_values (s : staged) (m : Z) : values :=
  if bool_decide (str (s_number s) = s_name s)
  then Values (Some (str (m + 1))) (Some (m + 1))
  else Values (if needs_new_name s
               then Some (suffixed (s_name s) (s_id s)) else None)
              (if needs_new_number s then Some (m + 1) else None).

(** The numbers seen once pass 2 has dealt with a staged entry. *)
Definition fix_numbers (numbers : gmap string (gset Z)) (s : staged) (m : Z)
  : gmap string (gset Z) :=
  if bool_decide (str (s_number s) = s_name s) || needs_new_number s
  then add_to numbers (s_model_id s) (m + 1)
  else numbers.

(** What pass 1 appends to [needs_update] for a row (lines 83-89). *)
Definition stage (d : detection) (r : version_row) : option staged :=
  let new_name :=
    bool_decide (mv_name r ∈ get_set (existing_names d) (mv_model_id r)) in
  let new_number :=
    bool_decide (mv_number r ∈ get_set (existing_numbers d) (mv_model_id r)) in
  if new_name || new_number
  then Some (Staged (mv_id r) (mv_name r) (mv_number r) (mv_model_id r)
                    new_name new_number)
  else None.

Fixpoint stage_rows (d : detection) (rows : list version_row) : list staged :=
  match rows with
  | [] => []
  | r :: rows => option_list (stage d r) ++ stage_rows (detect_row d r) rows
  end.

(** The row as the two passes leave it, and the numbers seen once pass 2 has
    dealt with it: [d] is the state of pass 1 when it reads the row, [numbers]
    the numbers seen when pass 2 comes to it. The case of an empty [max]
    never arises in a run. *)
Definition resolved_version (d : detection) (numbers : gmap string (gset Z))
    (r : version_row) : version_row * gmap string (gset Z) :=
  match stage d r with
  | None => (r, numbers)
  | Some s =>
      match set_max (get_set numbers (mv_model_id r)) with
      | Some m => (assign_where (mv_id r) (fix_values s m) r, fix_numbers numbers s m)
      | None => (r, numbers)
      end
  end.

Fixpoint resolved_versions (d : detection) (numbers : gmap string (gset Z))
    (rows : list version_row) : list version_row :=
  match rows with
  | [] => []
  | r :: rows =>
      (resolved_version d numbers r).1
      :: resolved_versions (detect_row d r) (resolved_version d numbers r).2 rows
  end.

(** The numbers seen by pass 2 once it has dealt with a run of rows. *)
Fixpoint numbers_after (d : detection) (numbers : gmap string (gset Z))
    (rows : list version_row) : gmap string (gset Z) :=
  match rows with
  | [] => numbers
  | r :: rows =>
      numbers_after (detect_row d r) (resolved_version d numbers r).2 rows
  end.

(** A name in numeric form: the decimal rendering of the number. *)
Definition numeric_form (r : version_row) : Prop :=
  str (mv_number r) = mv_name r.

(** The versions of one model. *)
Definition rows_of_model (k : string) (rows : list version_row)
  : list version_row :=
  filter (λ r, mv_model_id r = k) rows.

(** The connection with [model_version] cut down to one model. *)
Definition only_model (k : string) (c : conn) : conn :=
  Conn (set_versions (rows_of_model k (t_model_version (db c))) (db c)) (trace c).

(** ** Updates by table *)

(** The ids a trace updates in one table, in order. *)
Definition updates_on (table : string) (tr : list event) : list string :=
  omap (λ e, match e with
             | Update t i _ => if decide (t = table) then Some i else None
             | _ => None
             end) tr.

(** ** Inputs on which renaming cannot collide *)

(** The names seen so far are names rows were read with, or names synthesized
    for rows whose id starts unlike the ids of the rows still to come. *)
Definition seen_from (all rest : list row) (existing : gmap string (gset string))
  : Prop :=
  ∀ w x, x ∈ get_set existing w →
    (∃ q, q ∈ all ∧ r_name q = x) ∨
    (∃ q, q ∈ all ∧ x = suffixed (r_name q) (r_id q) ∧
          first6 (r_id q) ∉ (λ r, first6 (r_id r)) <$> rest).

(** A string without the character [_]. *)
Fixpoint no_underscore (s : string) : Prop :=
  match s with
  | EmptyString => True
  | String a s => String a "" ≠ "_" ∧ no_underscore s
  end.

(** Rows of a simple table on which renaming cannot collide: the ids have at
    least six characters and start with pairwise distinct six characters, and
    no row is named like the name line 47 synthesizes for a row. *)
Definition safe_rows (rows : list row) : Prop :=
  NoDup ((λ r, first6 (r_id r)) <$> rows) ∧
  (∀ r, r ∈ rows → (6 ≤ String.length (r_id r))%nat) ∧
  (∀ r q, r ∈ rows → q ∈ rows → r_name q ≠ suffixed (r_name r) (r_id r)).

(** The same for model versions (line 119); moreover a name that is the
    decimal rendering of an integer does not exceed every number of its
    model, as is the case when such names are in numeric form. *)
Definition safe_versions (rows : list version_row) : Prop :=
  NoDup ((λ r, first6 (mv_id r)) <$> rows) ∧
  (∀ r, r ∈ rows → (6 ≤ String.length (mv_id r))%nat) ∧
  (∀ r q, r ∈ rows → q ∈ rows → mv_name q ≠ suffixed (mv_name r) (mv_id r)) ∧
  (∀ r z, r ∈ rows → mv_name r = str z →
          ∃ q, q ∈ rows ∧ mv_model_id q = mv_model_id r ∧ z ≤ mv_number q).

(** ** The trace of pass 2, row by row *)

(** What pass 2 logs and issues for a staged entry (lines 107-134), given the
    maximum [m] of the numbers seen for its model. *)
Definition fix_events (s : staged) (m : Z) : list event :=
  (if bool_decide (str (s_number s) = s_name s)
   then [Warning version_fmt [s_name s; str (m + 1)]]
   else if needs_new_name s
        then [Warning version_fmt [s_name s; suffixed (s_name s) (s_id s)]]
        else [])
  ++ [Update "model_version" (s_id s) (fix_values s m)].

(** What the two passes log and issue for a row; [d] and [numbers] are as
    for [resolved_version]. *)
Definition resolved_events (d : detection) (numbers : gmap string (gset Z))
    (r : version_row) : list event :=
  match stage d r with
  | None => []
  | Some s =>
      match set_max (get_set numbers (mv_model_id r)) with
      | Some m => fix_events s m
      | None => []
      end
  end.

Fixpoint resolution_events (d : detection) (numbers : gmap string (gset Z))
    (rows : list version_row) : list event :=
  match rows with
  | [] => []
  | r :: rows =>
      resolved_events d numbers r
      ++ resolution_events (detect_row d r) (resolved_version d numbers r).2 rows
  end.

(** [m] is the largest number among the rows of [rows] that belong to the
    model [k]. *)
Definition max_number_of (k : string) (rows : list version_row) (m : Z) : Prop :=
  (∃ p, p ∈ rows ∧ mv_model_id p = k ∧ mv_number p = m) ∧
  (∀ p, p ∈ rows → mv_model_id p = k → mv_number p ≤ m).

(** ** Schema steps *)

(** The connection once the constraint [k] is created. *)
Definition with_constraint (k : constraint) (c : conn) : conn :=
  emit (create_event k)
       (Conn (set_constraints
                (filter (λ k', ¬ (c_table k' = c_table k ∧ c_name k' = c_name k))
                        (constraints (db c))
                 ++ [k])
                (db c))
             (trace c)).

(** The connection once the constraint [cname] of [table] is dropped. *)
Definition without_constraint (table cname : string) (c : conn) : conn :=
  emit (DropConstraint table cname)
       (Conn (set_constraints
                (filter (λ k, ¬ (c_table k = table ∧ c_name k = cname))
                        (constraints (db c)))
                (db c))
             (trace c)).

Definition constrained (c : conn) : conn :=
  foldl (λ c k, with_constraint k c) c upgrade_constraints.

Definition unconstrained (c : conn) : conn :=
  foldl (λ c k, without_constraint (c_table k) (c_name k) c) c
        (rev upgrade_constraints).

(** A constraint that shares table and name with none of those [upgrade]
    creates. *)
Definition unmanaged (k : constraint) : Prop :=
  Forall (λ k', ¬ (c_table k = c_table k' ∧ c_name k = c_name k'))
         upgrade_constraints.

#[global] Instance unmanaged_dec k : Decision (unmanaged k).
Proof. unfold unmanaged. apply _. Defined.

(** The schema holds a constraint under the table and name of each
    constraint [upgrade] creates. *)
Definition holds_upgrade_constraints (d : database) : Prop :=
  ∀ k, k ∈ upgrade_constraints →
       ∃ k0, k0 ∈ constraints d ∧ c_table k0 = c_table k ∧ c_name k0 = c_name k.

(** ** Sample tables *)

(** Three pipelines of one workspace, with ids that differ: the third one is
    named like the name the loop synthesizes for the second one. *)
Definition late_original : list row :=
  [Row "1f0c86aa5d2e4c07b1d3a4f5e6071829" "etl" "ws1";
   Row "9f8e7d6c5b4a43219f8e7d6c5b4a4321" "etl" "ws1";
   Row "c4d5e6f7a8b94c0d8e1f2a3b4c5d6e7f" "etl_9f8e7d" "ws1"].

(** Three pipelines of one workspace, with ids that differ: the first one is
    named like the name the loop synthesizes for the third one. *)
Definition colliding_pipelines : list row :=
  [Row "1f0c86aa5d2e4c07b1d3a4f5e6071829" "etl_9f8e7d" "ws1";
   Row "c4d5e6f7a8b94c0d8e1f2a3b4c5d6e7f" "etl" "ws1";
   Row "9f8e7d6c5b4a43219f8e7d6c5b4a4321" "etl" "ws1"].

Definition colliding_pipelines_db : database :=
  Database [] colliding_pipelines [] [] [].

(** Three versions of one model, with ids that differ: the first one is named
    like the name pass 2 synthesizes for the third one. *)
Definition colliding_versions : list version_row :=
  [VersionRow "1f0c86aa5d2e4c07b1d3a4f5e6071829" "prod_9f8e7d" 1 "m1";
   VersionRow "c4d5e6f7a8b94c0d8e1f2a3b4c5d6e7f" "prod" 2 "m1";
   VersionRow "9f8e7d6c5b4a43219f8e7d6c5b4a4321" "prod" 3 "m1"].

(** Two pipelines of one workspace under one name, once [upgrade] has run
    on a schema that held a constraint on the id. *)
Definition upgraded_pipelines : conn :=
  Conn (Database [] [Row "a1" "p" "ws1"; Row "b2" "p_b2" "ws1"] [] []
                 ([Constraint "pipeline" "pk_pipeline" ["id"]]
                  ++ upgrade_constraints))
       ([Warning simple_fmt ["pipeline"; "p"; "p_b2"];
         Update "pipeline" "b2" (Values (Some "p_b2") None)]
        ++ (create_event <$> upgrade_constraints)).

(** Versions of two models: two versions in numeric form, the one sharing
    name and number, the other its name alone, with an earlier version of
    their model; and what the resolution makes of them. *)
Definition duplicate_numeric_versions : list version_row :=
  [VersionRow "v1" "1" 1 "m1"; VersionRow "v2" "5" 3 "m1";
   VersionRow "v3" "1" 1 "m1"; VersionRow "v4" "5" 5 "m1";
   VersionRow "v5" "2" 2 "m2"].

Definition renumbered_versions : conn :=
  Conn (Database [] [] []
          [VersionRow "v1" "1" 1 "m1"; VersionRow "v2" "5" 3 "m1";
           VersionRow "v3" "6" 6 "m1"; VersionRow "v4" "7" 7 "m1";
           VersionRow "v5" "2" 2 "m2"] [])
       [Warning version_fmt ["1"; "6"];
        Update "model_version" "v3" (Values (Some "6") (Some 6));
        Warning version_fmt ["5"; "7"];
        Update "model_version" "v4" (Values (Some "7") (Some 7))].

(** Versions with custom names, two of them sharing a number with an earlier
    version of their model, and what the resolution makes of them. *)
Definition duplicate_custom_versions : list version_row :=
  [VersionRow "v1" "alpha" 1 "m1"; VersionRow "v2" "beta" 5 "m1";
   VersionRow "v3" "gamma" 1 "m1"; VersionRow "v4" "delta" 5 "m1";
   VersionRow "v5" "delta" 5 "m2"].

Definition renumbered_custom_versions : conn :=
  Conn (Database [] [] []
          [VersionRow "v1" "alpha" 1 "m1"; VersionRow "v2" "beta" 5 "m1";
           VersionRow "v3" "gamma" 6 "m1"; VersionRow "v4" "delta" 7 "m1";
           VersionRow "v5" "delta" 5 "m2"] [])
       [Update "model_version" "v3" (Values None (Some 6));
        Update "model_version" "v4" (Values None (Some 7))].

(** The same database later on: a pipeline was added, the trace is that of
    another session. *)
Definition later_pipelines : conn :=
  Conn (Database []
          [Row "a1" "p" "ws1"; Row "b2" "p_b2" "ws1"; Row "c3" "q" "ws1"] [] []
          ([Constraint "pipeline" "pk_pipeline" ["id"]] ++ upgrade_constraints))
       [].

(** A database whose four tables are safe, with duplicates in three of
    them. *)
Definition safe_state : conn :=
  Conn (Database
          [Row "a1b2c3d4e5f6" "nightly" "w1"; Row "0f9e8d7c6b5a" "nightly" "w1"]
          [Row "5e6f7a8b9c0d" "train" "w1"; Row "77aa88bb99cc" "train" "w1"]
          [Row "d00dfeed1234" "bert" "w1"]
          [VersionRow "1f0c86aa5d2e" "1" 1 "m1";
           VersionRow "c4d5e6f7a8b9" "1" 1 "m1"] [])
       [].

(** * Properties *)

(** ** Built-ins *)

Lemma foldr_max_spec (x : Z) (l : list Z) :
  foldr Z.max x l ∈ x :: l ∧ ∀ y, y ∈ x :: l → y ≤ foldr Z.max x l.
Proof.
  induction l as [|a l [IHin IHle]]; simpl.
  - split; [left|]. intros y Hy. apply list_elem_of_singleton in Hy. lia.
  - split.
    + destruct (Z.max_spec a (foldr Z.max x l)) as [[_ ->]|[_ ->]].
      * apply elem_of_cons in IHin as [->|Hin]; [left|do 2 right; done].
      * right; left.
    + intros y Hy. apply elem_of_cons in Hy as [->|Hy].
      * specialize (IHle x ltac:(left)). lia.
      * apply elem_of_cons in Hy as [->|Hy]; [lia|].
        specialize (IHle y ltac:(by right)). lia.
Qed.

Lemma set_max_Some (s : gset Z) (m : Z) :
  set_max s = Some m → m ∈ s ∧ ∀ y, y ∈ s → y ≤ m.
Proof.
  unfold set_max. destruct (elements s) as [|x l] eqn:E; [done|].
  intros [= <-]. destruct (foldr_max_spec x l) as [Hin Hle].
  setoid_rewrite <- elem_of_elements. rewrite E. done.
Qed.

Lemma set_max_is_Some (s : gset Z) (x : Z) : x ∈ s → is_Some (set_max s).
Proof.
  intros Hx. unfold set_max. apply elem_of_elements in Hx.
  destruct (elements s); [by apply elem_of_nil in Hx|eauto].
Qed.

Lemma get_set_add_to `{Countable A} (d : gmap string (gset A)) k x k' :
  get_set (add_to d k x) k' =
  if decide (k = k') then {[x]} ∪ get_set d k' else get_set d k'.
Proof.
  unfold add_to, get_set at 1. rewrite lookup_insert.
  destruct (decide (k = k')) as [->|]; done.
Qed.

Lemma get_set_empty `{Countable A} k : get_set (∅ : gmap string (gset A)) k = ∅.
Proof. unfold get_set. by rewrite lookup_empty. Qed.

Lemma get_set_add_to_mono `{Countable A} (d : gmap string (gset A)) k x k' :
  get_set d k' ⊆ get_set (add_to d k x) k'.
Proof. rewrite get_set_add_to. case_decide; set_solver. Qed.

(** ** [max] in pass 2 is always defined *)

Lemma fix_row_numbers_mono numbers c s numbers' c' k :
  fix_row (numbers, c) s = Ok (numbers', c') →
  get_set numbers k ⊆ get_set numbers' k.
Proof.
  unfold fix_row.
  destruct (set_max _) as [m|]; [|done].
  destruct (bool_decide _).
  - intros [= <- <-]. apply get_set_add_to_mono.
  - destruct (needs_new_name s), (needs_new_number s); intros [= <- <-];
      first [apply get_set_add_to_mono | done].
Qed.

Lemma fix_row_is_Ok numbers c s x :
  x ∈ get_set numbers (s_model_id s) →
  ∃ st, fix_row (numbers, c) s = Ok st.
Proof.
  intros Hx. unfold fix_row.
  destruct (set_max_is_Some _ _ Hx) as [m ->].
  destruct (bool_decide _); [eauto|].
  destruct (needs_new_name s), (needs_new_number s); eauto.
Qed.

Lemma fix_rows_is_Ok (l : list staged) numbers c :
  (∀ s, s ∈ l → ∃ x, x ∈ get_set numbers (s_model_id s)) →
  ∃ st, fix_rows (numbers, c) l = Ok st.
Proof.
  revert numbers c. induction l as [|s l IH]; intros numbers c Hl; cbn [fix_rows].
  - eauto.
  - destruct (Hl s ltac:(left)) as [x Hx].
    destruct (fix_row_is_Ok numbers c s x Hx) as [[numbers' c'] Hfix].
    rewrite Hfix. apply IH. intros s' Hs'.
    destruct (Hl s' ltac:(by right)) as [y Hy].
    exists y. eapply fix_row_numbers_mono; eauto.
Qed.

Lemma detect_row_staged_seen d r : staged_seen d → staged_seen (detect_row d r).
Proof.
  intros Hd s. unfold detect_row; simpl. intros Hs.
  rewrite get_set_add_to.
  assert (s ∈ needs_update d ∨
          (s_number s = mv_number r ∧ s_model_id s = mv_model_id r)) as [Hold|[-> ->]].
  { destruct (_ || _); [|by left].
    apply elem_of_app in Hs as [Hs|Hs]; [by left|].
    apply list_elem_of_singleton in Hs as ->. by right. }
  - specialize (Hd s Hold). destruct (decide _); [apply elem_of_union_r|]; exact Hd.
  - rewrite decide_True by done. set_solver.
Qed.

Lemma foldl_detect_row_staged_seen rows d :
  staged_seen d → staged_seen (foldl detect_row d rows).
Proof.
  revert d. induction rows as [|r rows IH]; intros d Hd; simpl; [done|].
  apply IH, detect_row_staged_seen, Hd.
Qed.

Lemma detect_staged_seen rows : staged_seen (detect rows).
Proof.
  apply foldl_detect_row_staged_seen. intros s Hs. by apply elem_of_nil in Hs.
Qed.

Lemma resolve_model_versions_is_Ok c : ∃ c', resolve_model_versions c = Ok c'.
Proof.
  unfold resolve_model_versions.
  destruct (fix_rows_is_Ok (needs_update (detect (t_model_version (db c))))
              (existing_numbers (detect (t_model_version (db c)))) c)
    as [st ->]; [|eauto].
  intros s Hs. exists (s_number s). by apply detect_staged_seen.
Qed.

Lemma resolve_duplicate_entities_is_Ok c :
  ∃ c', resolve_duplicate_entities c = Ok c'.
Proof. apply resolve_model_versions_is_Ok. Qed.

Lemma fix_rows_numbers_mono (l : list staged) numbers c numbers' c' k :
  fix_rows (numbers, c) l = Ok (numbers', c') →
  get_set numbers k ⊆ get_set numbers' k.
Proof.
  revert numbers c. induction l as [|s l IH]; intros numbers c; cbn [fix_rows].
  - by intros [= <- <-].
  - destruct (fix_row (numbers, c) s) as [[numbers1 c1]|] eqn:Hfix; [|done].
    intros Hrest. etrans; [|by eapply IH]. by eapply fix_row_numbers_mono.
Qed.

(** C10: when pass 2 comes to a staged row and takes
    [max(existing_numbers[model_id])], that set holds the number of the row
    itself, which pass 1 put there, pass 2 only ever adding numbers; so [max]
    is defined, the step returns, and so do the whole of pass 2 and the
    resolution: the [ValueError] of an empty [max] is never raised. *)
Theorem max_of_seen_numbers_defined (rows : list version_row) (c : conn)
    (pre post : list staged) (s : staged) :
  needs_update (detect rows) = pre ++ s :: post →
  (∃ numbers1 c1 m st,
     fix_rows (existing_numbers (detect rows), c) pre = Ok (numbers1, c1) ∧
     s_number s ∈ get_set numbers1 (s_model_id s) ∧
     set_max (get_set numbers1 (s_model_id s)) = Some m ∧
     fix_row (numbers1, c1) s = Ok st) ∧
  (∃ st, fix_rows (existing_numbers (detect rows), c) (needs_update (detect rows))
         = Ok st) ∧
  (∃ c', resolve_duplicate_entities c = Ok c').
Proof.
  intros Hsplit.
  pose proof (detect_staged_seen rows) as Hseen. unfold staged_seen in Hseen.
  split; [|split; [|apply resolve_duplicate_entities_is_Ok]].
  - destruct (fix_rows_is_Ok pre (existing_numbers (detect rows)) c)
      as [[numbers1 c1] Hpre].
    { intros s' Hs'. exists (s_number s'). apply Hseen.
      rewrite Hsplit. apply elem_of_app. by left. }
    assert (s_number s ∈ get_set numbers1 (s_model_id s)) as Hs.
    { eapply fix_rows_numbers_mono; [exact Hpre|]. apply Hseen.
      rewrite Hsplit. apply elem_of_app. right. left. }
    destruct (set_max_is_Some _ _ Hs) as [m Hm].
    destruct (fix_row_is_Ok numbers1 c1 s _ Hs) as [st Hst].
    by exists numbers1, c1, m, st.
  - apply fix_rows_is_Ok. intros s' Hs'. exists (s_number s'). by apply Hseen.
Qed.

Lemma max_of_seen_numbers_defined_witness :
  (∃ numbers1 c1 m st,
     fix_rows (existing_numbers
                 (detect [VersionRow "v1" "1" 1 "m1"; VersionRow "v2" "1" 1 "m1";
                          VersionRow "v3" "beta" 1 "m1"]),
               Conn (Database [] [] []
                       [VersionRow "v1" "1" 1 "m1"; VersionRow "v2" "1" 1 "m1";
                        VersionRow "v3" "beta" 1 "m1"] []) [])
              [Staged "v2" "1" 1 "m1" true true]
       = Ok (numbers1, c1) ∧
     1 ∈ get_set numbers1 "m1" ∧
     set_max (get_set numbers1 "m1") = Some m ∧
     fix_row (numbers1, c1) (Staged "v3" "beta" 1 "m1" false true) = Ok st).
Proof.
  apply (max_of_seen_numbers_defined
           [VersionRow "v1" "1" 1 "m1"; VersionRow "v2" "1" 1 "m1";
            VersionRow "v3" "beta" 1 "m1"]
           (Conn (Database [] [] []
                    [VersionRow "v1" "1" 1 "m1"; VersionRow "v2" "1" 1 "m1";
                     VersionRow "v3" "beta" 1 "m1"] []) [])
           [Staged "v2" "1" 1 "m1" true true] []
           (Staged "v3" "beta" 1 "m1" false true)).
  vm_compute. reflexivity.
Defined.

(** ** The trace of a resolution *)

Lemma well_logged_app d tr1 tr2 :
  well_logged d tr1 → well_logged d tr2 → well_logged d (tr1 ++ tr2).
Proof.
  induction 1; intros Htr2; simpl; [done| | |]; constructor; auto.
Qed.

Lemma well_logged_no_schema_change d tr :
  well_logged d tr → Forall (λ e, is_schema_change e = false) tr.
Proof. induction 1; repeat constructor; done. Qed.

Lemma well_logged_counts d tr :
  well_logged d tr → count is_warning tr = count is_rename tr.
Proof.
  unfold count. induction 1 as [|t r tr _ _ IH|r n num tr _ _ IH|r num tr _ _ IH];
    [done|..]; rewrite ?filter_cons; simpl.
  - by rewrite IH.
  - by rewrite IH.
  - done.
Qed.

Lemma created_no_schema_change tr :
  Forall (λ e, is_schema_change e = false) tr → created tr = [].
Proof.
  unfold created. induction 1 as [|e tr He _ IH]; [done|].
  destruct e; try done; simpl; exact IH.
Qed.

(** *** Frame: what a step leaves alone *)

Lemma select_set_table t t' rows d :
  select t' (set_table t rows d) = if decide (t = t') then rows else select t' d.
Proof. destruct t, t'; done. Qed.

Lemma t_model_version_set_table t rows d :
  t_model_version (set_table t rows d) = t_model_version d.
Proof. by destruct t. Qed.

Lemma constraints_set_table t rows d :
  constraints (set_table t rows d) = constraints d.
Proof. by destruct t. Qed.

Lemma simple_frame_refl d t c : simple_frame d t c c.
Proof.
  split; try done. exists []. split; [by rewrite app_nil_r|constructor].
Qed.

Lemma simple_frame_trans d t c1 c2 c3 :
  simple_frame d t c1 c2 → simple_frame d t c2 c3 → simple_frame d t c1 c3.
Proof.
  intros [S1 V1 O1 (tr1 & T1 & W1)] [S2 V2 O2 (tr2 & T2 & W2)]. split.
  - unfold same_schema in *. congruence.
  - congruence.
  - intros t' Ht'. rewrite O2, O1; done.
  - exists (tr1 ++ tr2). split; [|by apply well_logged_app].
    by rewrite T2, T1, <- app_assoc.
Qed.

Lemma dedupe_row_frame d t existing c r :
  r ∈ select t d →
  simple_frame d t c (dedupe_row t (existing, c) r).2.
Proof.
  intros Hr. unfold dedupe_row. destruct (decide _); [|apply simple_frame_refl].
  cbn [snd]. split.
  - unfold same_schema. cbn. apply constraints_set_table.
  - cbn. apply t_model_version_set_table.
  - intros t' Ht'. cbn. rewrite select_set_table, decide_False; done.
  - eexists. split.
    + unfold execute_update, log_warning, emit; cbn [trace db].
      rewrite <- app_assoc. reflexivity.
    + by repeat constructor.
Qed.

Lemma foldl_dedupe_row_frame d t rows existing c :
  (∀ r, r ∈ rows → r ∈ select t d) →
  simple_frame d t c (foldl (dedupe_row t) (existing, c) rows).2.
Proof.
  revert existing c. induction rows as [|r rows IH]; intros existing c Hrows.
  - apply simple_frame_refl.
  - cbn [foldl].
    pose proof (dedupe_row_frame d t existing c r (Hrows r ltac:(left))) as Hstep.
    destruct (dedupe_row t (existing, c) r) as [existing' c'].
    eapply simple_frame_trans; [exact Hstep|].
    apply IH. intros r' Hr'. apply Hrows. by right.
Qed.

Lemma resolve_simple_table_frame d t c :
  select t (db c) = select t d →
  simple_frame d t c (resolve_simple_table c t).
Proof.
  intros Hsel. unfold resolve_simple_table.
  apply foldl_dedupe_row_frame. intros r Hr. by rewrite <- Hsel.
Qed.

Lemma foldl_detect_row_staged_from all rows d :
  (∀ r, r ∈ rows → r ∈ all) →
  Forall (staged_from all) (needs_update d) →
  Forall (staged_from all) (needs_update (foldl detect_row d rows)).
Proof.
  revert d. induction rows as [|r rows IH]; intros d Hall Hd; [done|].
  cbn [foldl]. apply IH; [intros r' Hr'; apply Hall; by right|].
  unfold detect_row; cbn [needs_update].
  destruct (_ || _) eqn:Hflags; [|done].
  apply Forall_app. split; [done|].
  constructor; [|constructor].
  exists r. split; [apply Hall; left|]. split; [done|]. exact Hflags.
Qed.

Lemma detect_staged_from rows :
  Forall (staged_from rows) (needs_update (detect rows)).
Proof. apply foldl_detect_row_staged_from; [done|constructor]. Qed.

Lemma version_frame_refl d c : version_frame d c c.
Proof.
  split; try done. exists []. split; [by rewrite app_nil_r|constructor].
Qed.

Lemma version_frame_trans d c1 c2 c3 :
  version_frame d c1 c2 → version_frame d c2 c3 → version_frame d c1 c3.
Proof.
  intros [S1 O1 (tr1 & T1 & W1)] [S2 O2 (tr2 & T2 & W2)]. split.
  - unfold same_schema in *. congruence.
  - intros t. by rewrite O2, O1.
  - exists (tr1 ++ tr2). split; [|by apply well_logged_app].
    by rewrite T2, T1, <- app_assoc.
Qed.

Lemma execute_version_update_frame id_ vals c :
  same_schema c (execute_version_update id_ vals c) ∧
  ∀ t, select t (db (execute_version_update id_ vals c)) = select t (db c).
Proof. split; [done|]. by intros []. Qed.

Lemma fix_row_frame d numbers c s numbers' c' :
  staged_from (t_model_version d) s →
  fix_row (numbers, c) s = Ok (numbers', c') →
  version_frame d c c'.
Proof.
  intros (r & Hr & Hs & Hflags). unfold fix_row.
  destruct (set_max _) as [m|]; [|done].
  rewrite Hs; cbn [s_id s_name s_number s_model_id needs_new_name needs_new_number].
  destruct (bool_decide _).
  - intros [= _ <-]. split; [done|by intros []|].
    eexists. split.
    + unfold execute_version_update, log_warning, emit; cbn [trace db].
      rewrite <- app_assoc. reflexivity.
    + by repeat constructor.
  - destruct (needs_new_name s), (needs_new_number s); try done;
      intros [= _ <-]; (split; [done|by intros []|]); eexists;
      (split; [unfold execute_version_update, log_warning, emit; cbn [trace db];
               rewrite <- ?app_assoc; reflexivity|]);
      by repeat constructor.
Qed.

Lemma fix_rows_frame d (l : list staged) numbers c numbers' c' :
  Forall (staged_from (t_model_version d)) l →
  fix_rows (numbers, c) l = Ok (numbers', c') →
  version_frame d c c'.
Proof.
  revert numbers c. induction l as [|s l IH]; intros numbers c Hl; cbn [fix_rows].
  - intros [= _ <-]. apply version_frame_refl.
  - apply Forall_cons in Hl as [Hs Hl].
    destruct (fix_row (numbers, c) s) as [[numbers1 c1]|] eqn:Hfix; [|done].
    intros Hrest. eapply version_frame_trans.
    + eapply fix_row_frame; eauto.
    + eapply IH; eauto.
Qed.

Lemma resolve_model_versions_frame d c c' :
  t_model_version (db c) = t_model_version d →
  resolve_model_versions c = Ok c' →
  version_frame d c c'.
Proof.
  intros Hd. unfold resolve_model_versions.
  destruct (fix_rows _ _) as [[numbers1 c1]|] eqn:Hfix; [|done].
  intros [= <-]. eapply fix_rows_frame; [|exact Hfix].
  rewrite <- Hd. apply detect_staged_from.
Qed.

(** The trace of the whole resolution, and what it leaves alone. *)
Lemma resolve_duplicate_entities_trace c c' :
  resolve_duplicate_entities c = Ok c' →
  same_schema c c' ∧
  ∃ tr, trace c' = trace c ++ tr ∧ well_logged (db c) tr.
Proof.
  unfold resolve_duplicate_entities. cbn [foldl].
  set (c1 := resolve_simple_table c PipelineRun).
  set (c2 := resolve_simple_table c1 Pipeline).
  set (c3 := resolve_simple_table c2 Model).
  intros Hres.
  assert (simple_frame (db c) PipelineRun c c1) as [S1 V1 O1 (tr1 & T1 & W1)]
    by by apply resolve_simple_table_frame.
  assert (simple_frame (db c) Pipeline c1 c2) as [S2 V2 O2 (tr2 & T2 & W2)]
    by (apply resolve_simple_table_frame; by apply O1).
  assert (simple_frame (db c) Model c2 c3) as [S3 V3 O3 (tr3 & T3 & W3)]
    by (apply resolve_simple_table_frame; rewrite O2, O1; done).
  assert (version_frame (db c) c3 c') as [S4 O4 (tr4 & T4 & W4)]
    by (apply resolve_model_versions_frame; [congruence|done]).
  split; [unfold same_schema in *; congruence|].
  exists (tr1 ++ tr2 ++ tr3 ++ tr4). split.
  - rewrite T4, T3, T2, T1, <- !app_assoc. done.
  - repeat apply well_logged_app; done.
Qed.

(** ** Audit log *)

(** C7, as stated, fails: two model versions with custom names and the same
    number. The second one is renumbered by an update, and no warning is
    logged at all. *)
Lemma renumbering_is_not_logged :
  ∃ c',
    resolve_duplicate_entities
      (Conn (Database [] [] []
               [VersionRow "v1" "alpha" 1 "m1"; VersionRow "v2" "beta" 1 "m1"] [])
            [])
      = Ok c' ∧
    trace c' = [Update "model_version" "v2" (Values None (Some 2))] ∧
    count is_update (trace c') = 1%nat ∧
    count is_warning (trace c') = 0%nat.
Proof. eexists. split; [vm_compute; reflexivity|]. by vm_compute. Qed.

(** C7, amended: the resolution always returns, and the trace it leaves is
    made of (a) a warning with the old and the new name followed by the
    update that assigns this new name, for each rename of a simple entity and
    each update of a model version that assigns a name, and (b) a bare update
    for each model version that only gets a new number. So there is exactly
    one warning per update that assigns a name, and none for the others. *)
Theorem renames_are_logged (c : conn) :
  ∃ c' tr,
    resolve_duplicate_entities c = Ok c' ∧
    trace c' = trace c ++ tr ∧
    well_logged (db c) tr ∧
    count is_warning tr = count is_rename tr.
Proof.
  destruct (resolve_duplicate_entities_is_Ok c) as [c' Hres].
  destruct (resolve_duplicate_entities_trace c c' Hres) as [_ (tr & Htr & Hwl)].
  exists c', tr. repeat split; try done. by eapply well_logged_counts.
Qed.

(** ** Schema changes *)

Lemma NoDup_fmap_equiv {A B C} (f : A → B) (g : A → C) (l : list A) :
  (∀ x y, f x = f y ↔ g x = g y) →
  NoDup (f <$> l) ↔ NoDup (g <$> l).
Proof.
  intros Hfg. induction l as [|x l IH]; [split; intros _; apply NoDup_nil_2|].
  rewrite !fmap_cons, !NoDup_cons, IH, !list_elem_of_fmap.
  split; intros [Hx Hl]; (split; [|done]); intros (y & Hy & Hin);
    apply Hx; exists y; (split; [|done]); by apply Hfg.
Qed.

Lemma same_rows_refl c : same_rows c c.
Proof. done. Qed.

Lemma same_rows_trans c1 c2 c3 :
  same_rows c1 c2 → same_rows c2 c3 → same_rows c1 c3.
Proof.
  intros (A1 & A2 & A3 & A4) (B1 & B2 & B3 & B4).
  repeat split; congruence.
Qed.

(** *** One constraint *)

Lemma trace_with_constraint k c :
  trace (with_constraint k c) = trace c ++ [create_event k].
Proof. done. Qed.

Lemma constraints_with_constraint k c :
  constraints (db (with_constraint k c))
  = filter (λ k', ¬ (c_table k' = c_table k ∧ c_name k' = c_name k))
           (constraints (db c)) ++ [k].
Proof. done. Qed.

Lemma select_with_constraint t k c :
  select t (db (with_constraint k c)) = select t (db c).
Proof. by destruct t. Qed.

Lemma versions_with_constraint k c :
  t_model_version (db (with_constraint k c)) = t_model_version (db c).
Proof. done. Qed.

Lemma same_rows_with_constraint k c : same_rows c (with_constraint k c).
Proof. done. Qed.

Lemma trace_without_constraint table cname c :
  trace (without_constraint table cname c)
  = trace c ++ [DropConstraint table cname].
Proof. done. Qed.

Lemma constraints_without_constraint table cname c :
  constraints (db (without_constraint table cname c))
  = filter (λ k, ¬ (c_table k = table ∧ c_name k = cname)) (constraints (db c)).
Proof. done. Qed.

Lemma same_rows_without_constraint table cname c :
  same_rows c (without_constraint table cname c).
Proof. done. Qed.

(** A constraint on the name within the workspace is accepted exactly when
    the rows of the table have pairwise distinct keys. *)
Lemma create_unique_constraint_simple t cname c :
  create_unique_constraint (table_name t) cname ["name"; "workspace_id"] c
  = if bool_decide (NoDup (key <$> select t (db c)))
    then Ok (with_constraint
               (Constraint (table_name t) cname ["name"; "workspace_id"]) c)
    else Raise IntegrityError.
Proof.
  unfold create_unique_constraint.
  assert (table_keys (table_name t) ["name"; "workspace_id"] (db c)
          = Some (project [λ r, Text (r_name r); λ r, Text (r_workspace_id r)]
                    <$> select t (db c))) as ->
    by by destruct t.
  rewrite (bool_decide_ext _ (NoDup (key <$> select t (db c)))); [done|].
  apply NoDup_fmap_equiv. intros x y. unfold project, key. cbn.
  split; by intros [= -> ->].
Qed.

Lemma create_unique_constraint_version_name cname c :
  create_unique_constraint "model_version" cname ["name"; "model_id"] c
  = if bool_decide (NoDup (version_name_key <$> t_model_version (db c)))
    then Ok (with_constraint
               (Constraint "model_version" cname ["name"; "model_id"]) c)
    else Raise IntegrityError.
Proof.
  unfold create_unique_constraint.
  assert (table_keys "model_version" ["name"; "model_id"] (db c)
          = Some (project [λ r, Text (mv_name r); λ r, Text (mv_model_id r)]
                    <$> t_model_version (db c))) as ->
    by done.
  rewrite (bool_decide_ext _ (NoDup (version_name_key <$> t_model_version (db c))));
    [done|].
  apply NoDup_fmap_equiv. intros x y. unfold project, version_name_key. cbn.
  split; by intros [= -> ->].
Qed.

Lemma create_unique_constraint_version_number cname c :
  create_unique_constraint "model_version" cname ["number"; "model_id"] c
  = if bool_decide (NoDup (version_number_key <$> t_model_version (db c)))
    then Ok (with_constraint
               (Constraint "model_version" cname ["number"; "model_id"]) c)
    else Raise IntegrityError.
Proof.
  unfold create_unique_constraint.
  assert (table_keys "model_version" ["number"; "model_id"] (db c)
          = Some (project [λ r, Integer (mv_number r); λ r, Text (mv_model_id r)]
                    <$> t_model_version (db c))) as ->
    by done.
  rewrite (bool_decide_ext _ (NoDup (version_number_key <$> t_model_version (db c))));
    [done|].
  apply NoDup_fmap_equiv. intros x y. unfold project, version_number_key. cbn.
  split; by intros [= -> ->].
Qed.

Lemma drop_constraint_eq table cname c :
  drop_constraint table cname c
  = if has_constraint table cname (db c)
    then Ok (without_constraint table cname c)
    else Raise SchemaError.
Proof. done. Qed.

Lemma has_constraint_true table cname d :
  has_constraint table cname d = true ↔
  ∃ k, k ∈ constraints d ∧ c_table k = table ∧ c_name k = cname.
Proof.
  unfold has_constraint. rewrite bool_decide_eq_true, Exists_exists. done.
Qed.

Lemma has_constraint_without table cname table' cname' c :
  ¬ (table = table' ∧ cname = cname') →
  has_constraint table cname (db (without_constraint table' cname' c))
  = has_constraint table cname (db c).
Proof.
  intros Hother. unfold has_constraint. apply bool_decide_ext.
  rewrite constraints_without_constraint, !Exists_exists.
  split.
  - intros (k & [_ Hk]%list_elem_of_filter & Hnamed). eauto.
  - intros (k & Hk & Ht & Hn). exists k. split; [|done].
    apply list_elem_of_filter. split; [|done].
    intros [Ht' Hn']. apply Hother. split; congruence.
Qed.

(** *** The five constraints *)

Lemma trace_constrained c :
  trace (constrained c) = trace c ++ (create_event <$> upgrade_constraints).
Proof.
  unfold constrained, upgrade_constraints. cbn [foldl].
  rewrite !trace_with_constraint, <- !app_assoc. reflexivity.
Qed.

Lemma same_rows_constrained c : same_rows c (constrained c).
Proof.
  unfold constrained, upgrade_constraints. cbn [foldl].
  repeat (eapply same_rows_trans; [|apply same_rows_with_constraint]).
  apply same_rows_refl.
Qed.

Lemma filter_unmanaged (ks : list constraint) :
  filter (λ k, ¬ (c_table k = "model_version"
                  ∧ c_name k = "unique_version_number_for_model_id"))
    (filter (λ k, ¬ (c_table k = "model_version"
                     ∧ c_name k = "unique_version_for_model_id"))
       (filter (λ k, ¬ (c_table k = "model"
                        ∧ c_name k = "unique_model_name_in_workspace"))
          (filter (λ k, ¬ (c_table k = "pipeline_run"
                           ∧ c_name k = "unique_run_name_in_workspace"))
             (filter (λ k, ¬ (c_table k = "pipeline"
                              ∧ c_name k = "unique_pipeline_name_in_workspace"))
                ks))))
  = filter unmanaged ks.
Proof.
  rewrite !list_filter_filter. apply list_filter_iff. intros k.
  unfold unmanaged, upgrade_constraints.
  rewrite !Forall_cons, Forall_nil. cbn [c_table c_name]. tauto.
Qed.

Lemma filter_unmanaged_rev (ks : list constraint) :
  filter (λ k, ¬ (c_table k = "pipeline"
                  ∧ c_name k = "unique_pipeline_name_in_workspace"))
    (filter (λ k, ¬ (c_table k = "pipeline_run"
                     ∧ c_name k = "unique_run_name_in_workspace"))
       (filter (λ k, ¬ (c_table k = "model"
                        ∧ c_name k = "unique_model_name_in_workspace"))
          (filter (λ k, ¬ (c_table k = "model_version"
                           ∧ c_name k = "unique_version_for_model_id"))
             (filter (λ k, ¬ (c_table k = "model_version"
                              ∧ c_name k = "unique_version_number_for_model_id"))
                ks))))
  = filter unmanaged ks.
Proof.
  rewrite !list_filter_filter. apply list_filter_iff. intros k.
  unfold unmanaged, upgrade_constraints.
  rewrite !Forall_cons, Forall_nil. cbn [c_table c_name]. tauto.
Qed.

Lemma constraints_constrained c :
  constraints (db (constrained c))
  = filter unmanaged (constraints (db c)) ++ upgrade_constraints.
Proof.
  unfold constrained, upgrade_constraints at 1. cbn [foldl].
  rewrite !constraints_with_constraint. cbn [c_table c_name].
  rewrite !filter_app, <- !app_assoc, filter_unmanaged.
  apply (f_equal (app (filter unmanaged (constraints (db c))))).
  vm_compute. reflexivity.
Qed.

Lemma trace_unconstrained c :
  trace (unconstrained c) = trace c ++ (drop_event <$> rev upgrade_constraints).
Proof.
  unfold unconstrained, upgrade_constraints. cbn [rev app foldl].
  rewrite !trace_without_constraint, <- !app_assoc. reflexivity.
Qed.

Lemma same_rows_unconstrained c : same_rows c (unconstrained c).
Proof.
  unfold unconstrained, upgrade_constraints. cbn [rev app foldl].
  repeat (eapply same_rows_trans; [|apply same_rows_without_constraint]).
  apply same_rows_refl.
Qed.

Lemma constraints_unconstrained c :
  constraints (db (unconstrained c)) = filter unmanaged (constraints (db c)).
Proof.
  unfold unconstrained, upgrade_constraints. cbn [rev app foldl].
  rewrite !constraints_without_constraint. cbn [c_table c_name].
  apply filter_unmanaged_rev.
Qed.

Lemma elem_of_filter_unmanaged k (ks : list constraint) :
  k ∈ filter unmanaged ks ↔
  k ∈ ks ∧
  ∀ k', k' ∈ upgrade_constraints →
        ¬ (c_table k = c_table k' ∧ c_name k = c_name k').
Proof.
  rewrite list_elem_of_filter. unfold unmanaged. rewrite Forall_forall. tauto.
Qed.

Lemma filter_unmanaged_all (ks : list constraint) :
  (∀ k k', k ∈ ks → k' ∈ upgrade_constraints →
           ¬ (c_table k = c_table k' ∧ c_name k = c_name k')) →
  filter unmanaged ks = ks.
Proof.
  induction ks as [|k ks IH]; intros Hks; [done|].
  rewrite filter_cons_True.
  - f_equal. apply IH. intros k1 k' Hk1. apply Hks. by right.
  - unfold unmanaged. apply Forall_forall. intros k' Hk'. apply Hks; [left|done].
Qed.

Lemma filter_unmanaged_upgrade_constraints :
  filter unmanaged upgrade_constraints = [].
Proof. vm_compute. reflexivity. Qed.

(** *** [upgrade] *)

Lemma upgrade_unfold c c1 :
  resolve_duplicate_entities c = Ok c1 →
  upgrade c
  = if bool_decide (NoDup (key <$> select Pipeline (db c1))) then
      if bool_decide (NoDup (key <$> select PipelineRun (db c1))) then
        if bool_decide (NoDup (key <$> select Model (db c1))) then
          if bool_decide (NoDup (version_name_key <$> t_model_version (db c1))) then
            if bool_decide (NoDup (version_number_key <$> t_model_version (db c1)))
            then Ok (constrained c1)
            else Raise IntegrityError
          else Raise IntegrityError
        else Raise IntegrityError
      else Raise IntegrityError
    else Raise IntegrityError.
Proof.
  intros Hres. unfold upgrade. rewrite Hres. cbn [mbind result_bind].
  rewrite (create_unique_constraint_simple Pipeline).
  destruct (bool_decide _); [|done]. cbn [mbind result_bind].
  rewrite (create_unique_constraint_simple PipelineRun), select_with_constraint.
  destruct (bool_decide _); [|done]. cbn [mbind result_bind].
  rewrite (create_unique_constraint_simple Model), !select_with_constraint.
  destruct (bool_decide _); [|done]. cbn [mbind result_bind].
  rewrite create_unique_constraint_version_name, !versions_with_constraint.
  destruct (bool_decide _); [|done]. cbn [mbind result_bind].
  rewrite create_unique_constraint_version_number, !versions_with_constraint.
  destruct (bool_decide _); done.
Qed.

Lemma upgrade_Ok c c1 :
  resolve_duplicate_entities c = Ok c1 →
  duplicate_free (db c1) →
  upgrade c = Ok (constrained c1).
Proof.
  intros Hres (Hs & Hn & Hm). rewrite (upgrade_unfold c c1 Hres).
  by rewrite !bool_decide_eq_true_2 by done.
Qed.

Lemma upgrade_Raise c c1 :
  resolve_duplicate_entities c = Ok c1 →
  ¬ duplicate_free (db c1) →
  upgrade c = Raise IntegrityError.
Proof.
  intros Hres Hdup. rewrite (upgrade_unfold c c1 Hres).
  destruct (bool_decide _) eqn:H1; [apply bool_decide_eq_true in H1|done].
  destruct (bool_decide _) eqn:H2; [apply bool_decide_eq_true in H2|done].
  destruct (bool_decide _) eqn:H3; [apply bool_decide_eq_true in H3|done].
  destruct (bool_decide _) eqn:H4; [apply bool_decide_eq_true in H4|done].
  destruct (bool_decide _) eqn:H5; [apply bool_decide_eq_true in H5|done].
  destruct Hdup. split; [|done]. by intros [].
Qed.

Lemma upgrade_inv c c2 :
  upgrade c = Ok c2 →
  ∃ c1,
    resolve_duplicate_entities c = Ok c1 ∧
    duplicate_free (db c1) ∧
    c2 = constrained c1.
Proof.
  destruct (resolve_duplicate_entities_is_Ok c) as [c1 Hres].
  rewrite (upgrade_unfold c c1 Hres). intros Hup. exists c1. revert Hup.
  destruct (bool_decide _) eqn:H1; [apply bool_decide_eq_true in H1|done].
  destruct (bool_decide _) eqn:H2; [apply bool_decide_eq_true in H2|done].
  destruct (bool_decide _) eqn:H3; [apply bool_decide_eq_true in H3|done].
  destruct (bool_decide _) eqn:H4; [apply bool_decide_eq_true in H4|done].
  destruct (bool_decide _) eqn:H5; [apply bool_decide_eq_true in H5|done].
  intros Hup.
  split; [done|]. split; [|congruence].
  split; [|done]. by intros [].
Qed.

(** C8, as stated, fails on the count: there are three simple-entity tables,
    so [upgrade] creates five constraints, not four. *)
Lemma upgrade_creates_five_constraints :
  ∃ c2,
    upgrade (Conn (Database [] [] [] [] []) []) = Ok c2 ∧
    created (trace c2) = upgrade_constraints ∧
    length (created (trace c2)) ≠ 4%nat.
Proof. eexists. split; [vm_compute; reflexivity|]. by vm_compute. Qed.

(** C8, amended: [upgrade] first runs the whole resolution, which issues
    warnings and row updates only and leaves the schema alone. When the
    resolved rows are free of duplicates, it then creates five unique
    constraints over them, [(name, workspace_id)] on [pipeline],
    [pipeline_run] and [model], and [(name, model_id)] and
    [(number, model_id)] on [model_version], in this order and changing no
    row; the schema then holds them after the constraints it held under other
    names. When the resolution has left a duplicate, the constraint over it
    is refused and [upgrade] raises [IntegrityError]. *)
Theorem upgrade_resolves_then_constrains (c : conn) :
  ∃ c1 tr,
    resolve_duplicate_entities c = Ok c1 ∧
    trace c1 = trace c ++ tr ∧
    Forall (λ e, is_schema_change e = false) tr ∧
    constraints (db c1) = constraints (db c) ∧
    (duplicate_free (db c1) →
     ∃ c2,
       upgrade c = Ok c2 ∧
       trace c2 = trace c ++ tr ++ (create_event <$> upgrade_constraints) ∧
       created (tr ++ (create_event <$> upgrade_constraints)) =
         [Constraint "pipeline" "unique_pipeline_name_in_workspace"
                     ["name"; "workspace_id"];
          Constraint "pipeline_run" "unique_run_name_in_workspace"
                     ["name"; "workspace_id"];
          Constraint "model" "unique_model_name_in_workspace"
                     ["name"; "workspace_id"];
          Constraint "model_version" "unique_version_for_model_id"
                     ["name"; "model_id"];
          Constraint "model_version" "unique_version_number_for_model_id"
                     ["number"; "model_id"]] ∧
       constraints (db c2)
       = filter unmanaged (constraints (db c)) ++ upgrade_constraints ∧
       same_rows c1 c2) ∧
    (¬ duplicate_free (db c1) → upgrade c = Raise IntegrityError).
Proof.
  destruct (resolve_duplicate_entities_is_Ok c) as [c1 Hres].
  destruct (resolve_duplicate_entities_trace c c1 Hres) as [Hsch (tr & Htr & Hwl)].
  pose proof (well_logged_no_schema_change _ _ Hwl) as Hns.
  exists c1, tr. split; [done|]. split; [done|]. split; [done|].
  split; [exact Hsch|]. split; [|by apply upgrade_Raise].
  intros Hfree. exists (constrained c1).
  split; [by apply upgrade_Ok|].
  split; [by rewrite trace_constrained, Htr, <- app_assoc|].
  split; [|split; [|apply same_rows_constrained]].
  - unfold created at 1. rewrite omap_app.
    fold (created tr). by rewrite created_no_schema_change.
  - by rewrite constraints_constrained, Hsch.
Qed.

(** *** [downgrade] *)

Lemma holds_upgrade_constraints_spec d :
  holds_upgrade_constraints d ↔
  has_constraint "model_version" "unique_version_number_for_model_id" d = true ∧
  has_constraint "model_version" "unique_version_for_model_id" d = true ∧
  has_constraint "model" "unique_model_name_in_workspace" d = true ∧
  has_constraint "pipeline_run" "unique_run_name_in_workspace" d = true ∧
  has_constraint "pipeline" "unique_pipeline_name_in_workspace" d = true.
Proof.
  unfold holds_upgrade_constraints.
  setoid_rewrite <- has_constraint_true. rewrite <- Forall_forall.
  unfold upgrade_constraints. rewrite !Forall_cons, Forall_nil.
  cbn [c_table c_name]. tauto.
Qed.

Lemma downgrade_unfold c :
  downgrade c
  = if has_constraint "model_version" "unique_version_number_for_model_id" (db c)
       && has_constraint "model_version" "unique_version_for_model_id" (db c)
       && has_constraint "model" "unique_model_name_in_workspace" (db c)
       && has_constraint "pipeline_run" "unique_run_name_in_workspace" (db c)
       && has_constraint "pipeline" "unique_pipeline_name_in_workspace" (db c)
    then Ok (unconstrained c)
    else Raise SchemaError.
Proof.
  unfold downgrade. rewrite drop_constraint_eq.
  destruct (has_constraint _ _ (db c)); [|done]. cbn [mbind result_bind andb].
  rewrite drop_constraint_eq,
    !has_constraint_without by (intros [_ [=]] || intros [[=] _]).
  destruct (has_constraint _ _ (db c)); [|done]. cbn [mbind result_bind andb].
  rewrite drop_constraint_eq,
    !has_constraint_without by (intros [_ [=]] || intros [[=] _]).
  destruct (has_constraint _ _ (db c)); [|done]. cbn [mbind result_bind andb].
  rewrite drop_constraint_eq,
    !has_constraint_without by (intros [_ [=]] || intros [[=] _]).
  destruct (has_constraint _ _ (db c)); [|done]. cbn [mbind result_bind andb].
  rewrite drop_constraint_eq,
    !has_constraint_without by (intros [_ [=]] || intros [[=] _]).
  destruct (has_constraint _ _ (db c)); done.
Qed.

Lemma downgrade_Ok c :
  holds_upgrade_constraints (db c) → downgrade c = Ok (unconstrained c).
Proof.
  intros (H5 & H4 & H3 & H2 & H1)%holds_upgrade_constraints_spec.
  by rewrite downgrade_unfold, H5, H4, H3, H2, H1.
Qed.

Lemma holds_upgrade_constraints_constrained c :
  holds_upgrade_constraints (db (constrained c)).
Proof.
  intros k Hk. exists k. split; [|done].
  rewrite constraints_constrained. apply elem_of_app. by right.
Qed.

(** C9: on a schema that holds the constraints [upgrade] creates, as the one
    [upgrade] leaves does, [downgrade] returns; it drops these constraints,
    each by the table and name it was created with, in the reverse of the
    creation order, and issues nothing else; afterwards the schema holds the
    constraints it held before, except those carrying these names; and no row
    of any of the four tables is changed, so the names and numbers [upgrade]
    assigned stay as they are. *)
Theorem downgrade_drops_in_reverse_and_keeps_rows (c0 c1 c : conn) :
  upgrade c0 = Ok c1 →
  holds_upgrade_constraints (db c) →
  ∃ tr c' c2,
    trace c1 = trace c0 ++ tr ∧
    downgrade c = Ok c' ∧
    trace c' = trace c ++ (drop_event <$> rev (created tr)) ∧
    downgrade c1 = Ok c2 ∧
    dropped (trace c2) =
      dropped (trace c1) ++ rev ((λ k, (c_table k, c_name k)) <$> created tr) ∧
    (∀ k, k ∈ constraints (db c') ↔
          k ∈ constraints (db c) ∧
          ∀ k', k' ∈ created tr →
                ¬ (c_table k = c_table k' ∧ c_name k = c_name k')) ∧
    t_pipeline_run (db c') = t_pipeline_run (db c) ∧
    t_pipeline (db c') = t_pipeline (db c) ∧
    t_model (db c') = t_model (db c) ∧
    t_model_version (db c') = t_model_version (db c).
Proof.
  intros Hup Hholds.
  destruct (upgrade_inv c0 c1 Hup) as (c' & Hres & Hfree & ->).
  destruct (resolve_duplicate_entities_trace c0 c' Hres) as [Hsch (tr & Htr & Hwl)].
  exists (tr ++ (create_event <$> upgrade_constraints)),
         (unconstrained c), (unconstrained (constrained c')).
  assert (created (tr ++ (create_event <$> upgrade_constraints))
          = upgrade_constraints) as Hcreated.
  { unfold created at 1. rewrite omap_app. fold (created tr).
    by rewrite (created_no_schema_change tr)
      by by eapply well_logged_no_schema_change. }
  rewrite Hcreated.
  split; [by rewrite trace_constrained, Htr, <- app_assoc|].
  split; [by apply downgrade_Ok|].
  split; [apply trace_unconstrained|].
  split; [apply downgrade_Ok, holds_upgrade_constraints_constrained|].
  split; [|split; [|apply same_rows_unconstrained]].
  - rewrite trace_unconstrained. unfold dropped. by rewrite omap_app.
  - intros k. rewrite constraints_unconstrained. apply elem_of_filter_unmanaged.
Qed.

Lemma downgrade_drops_in_reverse_and_keeps_rows_witness :
  ∃ tr c' c2,
    trace upgraded_pipelines = [] ++ tr ∧
    downgrade later_pipelines = Ok c' ∧
    trace c' = [] ++ (drop_event <$> rev (created tr)) ∧
    downgrade upgraded_pipelines = Ok c2 ∧
    dropped (trace c2) =
      dropped (trace upgraded_pipelines)
      ++ rev ((λ k, (c_table k, c_name k)) <$> created tr) ∧
    (∀ k, k ∈ constraints (db c') ↔
          k ∈ constraints (db later_pipelines) ∧
          ∀ k', k' ∈ created tr →
                ¬ (c_table k = c_table k' ∧ c_name k = c_name k')) ∧
    t_pipeline_run (db c') = [] ∧
    t_pipeline (db c')
    = [Row "a1" "p" "ws1"; Row "b2" "p_b2" "ws1"; Row "c3" "q" "ws1"] ∧
    t_model (db c') = [] ∧
    t_model_version (db c') = [].
Proof.
  apply (downgrade_drops_in_reverse_and_keeps_rows
           (Conn (Database [] [Row "a1" "p" "ws1"; Row "b2" "p" "ws1"] [] []
                           [Constraint "pipeline" "pk_pipeline" ["id"]]) [])
           upgraded_pipelines later_pipelines).
  - vm_compute. reflexivity.
  - intros k Hk. exists k. split; [|done].
    unfold later_pipelines. cbn [db constraints]. apply elem_of_app. by right.
Defined.

(** X16: on a schema that lacks one of the constraints [upgrade] creates, as
    a schema [upgrade] has not run on does, [downgrade] raises: a constraint
    the table does not hold cannot be dropped. *)
Theorem downgrade_needs_the_constraints (c : conn) :
  ¬ holds_upgrade_constraints (db c) →
  downgrade c = Raise SchemaError.
Proof.
  rewrite holds_upgrade_constraints_spec, downgrade_unfold.
  destruct (has_constraint "model_version" "unique_version_number_for_model_id" _),
    (has_constraint "model_version" "unique_version_for_model_id" _),
    (has_constraint "model" "unique_model_name_in_workspace" _),
    (has_constraint "pipeline_run" "unique_run_name_in_workspace" _),
    (has_constraint "pipeline" "unique_pipeline_name_in_workspace" _);
    cbn [andb]; try done.
  intros Hnot. by destruct Hnot.
Qed.

Lemma downgrade_needs_the_constraints_witness :
  downgrade
    (Conn (Database [] [Row "a1" "p" "ws1"] [] []
             [Constraint "pipeline" "unique_pipeline_name_in_workspace"
                         ["name"; "workspace_id"];
              Constraint "model_version" "unique_version_for_model_id"
                         ["name"; "model_id"]]) [])
  = Raise SchemaError.
Proof.
  apply downgrade_needs_the_constraints.
  intros Hholds.
  destruct (Hholds (Constraint "model" "unique_model_name_in_workspace"
                               ["name"; "workspace_id"]))
    as (k0 & Hk0 & Ht & _).
  - unfold upgrade_constraints. do 2 right. left.
  - cbn [db constraints] in Hk0.
    repeat (apply elem_of_cons in Hk0 as [->|Hk0]; [by cbn in Ht|]).
    by apply elem_of_nil in Hk0.
Defined.

(** ** The simple-entity loop as a function on rows *)

Lemma resolved_row_workspace existing r :
  r_workspace_id (resolved_row existing r) = r_workspace_id r.
Proof. unfold resolved_row. by destruct (decide _). Qed.

Lemma resolved_row_id existing r : r_id (resolved_row existing r) = r_id r.
Proof. unfold resolved_row. by destruct (decide _). Qed.

Lemma rename_where_other id_ new_name (l : list row) :
  id_ ∉ r_id <$> l → rename_where id_ new_name <$> l = l.
Proof.
  induction l as [|q l IH]; [done|]. rewrite !fmap_cons, not_elem_of_cons.
  intros [Hq Hl]. unfold rename_where at 1.
  rewrite decide_False by done. by rewrite IH.
Qed.

Lemma rename_where_middle (pre post : list row) r new_name :
  NoDup (r_id <$> pre ++ r :: post) →
  rename_where (r_id r) new_name <$> pre ++ r :: post
  = pre ++ Row (r_id r) new_name (r_workspace_id r) :: post.
Proof.
  rewrite !fmap_app, !fmap_cons. intros Hnd.
  apply NoDup_app in Hnd as (_ & Hpre & Hpost).
  apply NoDup_cons in Hpost as [Hpost _].
  rewrite !rename_where_other; [|done|].
  - unfold rename_where. by rewrite decide_True.
  - intros Hin. eapply Hpre; [exact Hin|left].
Qed.

Lemma dedupe_row_rows t existing c r (pre post : list row) :
  select t (db c) = pre ++ r :: post →
  NoDup (r_id <$> pre ++ r :: post) →
  (dedupe_row t (existing, c) r).1 = see existing r ∧
  select t (db (dedupe_row t (existing, c) r).2)
  = pre ++ resolved_row existing r :: post.
Proof.
  intros Hsel Hnd. unfold dedupe_row, see, resolved_row.
  destruct (decide _); [|done]. split; [done|].
  cbn. rewrite select_set_table, decide_True by done.
  rewrite Hsel. by apply rename_where_middle.
Qed.

Lemma foldl_dedupe_row_rows t (rows pre : list row) existing c :
  select t (db c) = pre ++ rows →
  NoDup (r_id <$> pre ++ rows) →
  (foldl (dedupe_row t) (existing, c) rows).1 = seen_after existing rows ∧
  select t (db (foldl (dedupe_row t) (existing, c) rows).2)
  = pre ++ resolved_rows existing rows.
Proof.
  revert pre existing c.
  induction rows as [|r rows IH]; intros pre existing c Hsel Hnd; [done|].
  cbn [foldl resolved_rows]. unfold seen_after; cbn [foldl].
  destruct (dedupe_row_rows t existing c r pre rows Hsel Hnd) as [Hex Hrows].
  destruct (dedupe_row t (existing, c) r) as [existing' c']. cbn [fst snd] in *.
  subst existing'.
  replace (pre ++ resolved_row existing r :: resolved_rows (see existing r) rows)
    with ((pre ++ [resolved_row existing r]) ++ resolved_rows (see existing r) rows)
    by by rewrite <- app_assoc.
  apply IH.
  - by rewrite Hrows, <- app_assoc.
  - replace (r_id <$> (pre ++ [resolved_row existing r]) ++ rows)
      with (r_id <$> pre ++ r :: rows); [done|].
    rewrite <- app_assoc, !fmap_app, !fmap_cons.
    by rewrite resolved_row_id.
Qed.

(** With ids that identify rows, the table a simple resolution leaves is the
    table it read, each row replaced by what the loop body made of it. *)
Lemma resolve_simple_table_rows c t :
  NoDup (r_id <$> select t (db c)) →
  select t (db (resolve_simple_table c t)) = resolved_rows ∅ (select t (db c)).
Proof.
  intros Hnd. unfold resolve_simple_table.
  by destruct (foldl_dedupe_row_rows t (select t (db c)) [] ∅ c).
Qed.

Lemma resolved_rows_app existing (l1 l2 : list row) :
  resolved_rows existing (l1 ++ l2)
  = resolved_rows existing l1 ++ resolved_rows (seen_after existing l1) l2.
Proof.
  revert existing. induction l1 as [|r l1 IH]; intros existing; [done|].
  cbn. by rewrite IH.
Qed.

Lemma resolved_rows_length existing (l : list row) :
  length (resolved_rows existing l) = length l.
Proof.
  revert existing. induction l as [|r l IH]; intros existing; [done|].
  cbn. by rewrite IH.
Qed.

Lemma resolved_rows_origin existing (l : list row) q' :
  q' ∈ resolved_rows existing l → ∃ q, q ∈ l ∧ (q' = q ∨ q' = renamed q).
Proof.
  revert existing. induction l as [|r l IH]; intros existing; cbn.
  - by intros ?%elem_of_nil.
  - intros [->|Hq']%elem_of_cons.
    + exists r. split; [left|]. unfold resolved_row. destruct (decide _); auto.
    + destruct (IH _ Hq') as (q & Hq & Hor). exists q. split; [by right|done].
Qed.

(** The names seen for a workspace after a run of rows: the names seen
    before, and the names these rows carry once resolved. *)
Lemma seen_after_spec existing (l : list row) ws x :
  x ∈ get_set (seen_after existing l) ws ↔
  x ∈ get_set existing ws ∨ ∃ q', q' ∈ resolved_rows existing l ∧ key q' = (x, ws).
Proof.
  revert existing. induction l as [|r l IH]; intros existing.
  - cbn. split; [auto|]. intros [?|(q' & []%elem_of_nil & _)]; done.
  - unfold seen_after; cbn [foldl resolved_rows]. fold (seen_after (see existing r) l).
    rewrite IH. unfold see at 1. rewrite get_set_add_to.
    setoid_rewrite elem_of_cons. unfold key. split.
    + intros [Hx|(q' & Hq' & Hkey)]; [|right; eauto].
      destruct (decide _) as [<-|]; [|by left].
      apply elem_of_union in Hx as [->%elem_of_singleton|Hx]; [|by left].
      right. eexists. split; [by left|]. by rewrite resolved_row_workspace.
    + intros [Hx|(q' & [->|Hq'] & Hkey)]; [| |right; eauto]; left.
      * destruct (decide _); [apply elem_of_union_r|]; done.
      * injection Hkey as <- <-.
        rewrite resolved_row_workspace.
        rewrite decide_True by done. apply elem_of_union_l. by apply elem_of_singleton.
Qed.

Lemma app_nonempty_neq (s u : string) : u ≠ "" → s +:+ u ≠ s.
Proof.
  intros Hu. induction s as [|a s IH]; cbn.
  - done.
  - intros [= H]. by apply IH.
Qed.

Lemma suffixed_neq name id_ : suffixed name id_ ≠ name.
Proof. unfold suffixed. by apply app_nonempty_neq. Qed.

Lemma renamed_neq r : renamed r ≠ r.
Proof. destruct r as [i n w]. unfold renamed; cbn. intros [= H]. by eapply suffixed_neq. Qed.

Lemma resolved_row_cases existing (l : list row) r :
  (resolved_row (seen_after existing l) r = r ∧
   (r_name r ∉ get_set existing (r_workspace_id r)) ∧
   (∀ q', q' ∈ resolved_rows existing l → key q' ≠ key r)) ∨
  (resolved_row (seen_after existing l) r = renamed r ∧
   (r_name r ∈ get_set existing (r_workspace_id r) ∨
    ∃ q', q' ∈ resolved_rows existing l ∧ key q' = key r)).
Proof.
  unfold resolved_row.
  destruct (decide _) as [Hin|Hnot]; rewrite seen_after_spec in *.
  - by right.
  - left. split; [done|]. split; [intros ?; apply Hnot; by left|].
    intros q' Hq' Hkey. apply Hnot. right. eauto.
Qed.

(** *** First seen wins *)

(** C3, as stated, fails: the third pipeline is the first row of its
    workspace to carry the name [etl_9f8e7d], and it is renamed all the same,
    because this name was synthesized for the second one and added to the
    names seen (line 59). *)
Lemma earliest_row_is_renamed :
  NoDup (r_id <$> late_original) ∧
  Forall (λ q, key q ≠ key (Row "c4d5e6f7a8b94c0d8e1f2a3b4c5d6e7f" "etl_9f8e7d" "ws1"))
         (take 2 late_original) ∧
  late_original !! 2%nat
    = Some (Row "c4d5e6f7a8b94c0d8e1f2a3b4c5d6e7f" "etl_9f8e7d" "ws1") ∧
  select Pipeline
    (db (resolve_simple_table (Conn (Database [] late_original [] [] []) [])
                              Pipeline)) !! 2%nat
    = Some (Row "c4d5e6f7a8b94c0d8e1f2a3b4c5d6e7f" "etl_9f8e7d_c4d5e6" "ws1") ∧
  select Pipeline
    (db (resolve_simple_table (Conn (Database [] late_original [] [] []) [])
                              Pipeline)) !! 2%nat
    ≠ late_original !! 2%nat.
Proof.
  split; [apply (bool_decide_unpack _); by vm_compute|].
  split; [apply (bool_decide_unpack _); by vm_compute|].
  split; [done|]. split; [by vm_compute|].
  apply (bool_decide_unpack _). by vm_compute.
Qed.

(** C3, amended: with ids that identify rows, a row of a simple-entity table
    keeps its name exactly when no earlier row of its workspace carries that
    name once resolved, and is otherwise renamed to [name_id[:6]]. So the
    earliest row carrying a name in a workspace is left as it is unless that
    name is the one synthesized for an earlier row of the workspace. *)
Theorem first_seen_wins (c : conn) (t : simple_table) (pre post : list row)
    (r : row) :
  NoDup (r_id <$> select t (db c)) →
  select t (db c) = pre ++ r :: post →
  ∃ pre' r' post',
    select t (db (resolve_simple_table c t)) = pre' ++ r' :: post' ∧
    length pre' = length pre ∧
    (r' = r ∨ r' = renamed r) ∧
    (r' = r ↔ ∀ q', q' ∈ pre' → key q' ≠ key r) ∧
    ((∀ q, q ∈ pre → key q ≠ key r ∧ key (renamed q) ≠ key r) → r' = r).
Proof.
  intros Hnd Hsel. rewrite resolve_simple_table_rows by done.
  rewrite Hsel, resolved_rows_app. cbn [resolved_rows].
  eexists _, _, _. split; [reflexivity|].
  split; [apply resolved_rows_length|].
  destruct (resolved_row_cases ∅ pre r) as [(-> & _ & Hkeep)|(-> & Hseen)].
  - split; [by left|]. split; [done|]. done.
  - destruct Hseen as [Hin|(q' & Hq' & Hkey)];
      [by rewrite get_set_empty in Hin|].
    split; [by right|]. split.
    + split; [by intros ?%renamed_neq|]. intros Hno. by destruct (Hno q' Hq').
    + intros Hpre. destruct (resolved_rows_origin _ _ _ Hq') as (q & Hq & [->| ->]);
        destruct (Hpre q Hq); done.
Qed.

Lemma first_seen_wins_witness :
  ∃ pre' r' post',
    select Pipeline
      (db (resolve_simple_table
             (Conn (Database [] [Row "a1" "p" "ws1"; Row "b2" "p" "ws1"] [] [] []) [])
             Pipeline))
      = pre' ++ r' :: post' ∧
    length pre' = length [Row "a1" "p" "ws1"] ∧
    (r' = Row "b2" "p" "ws1" ∨ r' = renamed (Row "b2" "p" "ws1")) ∧
    (r' = Row "b2" "p" "ws1" ↔ ∀ q', q' ∈ pre' → key q' ≠ key (Row "b2" "p" "ws1")) ∧
    ((∀ q, q ∈ [Row "a1" "p" "ws1"] →
           key q ≠ key (Row "b2" "p" "ws1") ∧
           key (renamed q) ≠ key (Row "b2" "p" "ws1")) →
     r' = Row "b2" "p" "ws1").
Proof.
  apply (first_seen_wins
           (Conn (Database [] [Row "a1" "p" "ws1"; Row "b2" "p" "ws1"] [] [] []) [])
           Pipeline [Row "a1" "p" "ws1"] [] (Row "b2" "p" "ws1")).
  - apply (bool_decide_unpack _). vm_compute. exact I.
  - reflexivity.
Defined.

(** ** Inputs on which the resolution leaves duplicates *)

(** C1 at [colliding_pipelines]: the third pipeline is renamed to
    [etl_9f8e7d], the name of the first one, which is not checked against the
    names seen; two rows of workspace [ws1] end up with the same name. *)
Theorem resolution_leaves_duplicate_pipeline_names :
  NoDup (r_id <$> colliding_pipelines) ∧
  ∃ c',
    resolve_duplicate_entities (Conn colliding_pipelines_db []) = Ok c' ∧
    t_pipeline (db c') =
      [Row "1f0c86aa5d2e4c07b1d3a4f5e6071829" "etl_9f8e7d" "ws1";
       Row "c4d5e6f7a8b94c0d8e1f2a3b4c5d6e7f" "etl" "ws1";
       Row "9f8e7d6c5b4a43219f8e7d6c5b4a4321" "etl_9f8e7d" "ws1"] ∧
    ¬ NoDup (key <$> t_pipeline (db c')).
Proof.
  split; [apply (bool_decide_unpack _); by vm_compute|].
  eexists. split; [vm_compute; reflexivity|]. split; [reflexivity|].
  apply (bool_decide_unpack _). by vm_compute.
Qed.

(** C2 at [colliding_versions]: the third version is renamed to
    [prod_9f8e7d], the name of the first one; the numbers stay distinct, the
    names do not. *)
Theorem resolution_leaves_duplicate_version_names :
  NoDup (mv_id <$> colliding_versions) ∧
  ∃ c',
    resolve_duplicate_entities
      (Conn (Database [] [] [] colliding_versions []) []) = Ok c' ∧
    t_model_version (db c') =
      [VersionRow "1f0c86aa5d2e4c07b1d3a4f5e6071829" "prod_9f8e7d" 1 "m1";
       VersionRow "c4d5e6f7a8b94c0d8e1f2a3b4c5d6e7f" "prod" 2 "m1";
       VersionRow "9f8e7d6c5b4a43219f8e7d6c5b4a4321" "prod_9f8e7d" 3 "m1"] ∧
    NoDup (version_number_key <$> t_model_version (db c')) ∧
    ¬ NoDup (version_name_key <$> t_model_version (db c')).
Proof.
  split; [apply (bool_decide_unpack _); by vm_compute|].
  eexists. split; [vm_compute; reflexivity|]. split; [reflexivity|].
  split; apply (bool_decide_unpack _); by vm_compute.
Qed.

(** The same for a name in numeric form: the second version is renumbered to
    3 and renamed to ["3"], the custom name of the third one. *)
Lemma numeric_name_collides_with_custom_name :
  ∃ c',
    resolve_duplicate_entities
      (Conn (Database [] [] []
               [VersionRow "v1" "1" 1 "m1"; VersionRow "v2" "1" 1 "m1";
                VersionRow "v3" "3" 2 "m1"] []) []) = Ok c' ∧
    t_model_version (db c') =
      [VersionRow "v1" "1" 1 "m1"; VersionRow "v2" "3" 3 "m1";
       VersionRow "v3" "3" 2 "m1"].
Proof. eexists. split; [vm_compute; reflexivity|reflexivity]. Qed.

(** C4 at [colliding_pipelines]: the first run issues one update and leaves
    a duplicate, so a second run on the state it produced issues one more. *)
Theorem second_run_updates_again :
  ∃ c1 c2,
    resolve_duplicate_entities (Conn colliding_pipelines_db []) = Ok c1 ∧
    resolve_duplicate_entities (Conn (db c1) []) = Ok c2 ∧
    trace c2 =
      [Warning simple_fmt ["pipeline"; "etl_9f8e7d"; "etl_9f8e7d_9f8e7d"];
       Update "pipeline" "9f8e7d6c5b4a43219f8e7d6c5b4a4321"
              (Values (Some "etl_9f8e7d_9f8e7d") None)] ∧
    count is_update (trace c2) = 1%nat.
Proof.
  eexists _, _. split; [vm_compute; reflexivity|].
  split; [vm_compute; reflexivity|]. split; reflexivity.
Qed.

(** ** When the simple-entity resolution does reach uniqueness *)

Lemma get_set_see existing r (q : row) :
  r_name q ∈ get_set (see existing r) (r_workspace_id q) ↔
  key q = key (resolved_row existing r) ∨
  r_name q ∈ get_set existing (r_workspace_id q).
Proof.
  unfold see. rewrite get_set_add_to. unfold key.
  rewrite resolved_row_workspace.
  destruct (decide _) as [Hws|Hws].
  - rewrite elem_of_union, elem_of_singleton. split.
    + intros [->|?]; [left; by rewrite Hws|by right].
    + intros [[= -> _]|?]; auto.
  - split; [auto|]. intros [[= _ Heq]|?]; [by destruct Hws|done].
Qed.

Lemma collision_free_spec existing (rows : list row) :
  collision_free existing rows ↔
  NoDup (key <$> resolved_rows existing rows) ∧
  ∀ q, q ∈ resolved_rows existing rows →
       r_name q ∉ get_set existing (r_workspace_id q).
Proof.
  revert existing. induction rows as [|r rows IH]; intros existing.
  - cbn. split; [|done]. intros _. split; [constructor|].
    by intros q ?%elem_of_nil.
  - cbn [collision_free resolved_rows]. rewrite IH, fmap_cons, NoDup_cons.
    rewrite list_elem_of_fmap. split.
    + intros (Hr & Hnd & Hrest). split; [split; [|done]|].
      * intros (q & Hkey & Hq). apply (Hrest q Hq), get_set_see. by left.
      * intros q [->|Hq]%elem_of_cons.
        { by rewrite resolved_row_workspace. }
        intros Hin. apply (Hrest q Hq), get_set_see. by right.
    + intros [[Hr Hnd] Hall]. split; [|split; [done|]].
      * rewrite <- (resolved_row_workspace existing r). apply Hall. left.
      * intros q Hq [Hkey|Hin]%get_set_see.
        { apply Hr. eauto. }
        apply (Hall q); [by right|done].
Qed.

(** X1: the simple-entity resolution of a table with ids that identify rows
    leaves pairwise distinct [(name, workspace_id)] pairs exactly when no
    row ended up with a name already seen for its workspace. *)
Theorem resolve_simple_table_unique_iff (c : conn) (t : simple_table) :
  NoDup (r_id <$> select t (db c)) →
  NoDup (key <$> select t (db (resolve_simple_table c t))) ↔
  collision_free ∅ (select t (db c)).
Proof.
  intros Hnd. rewrite resolve_simple_table_rows by done.
  rewrite collision_free_spec. split; [|by intros []].
  intros Hkeys. split; [done|]. intros q _. rewrite get_set_empty. set_solver.
Qed.

Lemma resolve_simple_table_unique_iff_witness :
  NoDup (key <$> select Pipeline
           (db (resolve_simple_table
                  (Conn (Database [] [Row "a1" "p" "ws1"; Row "b2" "p" "ws1"] [] [] [])
                        [])
                  Pipeline))) ↔
  collision_free ∅ [Row "a1" "p" "ws1"; Row "b2" "p" "ws1"].
Proof.
  apply (resolve_simple_table_unique_iff
           (Conn (Database [] [Row "a1" "p" "ws1"; Row "b2" "p" "ws1"] [] [] []) [])
           Pipeline).
  apply (bool_decide_unpack _). vm_compute. exact I.
Defined.

(** ** A state without duplicates *)

Lemma foldl_dedupe_row_unique t (rows : list row) existing c :
  NoDup (key <$> rows) →
  (∀ r, r ∈ rows → r_name r ∉ get_set existing (r_workspace_id r)) →
  (foldl (dedupe_row t) (existing, c) rows).2 = c.
Proof.
  revert existing. induction rows as [|r rows IH]; intros existing Hnd Hnew; [done|].
  rewrite fmap_cons, NoDup_cons in Hnd. destruct Hnd as [Hr Hnd].
  cbn [foldl]. unfold dedupe_row at 2.
  rewrite decide_False by (apply Hnew; left).
  apply IH; [done|]. intros q Hq. rewrite get_set_add_to.
  destruct (decide _) as [Hws|]; [|apply Hnew; by right].
  rewrite not_elem_of_union, not_elem_of_singleton. split; [|apply Hnew; by right].
  intros Hname. apply Hr, list_elem_of_fmap. exists q. split; [|done].
  unfold key. by rewrite Hname, Hws.
Qed.

Lemma resolve_simple_table_unique c t :
  NoDup (key <$> select t (db c)) → resolve_simple_table c t = c.
Proof.
  intros Hnd. unfold resolve_simple_table.
  apply foldl_dedupe_row_unique; [done|].
  intros r _. rewrite get_set_empty. set_solver.
Qed.

Lemma foldl_detect_row_unique (rows : list version_row) d :
  NoDup (version_name_key <$> rows) →
  NoDup (version_number_key <$> rows) →
  (∀ r, r ∈ rows →
        (mv_name r ∉ get_set (existing_names d) (mv_model_id r)) ∧
        (mv_number r ∉ get_set (existing_numbers d) (mv_model_id r))) →
  needs_update (foldl detect_row d rows) = needs_update d.
Proof.
  revert d. induction rows as [|r rows IH]; intros d Hnames Hnumbers Hnew; [done|].
  rewrite fmap_cons, NoDup_cons in Hnames.
  rewrite fmap_cons, NoDup_cons in Hnumbers.
  destruct Hnames as [Hname Hnames], Hnumbers as [Hnumber Hnumbers].
  destruct (Hnew r ltac:(left)) as [Hn1 Hn2].
  cbn [foldl]. rewrite IH; [| done | done |].
  - unfold detect_row; cbn [needs_update].
    by rewrite !bool_decide_eq_false_2.
  - intros q Hq. destruct (Hnew q ltac:(by right)) as [Hq1 Hq2].
    unfold detect_row; cbn [existing_names existing_numbers].
    rewrite !get_set_add_to.
    destruct (decide _) as [Hm|]; [|done].
    rewrite !not_elem_of_union, !not_elem_of_singleton.
    split; (split; [|done]); intros Heq.
    + apply Hname, list_elem_of_fmap. exists q. split; [|done].
      unfold version_name_key. by rewrite Heq, Hm.
    + apply Hnumber, list_elem_of_fmap. exists q. split; [|done].
      unfold version_number_key. by rewrite Heq, Hm.
Qed.

Lemma resolve_model_versions_unique c :
  NoDup (version_name_key <$> t_model_version (db c)) →
  NoDup (version_number_key <$> t_model_version (db c)) →
  resolve_model_versions c = Ok c.
Proof.
  intros Hnames Hnumbers. unfold resolve_model_versions, detect.
  rewrite foldl_detect_row_unique; [done..|].
  intros r _. cbn. rewrite !get_set_empty. set_solver.
Qed.

(** X2: on a state without duplicates the resolution returns the state as it
    got it: no update is issued, no warning is logged, no row is changed. *)
Theorem resolve_duplicate_entities_no_duplicates (c : conn) :
  duplicate_free (db c) → resolve_duplicate_entities c = Ok c.
Proof.
  intros (Hsimple & Hnames & Hnumbers). unfold resolve_duplicate_entities.
  cbn [foldl].
  rewrite (resolve_simple_table_unique c PipelineRun) by apply Hsimple.
  rewrite (resolve_simple_table_unique c Pipeline) by apply Hsimple.
  rewrite (resolve_simple_table_unique c Model) by apply Hsimple.
  by apply resolve_model_versions_unique.
Qed.

Lemma resolve_duplicate_entities_no_duplicates_witness :
  resolve_duplicate_entities
    (Conn (Database [] [Row "a1" "p" "ws1"; Row "b2" "p_b2" "ws1"] []
                    [VersionRow "v1" "1" 1 "m1"; VersionRow "v2" "2" 2 "m1"] [])
          [])
  = Ok (Conn (Database [] [Row "a1" "p" "ws1"; Row "b2" "p_b2" "ws1"] []
                       [VersionRow "v1" "1" 1 "m1"; VersionRow "v2" "2" 2 "m1"] [])
             []).
Proof.
  apply (resolve_duplicate_entities_no_duplicates
           (Conn (Database [] [Row "a1" "p" "ws1"; Row "b2" "p_b2" "ws1"] []
                    [VersionRow "v1" "1" 1 "m1"; VersionRow "v2" "2" 2 "m1"] [])
                 [])).
  split; [intros []|split]; apply (bool_decide_unpack _); vm_compute; exact I.
Defined.

(** ** Version numbers after the resolution *)

Lemma NoDup_fmap_eq {A B} (f : A → B) (l : list A) x y :
  NoDup (f <$> l) → x ∈ l → y ∈ l → f x = f y → x = y.
Proof.
  intros Hnd [i Hi]%list_elem_of_lookup [j Hj]%list_elem_of_lookup Hxy.
  assert (i = j) as ->; [|congruence].
  apply (NoDup_lookup _ _ _ (f x) Hnd); rewrite list_lookup_fmap.
  - by rewrite Hi.
  - by rewrite Hj, Hxy.
Qed.

(** *** Pass 1 *)

Lemma detect_row_numbers_mono d r k :
  get_set (existing_numbers d) k ⊆ get_set (existing_numbers (detect_row d r)) k.
Proof. apply get_set_add_to_mono. Qed.

Lemma detect_row_needs_update_mono d r s :
  s ∈ needs_update d → s ∈ needs_update (detect_row d r).
Proof.
  intros Hs. unfold detect_row; cbn [needs_update].
  destruct (_ || _); [apply elem_of_app; by left|done].
Qed.

Lemma foldl_detect_row_numbers_mono rows d k :
  get_set (existing_numbers d) k
  ⊆ get_set (existing_numbers (foldl detect_row d rows)) k.
Proof.
  revert d. induction rows as [|r rows IH]; intros d; [done|].
  cbn [foldl]. etrans; [apply (detect_row_numbers_mono d r)|apply IH].
Qed.

Lemma foldl_detect_row_needs_update_mono rows d s :
  s ∈ needs_update d → s ∈ needs_update (foldl detect_row d rows).
Proof.
  revert d. induction rows as [|r rows IH]; intros d Hs; [done|].
  cbn [foldl]. by apply IH, detect_row_needs_update_mono.
Qed.

(** Every row read has its number among the numbers seen for its model. *)
Lemma foldl_detect_row_numbers rows d r :
  r ∈ rows →
  mv_number r ∈ get_set (existing_numbers (foldl detect_row d rows)) (mv_model_id r).
Proof.
  revert d. induction rows as [|q rows IH]; intros d; [by intros ?%elem_of_nil|].
  intros [->|Hr]%elem_of_cons; cbn [foldl]; [|by apply IH].
  apply foldl_detect_row_numbers_mono.
  unfold detect_row; cbn [existing_numbers].
  rewrite get_set_add_to, decide_True by done.
  apply elem_of_union_l. by apply elem_of_singleton.
Qed.

(** A row whose number is already seen for its model is staged, flagged as
    needing a new number. *)
Lemma foldl_detect_row_seen_number rows d r :
  r ∈ rows →
  mv_number r ∈ get_set (existing_numbers d) (mv_model_id r) →
  ∃ s, s ∈ needs_update (foldl detect_row d rows) ∧
       s_id s = mv_id r ∧ needs_new_number s = true.
Proof.
  revert d. induction rows as [|q rows IH]; intros d; [by intros ?%elem_of_nil|].
  intros [->|Hr]%elem_of_cons Hseen; cbn [foldl].
  - eexists (Staged (mv_id q) (mv_name q) (mv_number q) (mv_model_id q) _ true).
    split; [|done]. apply foldl_detect_row_needs_update_mono.
    unfold detect_row; cbn [needs_update].
    rewrite (bool_decide_eq_true_2 (mv_number q ∈ _)) by done.
    rewrite orb_true_r. apply elem_of_app. right. by apply list_elem_of_singleton.
  - apply IH; [done|]. by apply detect_row_numbers_mono.
Qed.

(** Of two rows of one model with the same number, the later one is staged,
    flagged as needing a new number. *)
Lemma foldl_detect_row_duplicate_number rows d (i j : nat) r1 r2 :
  rows !! i = Some r1 → rows !! j = Some r2 → (i < j)%nat →
  version_number_key r1 = version_number_key r2 →
  ∃ s, s ∈ needs_update (foldl detect_row d rows) ∧
       s_id s = mv_id r2 ∧ needs_new_number s = true.
Proof.
  revert d i j. induction rows as [|q rows IH]; intros d i j Hi Hj Hlt Hkey;
    [done|].
  destruct j as [|j]; [lia|]. cbn [foldl]. cbn in Hj.
  destruct i as [|i].
  - injection Hi as ->. apply foldl_detect_row_seen_number.
    + by eapply list_elem_of_lookup_2.
    + injection Hkey as Hnum Hm. rewrite <- Hnum, <- Hm.
      unfold detect_row; cbn [existing_numbers].
      rewrite get_set_add_to, decide_True by done.
      apply elem_of_union_l. by apply elem_of_singleton.
  - cbn in Hi. eapply (IH _ i j); eauto. lia.
Qed.

(** *** Pass 2 *)

(** What one step of pass 2 does to the numbers seen and to the rows. *)
Lemma fix_row_cases numbers c s numbers' c' :
  fix_row (numbers, c) s = Ok (numbers', c') →
  ∃ m vals,
    set_max (get_set numbers (s_model_id s)) = Some m ∧
    t_model_version (db c')
      = assign_where (s_id s) vals <$> t_model_version (db c) ∧
    ((v_number vals = Some (m + 1) ∧
      numbers' = add_to numbers (s_model_id s) (m + 1)) ∨
     (v_number vals = None ∧ numbers' = numbers ∧ needs_new_number s = false)).
Proof.
  unfold fix_row. destruct (set_max _) as [m|]; [|done].
  destruct (bool_decide _).
  - intros [= <- <-]. eexists m, _. split; [done|]. split; [reflexivity|]. by left.
  - destruct (needs_new_name s), (needs_new_number s); intros [= <- <-];
      eexists m, _; (split; [done|]); (split; [reflexivity|]); auto.
Qed.

Section version_numbers.
Variable rows : list version_row.
Hypothesis rows_ids : NoDup (mv_id <$> rows).

#[local] Abbreviation seen := (existing_numbers (detect rows)).
#[local] Abbreviation todo := (needs_update (detect rows)).

Lemma pass2_inv_init : pass2_inv rows seen rows todo.
Proof using rows_ids.
  split; try done.
  - intros q Hq. by apply foldl_detect_row_numbers.
  - intros q Hq. exists q. auto.
  - intros i j q1 q2 Hi _ _ _. apply foldl_detect_row_numbers.
    by eapply list_elem_of_lookup_2.
Qed.

Lemma assign_where_id id_ vals q : mv_id (assign_where id_ vals q) = mv_id q.
Proof. unfold assign_where. by destruct (decide _). Qed.

Lemma assign_where_model_id id_ vals q :
  mv_model_id (assign_where id_ vals q) = mv_model_id q.
Proof. unfold assign_where. by destruct (decide _). Qed.

Lemma assign_where_number id_ vals q :
  mv_number (assign_where id_ vals q)
  = if decide (mv_id q = id_) then default (mv_number q) (v_number vals)
    else mv_number q.
Proof. unfold assign_where. by destruct (decide _). Qed.

Lemma assign_where_ids id_ vals (table : list version_row) :
  mv_id <$> (assign_where id_ vals <$> table) = mv_id <$> table.
Proof.
  rewrite <- list_fmap_compose. apply list_fmap_ext.
  intros _ q _. apply assign_where_id.
Qed.

(** A step that assigns no number. *)
Lemma pass2_inv_keep numbers table s l vals :
  v_number vals = None →
  needs_new_number s = false →
  pass2_inv rows numbers table (s :: l) →
  pass2_inv rows numbers (assign_where (s_id s) vals <$> table) l.
Proof.
  intros Hvals Hflag [Hids Hseen Hgrown Hrows Hdistinct Hpending].
  assert (∀ q, mv_number (assign_where (s_id s) vals q) = mv_number q) as Hnum.
  { intros q. rewrite assign_where_number, Hvals. by destruct (decide _). }
  assert (∀ q, original rows (assign_where (s_id s) vals q) ↔ original rows q) as Horig.
  { intros q. unfold original. by rewrite Hnum, assign_where_model_id. }
  split.
  - by rewrite assign_where_ids.
  - intros q' (q & -> & Hq)%list_elem_of_fmap.
    rewrite Hnum, assign_where_model_id. by apply Hseen.
  - done.
  - intros q' (q & -> & Hq)%list_elem_of_fmap.
    destruct (Hrows q Hq) as (r & Hr & Hid & Hm & Hn). exists r.
    rewrite assign_where_id, assign_where_model_id, Hnum, Horig. auto.
  - intros i j q1' q2'. rewrite !list_lookup_fmap.
    destruct (table !! i) as [q1|] eqn:Hi; [|done].
    destruct (table !! j) as [q2|] eqn:Hj; [|done].
    intros [= <-] [= <-] Hij. unfold version_number_key.
    rewrite !Hnum, !assign_where_model_id, Horig. by eapply Hdistinct.
  - intros q' s0 (q & -> & Hq)%list_elem_of_fmap.
    rewrite Horig, assign_where_id. intros Ho Hs0 Hid Hflag0.
    pose proof (Hpending q s0 Hq Ho Hs0 Hid Hflag0) as Hin.
    apply elem_of_cons in Hin as [->|?]; [congruence|done].
Qed.

(** A step that assigns the number after the largest one seen. *)
Lemma pass2_inv_renumber numbers table s l vals m :
  staged_from rows s →
  set_max (get_set numbers (s_model_id s)) = Some m →
  v_number vals = Some (m + 1) →
  pass2_inv rows numbers table (s :: l) →
  pass2_inv rows (add_to numbers (s_model_id s) (m + 1))
            (assign_where (s_id s) vals <$> table) l.
Proof using rows_ids.
  intros (r0 & Hr0 & Hs & _) Hmax Hvals
    [Hids Hseen Hgrown Hrows Hdistinct Hpending].
  apply set_max_Some in Hmax as [_ Hmax].
  assert (s_id s = mv_id r0 ∧ s_model_id s = mv_model_id r0) as [Hsid Hsm]
    by (rewrite Hs; done).
  assert (∀ q, q ∈ table → mv_id q = s_id s → mv_model_id q = s_model_id s)
    as Hmodel.
  { intros q Hq Hid. destruct (Hrows q Hq) as (r & Hr & Hrid & Hrm & _).
    assert (r = r0) as ->
      by (apply (NoDup_fmap_eq mv_id rows r r0 rows_ids Hr Hr0); congruence).
    congruence. }
  assert (∀ x, x ∈ get_set numbers (s_model_id s) → x ≠ m + 1) as Hfresh.
  { intros x Hx. specialize (Hmax x Hx). lia. }
  assert (∀ q, q ∈ table → mv_id q = s_id s →
               ¬ original rows (assign_where (s_id s) vals q)) as Hchanged.
  { intros q Hq Hid. unfold original.
    rewrite assign_where_number, assign_where_model_id, decide_True, Hvals by done.
    cbn. rewrite (Hmodel q Hq Hid). intros Hin.
    apply (Hfresh (m + 1)); [by apply Hgrown|done]. }
  assert (∀ q, mv_id q ≠ s_id s → assign_where (s_id s) vals q = q) as Hother.
  { intros q Hid. unfold assign_where. by rewrite decide_False. }
  split.
  - by rewrite assign_where_ids.
  - intros q' (q & -> & Hq)%list_elem_of_fmap.
    rewrite assign_where_number, assign_where_model_id, get_set_add_to.
    destruct (decide (mv_id q = s_id s)) as [Hid|Hid].
    + rewrite Hvals, (Hmodel q Hq Hid), decide_True by done. cbn.
      apply elem_of_union_l. by apply elem_of_singleton.
    + destruct (decide _); [apply elem_of_union_r|]; by apply Hseen.
  - intros k. etrans; [apply Hgrown|apply get_set_add_to_mono].
  - intros q' (q & -> & Hq)%list_elem_of_fmap.
    destruct (Hrows q Hq) as (r & Hr & Hid & Hm & Hn). exists r.
    rewrite assign_where_id, assign_where_model_id.
    split; [done|]. split; [done|]. split; [done|].
    destruct (decide (mv_id q = s_id s)) as [Hq_id|Hq_id].
    + right. by apply Hchanged.
    + by rewrite Hother.
  - intros i j q1' q2'. rewrite !list_lookup_fmap.
    destruct (table !! i) as [q1|] eqn:Hi; [|done].
    destruct (table !! j) as [q2|] eqn:Hj; [|done].
    intros [= <-] [= <-] Hij.
    assert (q1 ∈ table) as Hq1 by by eapply list_elem_of_lookup_2.
    assert (q2 ∈ table) as Hq2 by by eapply list_elem_of_lookup_2.
    assert (mv_id q1 ≠ mv_id q2) as Hids12.
    { intros Heq. apply Hij. apply (NoDup_lookup _ _ _ (mv_id q1) Hids);
        rewrite list_lookup_fmap; [by rewrite Hi|by rewrite Hj, Heq]. }
    unfold version_number_key.
    rewrite !assign_where_number, !assign_where_model_id.
    destruct (decide (mv_id q1 = s_id s)) as [Hid1|Hid1];
      destruct (decide (mv_id q2 = s_id s)) as [Hid2|Hid2];
      [congruence| | |].
    + rewrite Hvals; cbn. intros [= Hn Hm].
      destruct (Hfresh (mv_number q2)); [|done].
      rewrite <- (Hmodel q1 Hq1 Hid1), Hm. by apply Hseen.
    + rewrite Hvals; cbn. intros [= Hn Hm].
      destruct (Hfresh (mv_number q1)); [|done].
      rewrite <- (Hmodel q2 Hq2 Hid2), <- Hm. by apply Hseen.
    + rewrite Hother by done. by eapply Hdistinct.
  - intros q' s0 (q & -> & Hq)%list_elem_of_fmap.
    destruct (decide (mv_id q = s_id s)) as [Hid|Hid].
    + intros Ho. by destruct (Hchanged q Hq Hid).
    + rewrite Hother by done. intros Ho Hs0 Hid0 Hflag0.
      pose proof (Hpending q s0 Hq Ho Hs0 Hid0 Hflag0) as Hin.
      apply elem_of_cons in Hin as [->|?]; [congruence|done].
Qed.

Lemma fix_rows_inv (l : list staged) numbers c numbers' c' :
  Forall (staged_from rows) l →
  pass2_inv rows numbers (t_model_version (db c)) l →
  fix_rows (numbers, c) l = Ok (numbers', c') →
  pass2_inv rows numbers' (t_model_version (db c')) [].
Proof using rows_ids.
  revert numbers c. induction l as [|s l IH]; intros numbers c Hl Hinv;
    cbn [fix_rows].
  - by intros [= <- <-].
  - apply Forall_cons in Hl as [Hs Hl].
    destruct (fix_row (numbers, c) s) as [[numbers1 c1]|] eqn:Hfix; [|done].
    apply IH; [done|].
    destruct (fix_row_cases _ _ _ _ _ Hfix)
      as (m & vals & Hmax & -> & [[Hvals ->]|(Hvals & -> & Hflag)]).
    + by eapply pass2_inv_renumber.
    + by eapply pass2_inv_keep.
Qed.

(** With nothing left to process, the numbers are distinct per model. *)
Lemma pass2_inv_done numbers table :
  pass2_inv rows numbers table [] → NoDup (version_number_key <$> table).
Proof using rows_ids.
  intros [Hids Hseen Hgrown Hrows Hdistinct Hpending].
  apply NoDup_alt. intros i j k. rewrite !list_lookup_fmap.
  destruct (table !! i) as [q1|] eqn:Hi; [|done].
  destruct (table !! j) as [q2|] eqn:Hj; [|done].
  intros [= Hk1] [= Hk2]. destruct (decide (i = j)) as [|Hij]; [done|].
  exfalso.
  assert (q1 ∈ table) as Hq1 by by eapply list_elem_of_lookup_2.
  assert (q2 ∈ table) as Hq2 by by eapply list_elem_of_lookup_2.
  assert (original rows q1) as Ho1 by (eapply (Hdistinct i j); eauto; congruence).
  assert (original rows q2) as Ho2 by (eapply (Hdistinct j i); eauto; congruence).
  destruct (Hrows q1 Hq1) as (r1 & Hr1 & Hid1 & Hm1 & [Hn1|?]); [|done].
  destruct (Hrows q2 Hq2) as (r2 & Hr2 & Hid2 & Hm2 & [Hn2|?]); [|done].
  assert (version_number_key r1 = version_number_key r2) as Hkey.
  { unfold version_number_key in *. rewrite Hn1, Hn2, Hm1, Hm2. congruence. }
  assert (mv_id q1 ≠ mv_id q2) as Hids12.
  { intros Heq. apply Hij. apply (NoDup_lookup _ _ _ (mv_id q1) Hids);
      rewrite list_lookup_fmap; [by rewrite Hi|by rewrite Hj, Heq]. }
  apply list_elem_of_lookup in Hr1 as [i1 Hi1], Hr2 as [i2 Hi2].
  assert (i1 ≠ i2) as Hne by (intros ->; congruence).
  destruct (decide (i1 < i2)%nat) as [Hlt|Hge].
  - destruct (foldl_detect_row_duplicate_number rows (Detection ∅ ∅ [])
                i1 i2 r1 r2 Hi1 Hi2 Hlt Hkey) as (s & Hs & Hsid & Hflag).
    assert (s ∈ []) as []%elem_of_nil.
    apply (Hpending q2 s); auto. congruence.
  - destruct (foldl_detect_row_duplicate_number rows (Detection ∅ ∅ [])
                i2 i1 r2 r1 Hi2 Hi1 ltac:(lia) (eq_sym Hkey))
      as (s & Hs & Hsid & Hflag).
    assert (s ∈ []) as []%elem_of_nil.
    apply (Hpending q1 s); auto. congruence.
Qed.
End version_numbers.

Lemma resolve_model_versions_numbers c c' :
  NoDup (mv_id <$> t_model_version (db c)) →
  resolve_model_versions c = Ok c' →
  NoDup (version_number_key <$> t_model_version (db c')).
Proof.
  intros Hids. unfold resolve_model_versions.
  destruct (fix_rows _ _) as [[numbers1 c1]|] eqn:Hfix; [|done].
  intros [= <-]. cbn [snd].
  eapply pass2_inv_done; [exact Hids|].
  eapply fix_rows_inv; [exact Hids| | |exact Hfix].
  - apply detect_staged_from.
  - by apply pass2_inv_init.
Qed.

Lemma resolve_simple_table_versions c t :
  t_model_version (db (resolve_simple_table c t)) = t_model_version (db c).
Proof. by destruct (resolve_simple_table_frame (db c) t c eq_refl). Qed.

(** X3: whatever the rows, as long as ids identify the model versions, the
    resolution leaves pairwise distinct [(number, model_id)] pairs. *)
Theorem resolution_makes_version_numbers_unique (c : conn) :
  NoDup (mv_id <$> t_model_version (db c)) →
  ∃ c',
    resolve_duplicate_entities c = Ok c' ∧
    NoDup (version_number_key <$> t_model_version (db c')).
Proof.
  intros Hids. destruct (resolve_duplicate_entities_is_Ok c) as [c' Hres].
  exists c'. split; [done|]. unfold resolve_duplicate_entities in Hres.
  eapply resolve_model_versions_numbers; [|exact Hres].
  cbn [foldl]. by rewrite !resolve_simple_table_versions.
Qed.

Lemma resolution_makes_version_numbers_unique_witness :
  ∃ c',
    resolve_duplicate_entities
      (Conn (Database [] [] []
               [VersionRow "v1" "1" 1 "m1"; VersionRow "v2" "1" 1 "m1";
                VersionRow "v3" "alpha" 1 "m1"; VersionRow "v4" "alpha" 9 "m1"] [])
            []) = Ok c' ∧
    NoDup (version_number_key <$> t_model_version (db c')).
Proof.
  apply (resolution_makes_version_numbers_unique
           (Conn (Database [] [] []
               [VersionRow "v1" "1" 1 "m1"; VersionRow "v2" "1" 1 "m1";
                VersionRow "v3" "alpha" 1 "m1"; VersionRow "v4" "alpha" 9 "m1"] [])
            [])).
  apply (bool_decide_unpack _). vm_compute. exact I.
Defined.

(** ** Ids, workspaces and models are left alone *)

Lemma same_identities_refl d : same_identities d d.
Proof. by split. Qed.

Lemma same_identities_trans d1 d2 d3 :
  same_identities d1 d2 → same_identities d2 d3 → same_identities d1 d3.
Proof.
  intros [Hs1 Hv1] [Hs2 Hv2]. split; [|congruence].
  intros t. by rewrite Hs2, Hs1.
Qed.

Lemma rename_where_identities id_ new_name (l : list row) :
  identity <$> (rename_where id_ new_name <$> l) = identity <$> l.
Proof.
  rewrite <- list_fmap_compose. apply list_fmap_ext. intros _ r _. cbn.
  unfold rename_where. by destruct (decide _).
Qed.

Lemma assign_where_identities id_ vals (l : list version_row) :
  version_identity <$> (assign_where id_ vals <$> l) = version_identity <$> l.
Proof.
  rewrite <- list_fmap_compose. apply list_fmap_ext. intros _ r _. cbn.
  unfold assign_where. by destruct (decide _).
Qed.

Lemma dedupe_row_identities t existing c r :
  same_identities (db c) (db (dedupe_row t (existing, c) r).2).
Proof.
  unfold dedupe_row. destruct (decide _); [|apply same_identities_refl].
  split; cbn.
  - intros t'. rewrite select_set_table.
    destruct (decide (t = t')) as [<-|]; [|done].
    apply rename_where_identities.
  - by rewrite t_model_version_set_table.
Qed.

Lemma foldl_dedupe_row_identities t (rows : list row) existing c :
  same_identities (db c) (db (foldl (dedupe_row t) (existing, c) rows).2).
Proof.
  revert existing c. induction rows as [|r rows IH]; intros existing c.
  - apply same_identities_refl.
  - cbn [foldl]. pose proof (dedupe_row_identities t existing c r) as Hstep.
    destruct (dedupe_row t (existing, c) r) as [existing' c'].
    eapply same_identities_trans; [exact Hstep|apply IH].
Qed.

Lemma fix_row_identities numbers c s numbers' c' :
  fix_row (numbers, c) s = Ok (numbers', c') →
  same_identities (db c) (db c').
Proof.
  unfold fix_row. destruct (set_max _) as [m|]; [|done].
  destruct (bool_decide _); [|destruct (needs_new_name s), (needs_new_number s)];
    intros [= _ <-]; (split; [by intros []|apply assign_where_identities]).
Qed.

Lemma fix_rows_identities (l : list staged) numbers c numbers' c' :
  fix_rows (numbers, c) l = Ok (numbers', c') →
  same_identities (db c) (db c').
Proof.
  revert numbers c. induction l as [|s l IH]; intros numbers c; cbn [fix_rows].
  - intros [= _ <-]. apply same_identities_refl.
  - destruct (fix_row (numbers, c) s) as [[numbers1 c1]|] eqn:Hfix; [|done].
    intros Hrest. eapply same_identities_trans.
    + by eapply fix_row_identities.
    + by eapply IH.
Qed.

(** X4: the resolution always returns, and the state it returns holds the rows
    it was given, in the same order, with the ids, workspaces and models they
    had: rows are neither created nor deleted, and only names and numbers
    change. *)
Theorem resolution_keeps_identities (c : conn) :
  ∃ c',
    resolve_duplicate_entities c = Ok c' ∧
    (∀ t, identity <$> select t (db c') = identity <$> select t (db c)) ∧
    version_identity <$> t_model_version (db c')
      = version_identity <$> t_model_version (db c) ∧
    constraints (db c') = constraints (db c).
Proof.
  destruct (resolve_duplicate_entities_is_Ok c) as [c' Hres]. exists c'.
  split; [done|].
  destruct (resolve_duplicate_entities_trace c c' Hres) as [Hschema _].
  cut (same_identities (db c) (db c')); [intros [? ?]; done|].
  unfold resolve_duplicate_entities, resolve_model_versions in Hres.
  destruct (fix_rows _ _) as [[numbers1 c1]|] eqn:Hfix; [|done].
  injection Hres as <-. cbn [snd].
  eapply same_identities_trans; [|by eapply fix_rows_identities].
  cbn [foldl]. unfold resolve_simple_table.
  repeat (eapply same_identities_trans; [|apply foldl_dedupe_row_identities]).
  apply same_identities_refl.
Qed.

(** ** Workspaces do not interfere *)

Lemma get_set_see_other existing r w :
  r_workspace_id r ≠ w → get_set (see existing r) w = get_set existing w.
Proof.
  intros Hw. unfold see. rewrite get_set_add_to. by rewrite decide_False.
Qed.

Lemma resolved_row_agree existing existing' r :
  get_set existing (r_workspace_id r) = get_set existing' (r_workspace_id r) →
  resolved_row existing r = resolved_row existing' r ∧
  get_set (see existing r) (r_workspace_id r)
  = get_set (see existing' r) (r_workspace_id r).
Proof.
  intros Hagree. unfold see, resolved_row. rewrite !get_set_add_to, Hagree.
  by destruct (decide (r_name r ∈ _)).
Qed.

Lemma resolved_rows_of_workspace w (rows : list row) existing existing' :
  get_set existing w = get_set existing' w →
  rows_of_workspace w (resolved_rows existing rows)
  = resolved_rows existing' (rows_of_workspace w rows).
Proof.
  unfold rows_of_workspace.
  revert existing existing'.
  induction rows as [|r rows IH]; intros existing existing' Hagree; [done|].
  cbn [resolved_rows]. rewrite !filter_cons, resolved_row_workspace.
  destruct (decide (r_workspace_id r = w)) as [Hw|Hw].
  - subst w. destruct (resolved_row_agree existing existing' r Hagree)
      as [Hrow Hsee].
    cbn [resolved_rows]. rewrite Hrow. f_equal. by apply IH.
  - apply IH. by rewrite get_set_see_other.
Qed.

(** X5: with ids that identify rows, what the simple-entity resolution makes
    of the rows of one workspace does not depend on the rows of the other
    workspaces: resolving the whole table and keeping the rows of the
    workspace gives the rows that resolving the workspace alone gives. *)
Theorem workspaces_are_resolved_independently (c : conn) (t : simple_table)
    (w : string) :
  NoDup (r_id <$> select t (db c)) →
  rows_of_workspace w (select t (db (resolve_simple_table c t)))
  = select t (db (resolve_simple_table (only_workspace t w c) t)).
Proof.
  intros Hids.
  assert (select t (db (only_workspace t w c))
          = rows_of_workspace w (select t (db c))) as Hsel.
  { unfold only_workspace; cbn [db]. by rewrite select_set_table, decide_True. }
  rewrite !resolve_simple_table_rows; [|rewrite Hsel|done].
  - rewrite Hsel. by apply resolved_rows_of_workspace.
  - eapply sublist_NoDup; [exact Hids|].
    apply fmap_sublist, sublist_filter.
Qed.

Lemma workspaces_are_resolved_independently_witness :
  rows_of_workspace "ws1"
    (select Pipeline
       (db (resolve_simple_table
              (Conn (Database []
                       [Row "a1" "p" "ws1"; Row "b2" "p" "ws2";
                        Row "c3" "p" "ws1"; Row "d4" "p" "ws2"] [] [] []) [])
              Pipeline)))
  = select Pipeline
      (db (resolve_simple_table
             (only_workspace Pipeline "ws1"
                (Conn (Database []
                         [Row "a1" "p" "ws1"; Row "b2" "p" "ws2";
                          Row "c3" "p" "ws1"; Row "d4" "p" "ws2"] [] [] []) []))
             Pipeline)).
Proof.
  apply (workspaces_are_resolved_independently
           (Conn (Database []
                    [Row "a1" "p" "ws1"; Row "b2" "p" "ws2";
                     Row "c3" "p" "ws1"; Row "d4" "p" "ws2"] [] [] []) [])
           Pipeline "ws1").
  apply (bool_decide_unpack _). vm_compute. exact I.
Defined.

(** ** Every duplicate is acted upon *)

Lemma foldl_dedupe_row_trace t (rows : list row) existing c :
  ∃ tr, trace (foldl (dedupe_row t) (existing, c) rows).2 = trace c ++ tr.
Proof.
  destruct (foldl_dedupe_row_frame (set_table t rows (db c)) t rows existing c)
    as [_ _ _ (tr & Htr & _)]; [|eauto].
  intros r Hr. by rewrite select_set_table, decide_True.
Qed.

Lemma app_eq_self_nil {A} (l tr : list A) : l ++ tr = l → tr = [].
Proof.
  intros Heq. apply (app_inv_head l). by rewrite app_nil_r.
Qed.

(** A loop over a simple table that leaves no trace met no seen name. *)
Lemma foldl_dedupe_row_silent t (rows : list row) existing c :
  trace (foldl (dedupe_row t) (existing, c) rows).2 = trace c →
  (∀ r, r ∈ rows → r_name r ∉ get_set existing (r_workspace_id r)) ∧
  NoDup (key <$> rows).
Proof.
  revert existing. induction rows as [|r rows IH]; intros existing.
  - intros _. split; [by intros r ?%elem_of_nil|constructor].
  - cbn [foldl]. unfold dedupe_row at 2.
    destruct (decide (r_name r ∈ _)) as [Hseen|Hnew].
    + destruct (foldl_dedupe_row_trace t rows
                  (add_to existing (r_workspace_id r) (suffixed (r_name r) (r_id r)))
                  (execute_update t (r_id r) (suffixed (r_name r) (r_id r))
                     (log_warning simple_fmt
                        [table_name t; r_name r; suffixed (r_name r) (r_id r)] c)))
        as [tr ->].
      unfold execute_update, log_warning, emit; cbn [trace db].
      rewrite <- !app_assoc. intros Heq%app_eq_self_nil. done.
    + intros Htrace. destruct (IH _ Htrace) as [Hrest Hnd]. split.
      * intros q [->|Hq]%elem_of_cons; [done|].
        intros Hin. apply (Hrest q Hq). by apply get_set_add_to_mono.
      * rewrite fmap_cons. apply NoDup_cons. split; [|done].
        intros (q & Hkey & Hq)%list_elem_of_fmap. apply (Hrest q Hq).
        injection Hkey as Hname Hws. rewrite get_set_add_to, decide_True by done.
        apply elem_of_union_l. by apply elem_of_singleton.
Qed.

Lemma resolve_simple_table_silent c t :
  trace (resolve_simple_table c t) = trace c →
  NoDup (key <$> select t (db c)).
Proof. intros Htrace. by apply (foldl_dedupe_row_silent t _ ∅ c). Qed.

Lemma foldl_detect_row_length rows d :
  (length (needs_update d) ≤ length (needs_update (foldl detect_row d rows)))%nat.
Proof.
  revert d. induction rows as [|r rows IH]; intros d; [done|].
  cbn [foldl]. etrans; [|apply IH].
  unfold detect_row; cbn [needs_update]. destruct (_ || _); [|done].
  rewrite length_app. lia.
Qed.

(** A first pass that stages nothing met no seen name and no seen number. *)
Lemma foldl_detect_row_silent (rows : list version_row) d :
  needs_update (foldl detect_row d rows) = needs_update d →
  (∀ r, r ∈ rows →
        (mv_name r ∉ get_set (existing_names d) (mv_model_id r)) ∧
        (mv_number r ∉ get_set (existing_numbers d) (mv_model_id r))) ∧
  NoDup (version_name_key <$> rows) ∧
  NoDup (version_number_key <$> rows).
Proof.
  revert d. induction rows as [|r rows IH]; intros d.
  - intros _. split; [by intros r ?%elem_of_nil|split; constructor].
  - cbn [foldl]. intros Hsame.
    pose proof (foldl_detect_row_length rows (detect_row d r)) as Hlen.
    rewrite Hsame in Hlen.
    assert (bool_decide (mv_name r ∈ get_set (existing_names d) (mv_model_id r))
            || bool_decide (mv_number r ∈ get_set (existing_numbers d) (mv_model_id r))
            = false) as Hflags.
    { destruct (_ || _) eqn:Hflags; [|done]. exfalso. revert Hlen.
      unfold detect_row; cbn [needs_update]. rewrite Hflags, length_app. cbn. lia. }
    apply orb_false_iff in Hflags as [Hname%bool_decide_eq_false Hnumber%bool_decide_eq_false].
    assert (needs_update (detect_row d r) = needs_update d) as Hstep.
    { unfold detect_row; cbn [needs_update].
      by rewrite !bool_decide_eq_false_2. }
    rewrite <- Hstep in Hsame. destruct (IH _ Hsame) as (Hrest & Hnames & Hnumbers).
    split; [|split].
    + intros q [->|Hq]%elem_of_cons; [done|].
      destruct (Hrest q Hq) as [Hq1 Hq2].
      split; intros Hin; [apply Hq1|apply Hq2]; by apply get_set_add_to_mono.
    + rewrite fmap_cons. apply NoDup_cons. split; [|done].
      intros (q & Hkey & Hq)%list_elem_of_fmap. destruct (Hrest q Hq) as [Hq1 _].
      apply Hq1. injection Hkey as Hn Hm. unfold detect_row; cbn [existing_names].
      rewrite get_set_add_to, decide_True by done.
      apply elem_of_union_l. by apply elem_of_singleton.
    + rewrite fmap_cons. apply NoDup_cons. split; [|done].
      intros (q & Hkey & Hq)%list_elem_of_fmap. destruct (Hrest q Hq) as [_ Hq2].
      apply Hq2. injection Hkey as Hn Hm. unfold detect_row; cbn [existing_numbers].
      rewrite get_set_add_to, decide_True by done.
      apply elem_of_union_l. by apply elem_of_singleton.
Qed.

Lemma fix_row_trace_length numbers c s numbers' c' :
  fix_row (numbers, c) s = Ok (numbers', c') →
  (length (trace c) < length (trace c'))%nat.
Proof.
  unfold fix_row. destruct (set_max _) as [m|]; [|done].
  destruct (bool_decide _); [|destruct (needs_new_name s), (needs_new_number s)];
    intros [= _ <-];
    unfold execute_version_update, log_warning, emit; cbn [trace db];
    rewrite !length_app; cbn; lia.
Qed.

Lemma fix_rows_trace_length (l : list staged) numbers c numbers' c' :
  fix_rows (numbers, c) l = Ok (numbers', c') →
  (length (trace c) + length l ≤ length (trace c'))%nat.
Proof.
  revert numbers c. induction l as [|s l IH]; intros numbers c; cbn [fix_rows].
  - intros [= _ <-]. cbn. lia.
  - destruct (fix_row (numbers, c) s) as [[numbers1 c1]|] eqn:Hfix; [|done].
    intros Hrest. apply IH in Hrest. apply fix_row_trace_length in Hfix.
    cbn. lia.
Qed.

Lemma resolve_model_versions_silent c c' :
  resolve_model_versions c = Ok c' →
  trace c' = trace c →
  NoDup (version_name_key <$> t_model_version (db c)) ∧
  NoDup (version_number_key <$> t_model_version (db c)).
Proof.
  unfold resolve_model_versions.
  destruct (fix_rows _ _) as [[numbers1 c1]|] eqn:Hfix; [|done].
  intros [= <-] Htrace. cbn [snd] in Htrace.
  apply fix_rows_trace_length in Hfix. rewrite Htrace in Hfix.
  assert (needs_update (detect (t_model_version (db c))) = []) as Hnone.
  { destruct (needs_update _); [done|]. cbn in Hfix. lia. }
  by destruct (foldl_detect_row_silent (t_model_version (db c))
                 (Detection ∅ ∅ []) Hnone) as (_ & ? & ?).
Qed.

(** X6: a resolution that issues no update and logs nothing was given a
    state without duplicates: whenever two rows of a simple table share
    [(name, workspace_id)], or two model versions share [(name, model_id)] or
    [(number, model_id)], the resolution acts. *)
Theorem silent_resolution_means_no_duplicates (c c' : conn) :
  resolve_duplicate_entities c = Ok c' →
  trace c' = trace c →
  duplicate_free (db c).
Proof.
  unfold resolve_duplicate_entities. cbn [foldl].
  set (c1 := resolve_simple_table c PipelineRun).
  set (c2 := resolve_simple_table c1 Pipeline).
  set (c3 := resolve_simple_table c2 Model).
  intros Hres Htrace.
  assert (simple_frame (db c) PipelineRun c c1) as [_ V1 O1 (tr1 & T1 & _)]
    by by apply resolve_simple_table_frame.
  assert (simple_frame (db c) Pipeline c1 c2) as [_ V2 O2 (tr2 & T2 & _)]
    by (apply resolve_simple_table_frame; by apply O1).
  assert (simple_frame (db c) Model c2 c3) as [_ V3 O3 (tr3 & T3 & _)]
    by (apply resolve_simple_table_frame; rewrite O2, O1; done).
  assert (version_frame (db c) c3 c') as [_ _ (tr4 & T4 & _)]
    by (apply resolve_model_versions_frame; [congruence|done]).
  assert (tr1 = [] ∧ tr2 = [] ∧ tr3 = [] ∧ tr4 = []) as (-> & -> & -> & ->).
  { rewrite T4, T3, T2, T1, <- !app_assoc in Htrace.
    apply app_eq_self_nil in Htrace.
    apply app_nil in Htrace as [? Htrace].
    apply app_nil in Htrace as [? Htrace].
    by apply app_nil in Htrace as [? ?]. }
  rewrite app_nil_r in T1, T2, T3, T4.
  destruct (resolve_model_versions_silent c3 c' Hres T4) as [Hnames Hnumbers].
  split; [|split; congruence].
  intros [].
  - by apply resolve_simple_table_silent.
  - rewrite <- (O1 Pipeline) by done. by apply resolve_simple_table_silent.
  - rewrite <- (O1 Model), <- (O2 Model) by done.
    by apply resolve_simple_table_silent.
Qed.

Lemma silent_resolution_means_no_duplicates_witness :
  duplicate_free
    (Database [] [Row "a1" "p" "ws1"; Row "b2" "p" "ws2"] []
              [VersionRow "v1" "1" 1 "m1"; VersionRow "v2" "1" 1 "m2"] []).
Proof.
  apply (silent_resolution_means_no_duplicates
           (Conn (Database [] [Row "a1" "p" "ws1"; Row "b2" "p" "ws2"] []
                    [VersionRow "v1" "1" 1 "m1"; VersionRow "v2" "1" 1 "m2"] []) [])
           (Conn (Database [] [Row "a1" "p" "ws1"; Row "b2" "p" "ws2"] []
                    [VersionRow "v1" "1" 1 "m1"; VersionRow "v2" "1" 1 "m2"] []) [])).
  - vm_compute. reflexivity.
  - reflexivity.
Defined.

(** ** Upgrade, then downgrade *)

Lemma filter_unnamed (table cname : string) (cs : list constraint) :
  (∀ k, k ∈ cs → ¬ (c_table k = table ∧ c_name k = cname)) →
  filter (λ k, ¬ (c_table k = table ∧ c_name k = cname)) cs = cs.
Proof.
  induction cs as [|k cs IH]; intros Hcs; [done|].
  rewrite filter_cons_True by (apply Hcs; left).
  f_equal. apply IH. intros k' Hk'. apply Hcs. by right.
Qed.

(** X7: on a schema that holds no constraint under one of the five names,
    an [upgrade] that succeeds appends its five constraints, [downgrade]
    then succeeds too and gives back the constraints the schema had, in the
    order it had them, while the rows stay as [upgrade] left them. *)
Theorem downgrade_after_upgrade_restores_schema (c0 c1 : conn) :
  (∀ k k', k ∈ constraints (db c0) → k' ∈ upgrade_constraints →
           ¬ (c_table k = c_table k' ∧ c_name k = c_name k')) →
  upgrade c0 = Ok c1 →
  constraints (db c1) = constraints (db c0) ++ upgrade_constraints ∧
  ∃ c2,
    downgrade c1 = Ok c2 ∧
    constraints (db c2) = constraints (db c0) ∧
    same_rows c1 c2.
Proof.
  intros Hfree Hup.
  destruct (upgrade_inv c0 c1 Hup) as (c' & Hres & _ & ->).
  destruct (resolve_duplicate_entities_trace c0 c' Hres) as [Hsch _].
  assert (constraints (db (constrained c'))
          = constraints (db c0) ++ upgrade_constraints) as Hk
    by by rewrite constraints_constrained, Hsch, filter_unmanaged_all.
  split; [exact Hk|]. exists (unconstrained (constrained c')).
  split; [apply downgrade_Ok, holds_upgrade_constraints_constrained|].
  split; [|apply same_rows_unconstrained].
  rewrite constraints_unconstrained, Hk, filter_app.
  by rewrite filter_unmanaged_all, filter_unmanaged_upgrade_constraints, app_nil_r.
Qed.

Lemma downgrade_after_upgrade_restores_schema_witness :
  constraints (db upgraded_pipelines)
  = [Constraint "pipeline" "pk_pipeline" ["id"]] ++ upgrade_constraints ∧
  ∃ c2,
    downgrade upgraded_pipelines = Ok c2 ∧
    constraints (db c2) = [Constraint "pipeline" "pk_pipeline" ["id"]] ∧
    same_rows upgraded_pipelines c2.
Proof.
  apply (downgrade_after_upgrade_restores_schema
           (Conn (Database [] [Row "a1" "p" "ws1"; Row "b2" "p" "ws1"] [] []
                           [Constraint "pipeline" "pk_pipeline" ["id"]]) [])).
  - intros k k' Hk Hk'. cbn in Hk. apply list_elem_of_singleton in Hk as ->.
    unfold upgrade_constraints in Hk'.
    repeat (apply elem_of_cons in Hk' as [->|Hk']; [cbn; intros [_ [=]]|]).
    by apply elem_of_nil in Hk'.
  - vm_compute. reflexivity.
Defined.

(** ** The two passes over the model versions, row by row *)

Lemma fix_row_values numbers c s numbers' c' :
  fix_row (numbers, c) s = Ok (numbers', c') →
  ∃ m,
    set_max (get_set numbers (s_model_id s)) = Some m ∧
    numbers' = fix_numbers numbers s m ∧
    t_model_version (db c')
      = assign_where (s_id s) (fix_values s m) <$> t_model_version (db c).
Proof.
  unfold fix_row, fix_numbers, fix_values.
  destruct (set_max _) as [m|]; [|done].
  destruct (bool_decide _); [|destruct (needs_new_name s), (needs_new_number s)];
    intros [= <- <-]; by exists m.
Qed.

Lemma detect_row_stage d r :
  needs_update (detect_row d r) = needs_update d ++ option_list (stage d r).
Proof.
  unfold detect_row, stage; cbn [needs_update].
  destruct (_ || _); [done|]. by rewrite app_nil_r.
Qed.

Lemma foldl_detect_row_stage_rows rows d :
  needs_update (foldl detect_row d rows) = needs_update d ++ stage_rows d rows.
Proof.
  revert d. induction rows as [|r rows IH]; intros d; cbn [foldl stage_rows].
  - by rewrite app_nil_r.
  - by rewrite IH, detect_row_stage, <- app_assoc.
Qed.

Lemma stage_rows_detect_row_irrel d1 d2 rows :
  existing_names d1 = existing_names d2 →
  existing_numbers d1 = existing_numbers d2 →
  stage_rows d1 rows = stage_rows d2 rows.
Proof.
  revert d1 d2. induction rows as [|r rows IH]; intros d1 d2 Hn Hs; [done|].
  cbn [stage_rows]. f_equal.
  - unfold stage. by rewrite Hn, Hs.
  - apply IH; unfold detect_row; cbn; by rewrite ?Hn, ?Hs.
Qed.

Lemma assign_where_middle (pre post : list version_row) r vals :
  NoDup (mv_id <$> pre ++ r :: post) →
  assign_where (mv_id r) vals <$> pre ++ r :: post
  = pre ++ assign_where (mv_id r) vals r :: post.
Proof.
  rewrite !fmap_app, !fmap_cons. intros Hnd.
  apply NoDup_app in Hnd as (_ & Hpre & Hpost).
  apply NoDup_cons in Hpost as [Hpost _].
  assert (∀ l : list version_row,
            mv_id r ∉ mv_id <$> l → assign_where (mv_id r) vals <$> l = l) as Hother.
  { induction l as [|q l IH]; [done|]. rewrite !fmap_cons, not_elem_of_cons.
    intros [Hq Hl]. unfold assign_where at 1.
    rewrite decide_False by done. by rewrite IH. }
  rewrite !Hother; [done|done|].
  intros Hin. eapply Hpre; [exact Hin|left].
Qed.

Lemma stage_Some d r s :
  stage d r = Some s →
  s_id s = mv_id r ∧ s_name s = mv_name r ∧ s_number s = mv_number r ∧
  s_model_id s = mv_model_id r ∧
  needs_new_name s
  = bool_decide (mv_name r ∈ get_set (existing_names d) (mv_model_id r)) ∧
  needs_new_number s
  = bool_decide (mv_number r ∈ get_set (existing_numbers d) (mv_model_id r)) ∧
  needs_new_name s || needs_new_number s = true.
Proof.
  unfold stage. destruct (_ || _) eqn:Hflags; [|done]. by intros [= <-].
Qed.

Lemma resolved_version_id d numbers r :
  mv_id (resolved_version d numbers r).1 = mv_id r.
Proof.
  unfold resolved_version. destruct (stage d r); [|done].
  destruct (set_max _); [|done]. cbn. unfold assign_where. by destruct (decide _).
Qed.

Lemma resolved_version_model_id d numbers r :
  mv_model_id (resolved_version d numbers r).1 = mv_model_id r.
Proof.
  unfold resolved_version. destruct (stage d r); [|done].
  destruct (set_max _); [|done]. cbn. unfold assign_where. by destruct (decide _).
Qed.

(** Pass 2, run on what pass 1 staged for a run of rows, leaves these rows as
    [resolved_versions] says, when ids identify rows. *)
Lemma fix_rows_rows (rest done : list version_row) d numbers c numbers' c' :
  t_model_version (db c) = done ++ rest →
  NoDup (mv_id <$> done ++ rest) →
  fix_rows (numbers, c) (stage_rows d rest) = Ok (numbers', c') →
  t_model_version (db c') = done ++ resolved_versions d numbers rest ∧
  numbers' = numbers_after d numbers rest.
Proof.
  revert done d numbers c.
  induction rest as [|r rest IH]; intros done d numbers c Htable Hids.
  - cbn. by intros [= <- <-].
  - cbn [stage_rows resolved_versions numbers_after]. unfold resolved_version.
    destruct (stage d r) as [s|] eqn:Hstage;
      cbn [option_list option_rect app fix_rows].
    + destruct (stage_Some d r s Hstage) as (Hid & _ & _ & Hm & _).
      destruct (fix_row (numbers, c) s) as [[numbers1 c1]|] eqn:Hfix; [|done].
      destruct (fix_row_values _ _ _ _ _ Hfix) as (m & Hmax & -> & Htable1).
      rewrite <- Hm, Hmax. cbn [fst snd]. intros Hrest.
      rewrite Htable, Hid, assign_where_middle in Htable1 by done.
      replace (done ++ assign_where (mv_id r) (fix_values s m) r
                 :: resolved_versions (detect_row d r) (fix_numbers numbers s m) rest)
        with ((done ++ [assign_where (mv_id r) (fix_values s m) r])
                ++ resolved_versions (detect_row d r) (fix_numbers numbers s m) rest)
        by by rewrite <- app_assoc.
      eapply IH; [|
|exact Hrest].
      * by rewrite Htable1, <- app_assoc.
      * replace (mv_id <$> (done ++ [assign_where (mv_id r) (fix_values s m) r]) ++ rest)
          with (mv_id <$> done ++ r :: rest); [done|].
        rewrite <- app_assoc, !fmap_app, !fmap_cons. cbn.
        f_equal. f_equal. unfold assign_where. by destruct (decide _).
    + cbn [fst snd]. intros Hrest.
      replace (done ++ r :: resolved_versions (detect_row d r) numbers rest)
        with ((done ++ [r]) ++ resolved_versions (detect_row d r) numbers rest)
        by by rewrite <- app_assoc.
      eapply IH; [| |exact Hrest]; by rewrite <- app_assoc.
Qed.

(** With ids that identify rows, the table the resolution of the model
    versions leaves is the table it read, each row replaced by what the two
    passes made of it. *)
Lemma resolve_model_versions_rows c c' :
  NoDup (mv_id <$> t_model_version (db c)) →
  resolve_model_versions c = Ok c' →
  t_model_version (db c')
  = resolved_versions (Detection ∅ ∅ [])
      (existing_numbers (detect (t_model_version (db c))))
      (t_model_version (db c)).
Proof.
  intros Hids. unfold resolve_model_versions.
  destruct (fix_rows _ _) as [[numbers1 c1]|] eqn:Hfix; [|done].
  intros [= <-]. cbn [snd].
  unfold detect in Hfix at 2. rewrite foldl_detect_row_stage_rows in Hfix.
  cbn [needs_update app] in Hfix.
  by destruct (fix_rows_rows (t_model_version (db c)) [] _ _ _ _ _ eq_refl Hids Hfix).
Qed.

Lemma foldl_detect_row_names_spec (rows : list version_row) d k x :
  x ∈ get_set (existing_names (foldl detect_row d rows)) k ↔
  x ∈ get_set (existing_names d) k ∨
  ∃ q, q ∈ rows ∧ mv_name q = x ∧ mv_model_id q = k.
Proof.
  revert d. induction rows as [|r rows IH]; intros d; cbn [foldl].
  - split; [auto|]. by intros [?|(q & ?%elem_of_nil & _)].
  - rewrite IH. unfold detect_row at 1; cbn [existing_names].
    rewrite get_set_add_to. setoid_rewrite elem_of_cons. split.
    + intros [Hx|(q & Hq & Hn & Hm)]; [|right; eauto].
      destruct (decide _) as [Hk|]; [|by left].
      apply elem_of_union in Hx as [->%elem_of_singleton|Hx]; [|by left].
      right. exists r. auto.
    + intros [Hx|(q & [->|Hq] & Hn & Hm)]; [| |right; eauto]; left.
      * destruct (decide _); [apply elem_of_union_r|]; done.
      * rewrite decide_True by done. apply elem_of_union_l.
        by apply elem_of_singleton.
Qed.

Lemma foldl_detect_row_numbers_spec (rows : list version_row) d k x :
  x ∈ get_set (existing_numbers (foldl detect_row d rows)) k ↔
  x ∈ get_set (existing_numbers d) k ∨
  ∃ q, q ∈ rows ∧ mv_number q = x ∧ mv_model_id q = k.
Proof.
  revert d. induction rows as [|r rows IH]; intros d; cbn [foldl].
  - split; [auto|]. by intros [?|(q & ?%elem_of_nil & _)].
  - rewrite IH. unfold detect_row at 1; cbn [existing_numbers].
    rewrite get_set_add_to. setoid_rewrite elem_of_cons. split.
    + intros [Hx|(q & Hq & Hn & Hm)]; [|right; eauto].
      destruct (decide _) as [Hk|]; [|by left].
      apply elem_of_union in Hx as [->%elem_of_singleton|Hx]; [|by left].
      right. exists r. auto.
    + intros [Hx|(q & [->|Hq] & Hn & Hm)]; [| |right; eauto]; left.
      * destruct (decide _); [apply elem_of_union_r|]; done.
      * rewrite decide_True by done. apply elem_of_union_l.
        by apply elem_of_singleton.
Qed.

(** A row is staged exactly when an earlier row of its model has its name
    or its number. *)
Lemma stage_None (pre : list version_row) r :
  stage (detect pre) r = None ↔
  ∀ q, q ∈ pre → mv_model_id q = mv_model_id r →
       mv_name q ≠ mv_name r ∧ mv_number q ≠ mv_number r.
Proof.
  unfold stage, detect.
  destruct (_ || _) eqn:Hflags.
  - split; [done|]. intros Hpre. exfalso.
    apply orb_true_iff in Hflags as [Hin%bool_decide_eq_true|Hin%bool_decide_eq_true].
    + apply foldl_detect_row_names_spec in Hin as [Hin|(q & Hq & Hn & Hm)].
      * cbn in Hin. by rewrite get_set_empty in Hin.
      * by destruct (Hpre q Hq Hm).
    + apply foldl_detect_row_numbers_spec in Hin as [Hin|(q & Hq & Hn & Hm)].
      * cbn in Hin. by rewrite get_set_empty in Hin.
      * by destruct (Hpre q Hq Hm).
  - split; [|done]. intros _ q Hq Hm.
    apply orb_false_iff in Hflags as [Hname%bool_decide_eq_false Hnumber%bool_decide_eq_false].
    split; intros Heq.
    + apply Hname, foldl_detect_row_names_spec. right. eauto.
    + apply Hnumber, foldl_detect_row_numbers_spec. right. eauto.
Qed.

Lemma fix_numbers_mono numbers s m k :
  get_set numbers k ⊆ get_set (fix_numbers numbers s m) k.
Proof.
  unfold fix_numbers. destruct (_ || _); [apply get_set_add_to_mono|done].
Qed.

Lemma resolved_version_numbers_mono d numbers r k :
  get_set numbers k ⊆ get_set (resolved_version d numbers r).2 k.
Proof.
  unfold resolved_version. destruct (stage d r); [|done].
  destruct (set_max _); [apply fix_numbers_mono|done].
Qed.

Lemma numbers_after_mono (rows : list version_row) d numbers k :
  get_set numbers k ⊆ get_set (numbers_after d numbers rows) k.
Proof.
  revert d numbers. induction rows as [|r rows IH]; intros d numbers; [done|].
  cbn [numbers_after]. etrans; [apply (resolved_version_numbers_mono d)|apply IH].
Qed.

Lemma resolved_versions_app d numbers (l1 l2 : list version_row) :
  resolved_versions d numbers (l1 ++ l2)
  = resolved_versions d numbers l1
    ++ resolved_versions (foldl detect_row d l1) (numbers_after d numbers l1) l2.
Proof.
  revert d numbers. induction l1 as [|r l1 IH]; intros d numbers; [done|].
  cbn. by rewrite IH.
Qed.

Lemma resolved_versions_length d numbers (l : list version_row) :
  length (resolved_versions d numbers l) = length l.
Proof.
  revert d numbers. induction l as [|r l IH]; intros d numbers; [done|].
  cbn. by rewrite IH.
Qed.

(** What the two passes make of one row: nothing when it is not staged;
    when it is, and its number is among the numbers seen, the assignment of
    [fix_values] for the maximum [m] of these numbers, which changes it. *)
Lemma resolved_version_cases d numbers r :
  mv_number r ∈ get_set numbers (mv_model_id r) →
  (stage d r = None ∧ (resolved_version d numbers r).1 = r) ∨
  (∃ s m,
     stage d r = Some s ∧
     set_max (get_set numbers (mv_model_id r)) = Some m ∧
     (∀ y, y ∈ get_set numbers (mv_model_id r) → y ≤ m) ∧
     (resolved_version d numbers r).1
     = VersionRow (mv_id r)
                  (default (mv_name r) (v_name (fix_values s m)))
                  (default (mv_number r) (v_number (fix_values s m)))
                  (mv_model_id r) ∧
     (resolved_version d numbers r).1 ≠ r).
Proof.
  intros Hseen. unfold resolved_version.
  destruct (stage d r) as [s|] eqn:Hstage; [right|by left].
  destruct (set_max_is_Some _ _ Hseen) as [m Hmax]. rewrite Hmax.
  destruct (set_max_Some _ _ Hmax) as [_ Hle].
  exists s, m. split; [done|]. split; [done|]. split; [done|].
  cbn [fst]. unfold assign_where. rewrite decide_True by done.
  split; [done|].
  destruct (stage_Some d r s Hstage) as (Hid & Hn & Hnum & Hm & _ & _ & Hflags).
  specialize (Hle _ Hseen).
  destruct r as [i n z k]. cbn in *. unfold fix_values.
  rewrite Hn, Hnum, Hid.
  destruct (bool_decide _); cbn.
  - intros [= _ Hz]. lia.
  - destruct (needs_new_name s); cbn.
    + intros [= Hname _]. by eapply suffixed_neq.
    + destruct (needs_new_number s); [|done]. cbn. intros [= Hz]. lia.
Qed.

Lemma resolve_duplicate_entities_versions c c' :
  NoDup (mv_id <$> t_model_version (db c)) →
  resolve_duplicate_entities c = Ok c' →
  t_model_version (db c')
  = resolved_versions (Detection ∅ ∅ [])
      (existing_numbers (detect (t_model_version (db c))))
      (t_model_version (db c)).
Proof.
  intros Hids Hres. unfold resolve_duplicate_entities in Hres. cbn [foldl] in Hres.
  set (c3 := resolve_simple_table
               (resolve_simple_table (resolve_simple_table c PipelineRun) Pipeline)
               Model) in *.
  assert (t_model_version (db c3) = t_model_version (db c)) as Hsame
    by (unfold c3; by rewrite !resolve_simple_table_versions).
  rewrite <- Hsame in Hids |- *.
  by apply resolve_model_versions_rows.
Qed.

(** The numbers pass 2 has seen when it comes to a row hold the number of
    every row of the table. *)
Lemma numbers_after_detect (rows pre : list version_row) d q :
  q ∈ rows →
  mv_number q
  ∈ get_set (numbers_after d (existing_numbers (detect rows)) pre) (mv_model_id q).
Proof.
  intros Hq. apply numbers_after_mono. by apply foldl_detect_row_numbers.
Qed.

(** X8: with ids that identify rows, a model version is left exactly as it
    was read when no earlier row of its model has its name or its number, as
    they were read; otherwise it is changed. Pass 1 compares original values
    only, so here the first row seen always wins. *)
Theorem version_first_seen_wins (c c' : conn) (pre post : list version_row)
    (r : version_row) :
  NoDup (mv_id <$> t_model_version (db c)) →
  t_model_version (db c) = pre ++ r :: post →
  resolve_duplicate_entities c = Ok c' →
  ∃ pre' r' post',
    t_model_version (db c') = pre' ++ r' :: post' ∧
    length pre' = length pre ∧
    (r' = r ↔
     ∀ q, q ∈ pre → mv_model_id q = mv_model_id r →
          mv_name q ≠ mv_name r ∧ mv_number q ≠ mv_number r).
Proof.
  intros Hids Hsplit Hres.
  pose proof (resolve_duplicate_entities_versions c c' Hids Hres) as Htable.
  assert (r ∈ t_model_version (db c)) as Hr
    by (rewrite Hsplit; apply elem_of_app; right; left).
  set (numbers := existing_numbers (detect (t_model_version (db c)))) in *.
  rewrite Hsplit, resolved_versions_app in Htable. cbn [resolved_versions] in Htable.
  eexists _, _, _. split; [exact Htable|].
  split; [apply resolved_versions_length|].
  rewrite <- stage_None. fold (detect pre).
  destruct (resolved_version_cases (detect pre)
              (numbers_after (Detection ∅ ∅ []) numbers pre) r)
    as [[Hnone ->]|(s & m & Hsome & _ & _ & _ & Hneq)].
  - by apply numbers_after_detect.
  - done.
  - split; [done|]. rewrite Hsome. done.
Qed.

Lemma version_first_seen_wins_witness :
  ∃ pre' r' post',
    t_model_version
      (db (Conn (Database [] [] []
                   [VersionRow "v1" "alpha" 1 "m1"; VersionRow "v2" "alpha" 2 "m2";
                    VersionRow "v3" "beta" 2 "m1"] [])
                [Update "model_version" "v3" (Values None (Some 2))]))
    = pre' ++ r' :: post' ∧
    length pre' = length [VersionRow "v1" "alpha" 1 "m1"] ∧
    (r' = VersionRow "v2" "alpha" 2 "m2" ↔
     ∀ q, q ∈ [VersionRow "v1" "alpha" 1 "m1"] →
          mv_model_id q = mv_model_id (VersionRow "v2" "alpha" 2 "m2") →
          mv_name q ≠ mv_name (VersionRow "v2" "alpha" 2 "m2") ∧
          mv_number q ≠ mv_number (VersionRow "v2" "alpha" 2 "m2")).
Proof.
  apply (version_first_seen_wins
           (Conn (Database [] [] []
                    [VersionRow "v1" "alpha" 1 "m1"; VersionRow "v2" "alpha" 2 "m2";
                     VersionRow "v3" "beta" 1 "m1"] []) [])
           _ [VersionRow "v1" "alpha" 1 "m1"] [VersionRow "v3" "beta" 1 "m1"]
           (VersionRow "v2" "alpha" 2 "m2")).
  - apply (bool_decide_unpack _). vm_compute. exact I.
  - reflexivity.
  - vm_compute. reflexivity.
Defined.

(** What the resolution makes of the model version at one place of the
    table, when ids identify rows. *)
Lemma version_row_fate (c c' : conn) (pre post : list version_row)
    (r : version_row) :
  NoDup (mv_id <$> t_model_version (db c)) →
  t_model_version (db c) = pre ++ r :: post →
  resolve_duplicate_entities c = Ok c' →
  ∃ numbers pre' post',
    t_model_version (db c')
    = pre' ++ (resolved_version (detect pre) numbers r).1 :: post' ∧
    length pre' = length pre ∧
    ∀ q, q ∈ t_model_version (db c) →
         mv_number q ∈ get_set numbers (mv_model_id q).
Proof.
  intros Hids Hsplit Hres.
  pose proof (resolve_duplicate_entities_versions c c' Hids Hres) as Htable.
  set (numbers := existing_numbers (detect (t_model_version (db c)))) in *.
  assert (∀ q, q ∈ t_model_version (db c) →
               mv_number q
               ∈ get_set (numbers_after (Detection ∅ ∅ []) numbers pre)
                         (mv_model_id q)) as Hseen
    by (intros q Hq; by apply numbers_after_detect).
  rewrite Hsplit, resolved_versions_app in Htable. cbn [resolved_versions] in Htable.
  eexists _, _, _. split; [exact Htable|].
  split; [apply resolved_versions_length|exact Hseen].
Qed.

(** X9: with ids that identify rows, a model version whose name is the
    decimal rendering of its number still has such a name after the
    resolution: when it is changed, name and number are reassigned together. *)
Theorem numeric_form_is_kept (c c' : conn) (pre post : list version_row)
    (r : version_row) :
  NoDup (mv_id <$> t_model_version (db c)) →
  t_model_version (db c) = pre ++ r :: post →
  resolve_duplicate_entities c = Ok c' →
  numeric_form r →
  ∃ pre' r' post',
    t_model_version (db c') = pre' ++ r' :: post' ∧
    length pre' = length pre ∧
    mv_id r' = mv_id r ∧
    numeric_form r'.
Proof.
  intros Hids Hsplit Hres Hnumeric.
  destruct (version_row_fate c c' pre post r Hids Hsplit Hres)
    as (numbers & pre' & post' & Htable & Hlen & Hseen).
  exists pre', (resolved_version (detect pre) numbers r).1, post'.
  split; [done|]. split; [done|]. split; [apply resolved_version_id|].
  destruct (resolved_version_cases (detect pre) numbers r)
    as [[_ ->]|(s & m & Hsome & _ & _ & -> & _)]; [|done|].
  { apply Hseen. rewrite Hsplit. apply elem_of_app. right. left. }
  destruct (stage_Some _ _ _ Hsome) as (_ & Hn & Hnum & _).
  unfold numeric_form in *. unfold fix_values.
  rewrite Hn, Hnum, bool_decide_eq_true_2 by done. done.
Qed.

Lemma numeric_form_is_kept_witness :
  ∃ pre' r' post',
    t_model_version
      (db (Conn (Database [] [] []
                   [VersionRow "v1" "1" 1 "m1"; VersionRow "v2" "7" 7 "m1";
                    VersionRow "v3" "8" 8 "m1"] [])
                [Warning version_fmt ["1"; "8"];
                 Update "model_version" "v3" (Values (Some "8") (Some 8))]))
    = pre' ++ r' :: post' ∧
    length pre' = length [VersionRow "v1" "1" 1 "m1"; VersionRow "v2" "7" 7 "m1"] ∧
    mv_id r' = mv_id (VersionRow "v3" "1" 1 "m1") ∧
    numeric_form r'.
Proof.
  apply (numeric_form_is_kept
           (Conn (Database [] [] []
                    [VersionRow "v1" "1" 1 "m1"; VersionRow "v2" "7" 7 "m1";
                     VersionRow "v3" "1" 1 "m1"] []) [])
           _ [VersionRow "v1" "1" 1 "m1"; VersionRow "v2" "7" 7 "m1"] []
           (VersionRow "v3" "1" 1 "m1")).
  - apply (bool_decide_unpack _). vm_compute. exact I.
  - reflexivity.
  - vm_compute. reflexivity.
  - vm_compute. reflexivity.
Defined.

(** X10: with ids that identify rows, a model version keeps its number or
    gets one larger than every number read for its model, and keeps its
    name, gets [name_id[:6]], or gets the decimal rendering of its new
    number. *)
Theorem version_gets_fresh_number (c c' : conn) (pre post : list version_row)
    (r : version_row) :
  NoDup (mv_id <$> t_model_version (db c)) →
  t_model_version (db c) = pre ++ r :: post →
  resolve_duplicate_entities c = Ok c' →
  ∃ pre' r' post',
    t_model_version (db c') = pre' ++ r' :: post' ∧
    length pre' = length pre ∧
    (mv_number r' = mv_number r ∨
     ∀ q, q ∈ t_model_version (db c) → mv_model_id q = mv_model_id r →
          mv_number q < mv_number r') ∧
    (mv_name r' = mv_name r ∨
     mv_name r' = suffixed (mv_name r) (mv_id r) ∨
     mv_name r' = str (mv_number r')).
Proof.
  intros Hids Hsplit Hres.
  destruct (version_row_fate c c' pre post r Hids Hsplit Hres)
    as (numbers & pre' & post' & Htable & Hlen & Hseen).
  exists pre', (resolved_version (detect pre) numbers r).1, post'.
  split; [done|]. split; [done|].
  destruct (resolved_version_cases (detect pre) numbers r)
    as [[_ ->]|(s & m & Hsome & _ & Hle & -> & _)]; [|by auto|].
  { apply Hseen. rewrite Hsplit. apply elem_of_app. right. left. }
  destruct (stage_Some _ _ _ Hsome) as (Hid & Hn & _).
  assert (∀ q, q ∈ t_model_version (db c) → mv_model_id q = mv_model_id r →
               mv_number q < m + 1) as Hfresh.
  { intros q Hq Hm. specialize (Hseen q Hq). rewrite Hm in Hseen.
    specialize (Hle _ Hseen). lia. }
  unfold fix_values. rewrite Hn, Hid.
  destruct (bool_decide _); cbn; [by auto|].
  destruct (needs_new_name s), (needs_new_number s); cbn; auto.
Qed.

Lemma version_gets_fresh_number_witness :
  ∃ pre' r' post',
    t_model_version
      (db (Conn (Database [] [] []
                   [VersionRow "v1" "alpha" 1 "m1"; VersionRow "v2" "beta" 6 "m1";
                    VersionRow "v3" "gamma" 5 "m1"] [])
                [Update "model_version" "v2" (Values None (Some 6))]))
    = pre' ++ r' :: post' ∧
    length pre' = length [VersionRow "v1" "alpha" 1 "m1"] ∧
    (mv_number r' = mv_number (VersionRow "v2" "beta" 1 "m1") ∨
     ∀ q, q ∈ t_model_version
                (db (Conn (Database [] [] []
                             [VersionRow "v1" "alpha" 1 "m1";
                              VersionRow "v2" "beta" 1 "m1";
                              VersionRow "v3" "gamma" 5 "m1"] []) [])) →
          mv_model_id q = mv_model_id (VersionRow "v2" "beta" 1 "m1") →
          mv_number q < mv_number r') ∧
    (mv_name r' = mv_name (VersionRow "v2" "beta" 1 "m1") ∨
     mv_name r'
     = suffixed (mv_name (VersionRow "v2" "beta" 1 "m1"))
                (mv_id (VersionRow "v2" "beta" 1 "m1")) ∨
     mv_name r' = str (mv_number r')).
Proof.
  apply (version_gets_fresh_number
           (Conn (Database [] [] []
                    [VersionRow "v1" "alpha" 1 "m1"; VersionRow "v2" "beta" 1 "m1";
                     VersionRow "v3" "gamma" 5 "m1"] []) [])
           (Conn (Database [] [] []
                    [VersionRow "v1" "alpha" 1 "m1"; VersionRow "v2" "beta" 6 "m1";
                     VersionRow "v3" "gamma" 5 "m1"] [])
                 [Update "model_version" "v2" (Values None (Some 6))])
           [VersionRow "v1" "alpha" 1 "m1"] [VersionRow "v3" "gamma" 5 "m1"]
           (VersionRow "v2" "beta" 1 "m1")).
  - apply (bool_decide_unpack _). vm_compute. exact I.
  - reflexivity.
  - vm_compute. reflexivity.
Defined.

(** ** The branches of pass 2, in a run *)

Lemma fix_row_events numbers c s numbers' c' :
  fix_row (numbers, c) s = Ok (numbers', c') →
  ∃ m,
    set_max (get_set numbers (s_model_id s)) = Some m ∧
    numbers' = fix_numbers numbers s m ∧
    trace c' = trace c ++ fix_events s m.
Proof.
  unfold fix_row, fix_numbers, fix_events, fix_values.
  destruct (set_max _) as [m|]; [|done].
  destruct (bool_decide _); [|destruct (needs_new_name s), (needs_new_number s)];
    intros [= <- <-]; exists m; (split; [done|]); (split; [done|]);
    unfold execute_version_update, log_warning, emit; cbn [trace db];
    by rewrite <- ?app_assoc.
Qed.

Lemma fix_rows_events (rest : list version_row) d numbers c numbers' c' :
  fix_rows (numbers, c) (stage_rows d rest) = Ok (numbers', c') →
  trace c' = trace c ++ resolution_events d numbers rest.
Proof.
  revert d numbers c. induction rest as [|r rest IH]; intros d numbers c.
  - cbn. intros [= <- <-]. by rewrite app_nil_r.
  - cbn [stage_rows resolution_events]. unfold resolved_events, resolved_version.
    destruct (stage d r) as [s|] eqn:Hstage;
      cbn [option_list option_rect app fix_rows].
    + destruct (stage_Some d r s Hstage) as (_ & _ & _ & Hm & _).
      destruct (fix_row (numbers, c) s) as [[numbers1 c1]|] eqn:Hfix; [|done].
      destruct (fix_row_events _ _ _ _ _ Hfix) as (m & Hmax & -> & Htr).
      rewrite <- Hm, Hmax. cbn [fst snd]. intros Hrest.
      by rewrite (IH _ _ _ Hrest), Htr, <- app_assoc.
    + cbn [snd]. intros Hrest. by rewrite (IH _ _ _ Hrest).
Qed.

Lemma resolution_events_app d numbers (l1 l2 : list version_row) :
  resolution_events d numbers (l1 ++ l2)
  = resolution_events d numbers l1
    ++ resolution_events (foldl detect_row d l1) (numbers_after d numbers l1) l2.
Proof.
  revert d numbers. induction l1 as [|r l1 IH]; intros d numbers; [done|].
  cbn. by rewrite IH, <- app_assoc.
Qed.

(** The trace of the whole resolution ends with what the two passes issue
    for the model versions, row by row. *)
Lemma resolve_duplicate_entities_events c c' :
  resolve_duplicate_entities c = Ok c' →
  ∃ tr,
    trace c' = trace c ++ tr
      ++ resolution_events (Detection ∅ ∅ [])
           (existing_numbers (detect (t_model_version (db c))))
           (t_model_version (db c)).
Proof.
  unfold resolve_duplicate_entities. cbn [foldl].
  set (c1 := resolve_simple_table c PipelineRun).
  set (c2 := resolve_simple_table c1 Pipeline).
  set (c3 := resolve_simple_table c2 Model).
  intros Hres.
  assert (t_model_version (db c3) = t_model_version (db c)) as Hsame
    by (unfold c3, c2, c1; by rewrite !resolve_simple_table_versions).
  destruct (foldl_dedupe_row_trace PipelineRun (select PipelineRun (db c)) ∅ c)
    as [tr1 Htr1].
  destruct (foldl_dedupe_row_trace Pipeline (select Pipeline (db c1)) ∅ c1)
    as [tr2 Htr2].
  destruct (foldl_dedupe_row_trace Model (select Model (db c2)) ∅ c2)
    as [tr3 Htr3].
  fold (resolve_simple_table c PipelineRun) in Htr1. fold c1 in Htr1.
  fold (resolve_simple_table c1 Pipeline) in Htr2. fold c2 in Htr2.
  fold (resolve_simple_table c2 Model) in Htr3. fold c3 in Htr3.
  exists (tr1 ++ tr2 ++ tr3). rewrite <- Hsame.
  unfold resolve_model_versions in Hres.
  destruct (fix_rows _ _) as [[numbers1 c4]|] eqn:Hfix; [|done].
  injection Hres as <-. cbn [snd].
  unfold detect in Hfix at 2. rewrite foldl_detect_row_stage_rows in Hfix.
  cbn [needs_update app] in Hfix.
  rewrite (fix_rows_events _ _ _ _ _ _ Hfix), Htr3, Htr2, Htr1.
  by rewrite <- !app_assoc.
Qed.

(** The numbers pass 2 has seen for a model once it has dealt with a run of
    rows: those it started with and those the rows now carry. *)
Lemma resolved_version_numbers_spec d numbers r k x :
  mv_number r ∈ get_set numbers (mv_model_id r) →
  x ∈ get_set (resolved_version d numbers r).2 k ↔
  x ∈ get_set numbers k ∨
  (mv_model_id (resolved_version d numbers r).1 = k ∧
   mv_number (resolved_version d numbers r).1 = x).
Proof.
  intros Hseen. unfold resolved_version.
  destruct (stage d r) as [s|] eqn:Hstage; cbn [fst snd].
  2: { split; [auto|]. by intros [?|[<- <-]]. }
  destruct (set_max _) as [m|]; cbn [fst snd].
  2: { split; [auto|]. by intros [?|[<- <-]]. }
  destruct (stage_Some d r s Hstage) as (_ & _ & _ & Hm & _).
  unfold assign_where. rewrite decide_True by done. cbn [mv_model_id mv_number].
  unfold fix_numbers, fix_values.
  assert (x ∈ get_set (add_to numbers (s_model_id s) (m + 1)) k ↔
          x ∈ get_set numbers k ∨ mv_model_id r = k ∧ m + 1 = x) as Hadd.
  { rewrite get_set_add_to, Hm. destruct (decide _) as [<-|Hk].
    - rewrite elem_of_union, elem_of_singleton. intuition congruence.
    - intuition congruence. }
  assert (x ∈ get_set numbers k ↔
          x ∈ get_set numbers k ∨ mv_model_id r = k ∧ mv_number r = x) as Hkeep.
  { split; [auto|]. by intros [?|[<- <-]]. }
  destruct (bool_decide _); cbn [orb v_number default]; [done|].
  destruct (needs_new_name s), (needs_new_number s); cbn [v_number default]; done.
Qed.

Lemma numbers_after_spec (rows : list version_row) d numbers k x :
  (∀ r, r ∈ rows → mv_number r ∈ get_set numbers (mv_model_id r)) →
  x ∈ get_set (numbers_after d numbers rows) k ↔
  x ∈ get_set numbers k ∨
  ∃ q, q ∈ resolved_versions d numbers rows ∧
       mv_model_id q = k ∧ mv_number q = x.
Proof.
  revert d numbers. induction rows as [|r rows IH]; intros d numbers Hseen.
  - cbn. split; [auto|]. by intros [?|(q & ?%elem_of_nil & _)].
  - cbn [numbers_after resolved_versions].
    rewrite IH, (resolved_version_numbers_spec d numbers r)
      by (try intros q Hq; try apply resolved_version_numbers_mono;
          apply Hseen; by constructor).
    split.
    + intros [[Hx|[Hk Hx]]|(q & Hq & Hk & Hx)]; [by left| |].
      * right. eexists. split; [left|done].
      * right. exists q. split; [by right|done].
    + intros [Hx|(q & [->|Hq]%elem_of_cons & Hk & Hx)]; [by do 2 left| |].
      * left. by right.
      * right. eauto.
Qed.

(** What the resolution makes of a staged model version, when ids identify
    rows: the values pass 2 assigns to it, computed from the largest number
    among the rows read for its model and the rows before it as they are
    now, and the events issued for it. *)
Lemma staged_row_fate (c c' : conn) (pre post : list version_row)
    (r : version_row) (s : staged) :
  NoDup (mv_id <$> t_model_version (db c)) →
  t_model_version (db c) = pre ++ r :: post →
  resolve_duplicate_entities c = Ok c' →
  stage (detect pre) r = Some s →
  ∃ m pre' post' tr1 tr2,
    t_model_version (db c')
    = pre' ++ assign_where (mv_id r) (fix_values s m) r :: post' ∧
    length pre' = length pre ∧
    max_number_of (mv_model_id r) (t_model_version (db c) ++ pre') m ∧
    (∀ p, p ∈ post' →
          version_number_key p
          ≠ version_number_key (assign_where (mv_id r) (fix_values s m) r)) ∧
    trace c' = trace c ++ tr1 ++ fix_events s m ++ tr2.
Proof.
  intros Hids Hsplit Hres Hstage.
  pose proof (resolve_duplicate_entities_versions c c' Hids Hres) as Htable.
  destruct (resolve_duplicate_entities_events c c' Hres) as [tr Htrace].
  assert (NoDup (version_number_key <$> t_model_version (db c'))) as Hnd.
  { unfold resolve_duplicate_entities in Hres.
    eapply resolve_model_versions_numbers; [|exact Hres].
    cbn [foldl]. by rewrite !resolve_simple_table_versions. }
  set (numbers0 := existing_numbers (detect (t_model_version (db c)))) in *.
  set (d0 := Detection ∅ ∅ []) in *.
  assert (∀ q, q ∈ t_model_version (db c) →
               mv_number q ∈ get_set numbers0 (mv_model_id q)) as Hseen0
    by (intros q Hq; by apply foldl_detect_row_numbers).
  assert (r ∈ t_model_version (db c)) as Hr
    by (rewrite Hsplit; apply elem_of_app; right; left).
  assert (∀ x, x ∈ get_set (numbers_after d0 numbers0 pre) (mv_model_id r) ↔
               ∃ p, p ∈ t_model_version (db c) ++ resolved_versions d0 numbers0 pre ∧
                    mv_model_id p = mv_model_id r ∧ mv_number p = x) as Hnumbers.
  { intros x. rewrite numbers_after_spec.
    2: { intros q Hq. apply Hseen0. rewrite Hsplit. apply elem_of_app. by left. }
    unfold numbers0, detect. rewrite foldl_detect_row_numbers_spec.
    cbn [existing_numbers]. rewrite get_set_empty. split.
    - intros [[?%elem_of_empty|(p & Hp & Hx & Hk)]|(p & Hp & Hk & Hx)]; [done| |].
      + exists p. split; [apply elem_of_app; by left|done].
      + exists p. split; [apply elem_of_app; by right|done].
    - intros (p & [Hp|Hp]%elem_of_app & Hk & Hx); [left; right|right]; eauto. }
  rewrite Hsplit, resolved_versions_app in Htable.
  rewrite Hsplit, resolution_events_app in Htrace.
  cbn [resolved_versions resolution_events] in Htable, Htrace.
  change (foldl detect_row d0 pre) with (detect pre) in Htable, Htrace.
  unfold resolved_events in Htrace. unfold resolved_version in Htable at 1.
  rewrite Hstage in Htable, Htrace.
  destruct (set_max_is_Some _ _ (proj2 (Hnumbers (mv_number r))
              (ex_intro _ r (conj (proj2 (elem_of_app _ _ _) (or_introl Hr))
                                  (conj eq_refl eq_refl)))))
    as [m Hmax].
  rewrite Hmax in Htable, Htrace. cbn [fst] in Htable.
  exists m, (resolved_versions d0 numbers0 pre),
    (resolved_versions (detect_row (detect pre) r)
       (resolved_version (detect pre) (numbers_after d0 numbers0 pre) r).2 post),
    (tr ++ resolution_events d0 numbers0 pre),
    (resolution_events (detect_row (detect pre) r)
       (resolved_version (detect pre) (numbers_after d0 numbers0 pre) r).2 post).
  split; [exact Htable|].
  split; [apply resolved_versions_length|].
  split; [|split].
  - destruct (set_max_Some _ _ Hmax) as [Hin Hle]. split.
    + by apply Hnumbers.
    + intros p Hp Hk. apply Hle, Hnumbers. eauto.
  - rewrite Htable, fmap_app, fmap_cons in Hnd.
    apply NoDup_app in Hnd as (_ & _ & Hnd). apply NoDup_cons in Hnd as [Hnot _].
    intros p Hp Heq. apply Hnot. rewrite <- Heq. by apply list_elem_of_fmap_2.
  - rewrite Htrace, <- (app_assoc tr). reflexivity.
Qed.

(** C5: in a run of the resolution over ids that identify rows, a model
    version in numeric form ([str(number) == name]) that shares its name or
    its number with an earlier row of its model gets both fields reassigned
    together: with [m] the largest number among the rows read for its model
    and the rows before it as pass 2 left them, its number becomes [m + 1]
    and its name [str (m + 1)], by one update that follows the warning; and
    no later row of the model ends up with [m + 1], which has joined the
    numbers seen. *)
Theorem numeric_form_row_is_reassigned (c c' : conn)
    (pre post : list version_row) (r q : version_row) :
  NoDup (mv_id <$> t_model_version (db c)) →
  t_model_version (db c) = pre ++ r :: post →
  resolve_duplicate_entities c = Ok c' →
  numeric_form r →
  q ∈ pre →
  mv_model_id q = mv_model_id r →
  mv_name q = mv_name r ∨ mv_number q = mv_number r →
  ∃ m pre' post' tr1 tr2,
    t_model_version (db c')
    = pre' ++ VersionRow (mv_id r) (str (m + 1)) (m + 1) (mv_model_id r) :: post' ∧
    length pre' = length pre ∧
    max_number_of (mv_model_id r) (t_model_version (db c) ++ pre') m ∧
    (∀ p, p ∈ post' → mv_model_id p = mv_model_id r → mv_number p ≠ m + 1) ∧
    trace c' = trace c ++ tr1
      ++ [Warning version_fmt [mv_name r; str (m + 1)];
          Update "model_version" (mv_id r)
                 (Values (Some (str (m + 1))) (Some (m + 1)))]
      ++ tr2.
Proof.
  intros Hids Hsplit Hres Hnumeric Hq Hmodel Hcollides.
  destruct (stage (detect pre) r) as [s|] eqn:Hstage.
  2: { destruct (proj1 (stage_None pre r) Hstage q Hq Hmodel). tauto. }
  destruct (staged_row_fate c c' pre post r s Hids Hsplit Hres Hstage)
    as (m & pre' & post' & tr1 & tr2 & Htable & Hlen & Hmax & Hfresh & Htrace).
  destruct (stage_Some _ _ _ Hstage) as (Hid & Hn & Hnum & _).
  unfold numeric_form in Hnumeric.
  unfold fix_events, fix_values in *.
  rewrite Hn, Hnum, Hid, bool_decide_eq_true_2 in * by done.
  unfold assign_where in *. rewrite decide_True in * by done.
  cbn [default v_name v_number] in *.
  exists m, pre', post', tr1, tr2. split; [done|]. split; [done|].
  split; [done|]. split; [|done].
  intros p Hp Hk Hm. apply (Hfresh p Hp). unfold version_number_key. cbn.
  by rewrite Hk, Hm.
Qed.

Lemma numeric_form_row_is_reassigned_witness :
  ∃ m pre' post' tr1 tr2,
    t_model_version (db renumbered_versions)
    = pre' ++ VersionRow "v4" (str (m + 1)) (m + 1) "m1" :: post' ∧
    length pre' = 3%nat ∧
    max_number_of "m1" (duplicate_numeric_versions ++ pre') m ∧
    (∀ p, p ∈ post' → mv_model_id p = "m1" → mv_number p ≠ m + 1) ∧
    trace renumbered_versions = [] ++ tr1
      ++ [Warning version_fmt ["5"; str (m + 1)];
          Update "model_version" "v4"
                 (Values (Some (str (m + 1))) (Some (m + 1)))]
      ++ tr2.
Proof.
  apply (numeric_form_row_is_reassigned
           (Conn (Database [] [] [] duplicate_numeric_versions []) [])
           renumbered_versions
           [VersionRow "v1" "1" 1 "m1"; VersionRow "v2" "5" 3 "m1";
            VersionRow "v3" "1" 1 "m1"]
           [VersionRow "v5" "2" 2 "m2"]
           (VersionRow "v4" "5" 5 "m1")
           (VersionRow "v2" "5" 3 "m1")).
  - apply (bool_decide_unpack _). vm_compute. exact I.
  - reflexivity.
  - vm_compute. reflexivity.
  - vm_compute. reflexivity.
  - right. left.
  - reflexivity.
  - left. reflexivity.
Defined.

(** C6: in a run of the resolution over ids that identify rows, a model
    version with a custom name (not the decimal rendering of its number)
    that shares its number, and not its name, with earlier rows of its model
    keeps its name and gets the number [m + 1], with [m] the largest number
    among the rows read for its model and the rows before it as pass 2 left
    them, by one update that assigns the number alone; and no later row of
    the model ends up with [m + 1], which has joined the numbers seen. *)
Theorem number_collision_keeps_name (c c' : conn)
    (pre post : list version_row) (r q : version_row) :
  NoDup (mv_id <$> t_model_version (db c)) →
  t_model_version (db c) = pre ++ r :: post →
  resolve_duplicate_entities c = Ok c' →
  ¬ numeric_form r →
  q ∈ pre →
  mv_model_id q = mv_model_id r →
  mv_number q = mv_number r →
  (∀ p, p ∈ pre → mv_model_id p = mv_model_id r → mv_name p ≠ mv_name r) →
  ∃ m pre' post' tr1 tr2,
    t_model_version (db c')
    = pre' ++ VersionRow (mv_id r) (mv_name r) (m + 1) (mv_model_id r) :: post' ∧
    length pre' = length pre ∧
    max_number_of (mv_model_id r) (t_model_version (db c) ++ pre') m ∧
    (∀ p, p ∈ post' → mv_model_id p = mv_model_id r → mv_number p ≠ m + 1) ∧
    trace c' = trace c ++ tr1
      ++ [Update "model_version" (mv_id r) (Values None (Some (m + 1)))]
      ++ tr2.
Proof.
  intros Hids Hsplit Hres Hcustom Hq Hmodel Hnumber Hnames.
  destruct (stage (detect pre) r) as [s|] eqn:Hstage.
  2: { by destruct (proj1 (stage_None pre r) Hstage q Hq Hmodel). }
  destruct (staged_row_fate c c' pre post r s Hids Hsplit Hres Hstage)
    as (m & pre' & post' & tr1 & tr2 & Htable & Hlen & Hmax & Hfresh & Htrace).
  destruct (stage_Some _ _ _ Hstage) as (Hid & Hn & Hnum & _ & Hnn & Hnb & _).
  assert (needs_new_name s = false) as Hname.
  { rewrite Hnn. apply bool_decide_eq_false. unfold detect.
    rewrite foldl_detect_row_names_spec. cbn [existing_names].
    rewrite get_set_empty. intros [?%elem_of_empty|(p & Hp & Heq & Hk)]; [done|].
    by apply (Hnames p Hp Hk). }
  assert (needs_new_number s = true) as Hnew.
  { rewrite Hnb. apply bool_decide_eq_true. unfold detect.
    rewrite foldl_detect_row_numbers_spec. right. eauto. }
  unfold numeric_form in Hcustom.
  unfold fix_events, fix_values in *.
  rewrite Hn, Hnum, Hid, Hname, Hnew, bool_decide_eq_false_2 in * by done.
  unfold assign_where in *. rewrite decide_True in * by done.
  cbn [default v_name v_number app] in *.
  exists m, pre', post', tr1, tr2. split; [done|]. split; [done|].
  split; [done|]. split; [|done].
  intros p Hp Hk Hm. apply (Hfresh p Hp). unfold version_number_key. cbn.
  by rewrite Hk, Hm.
Qed.

Lemma number_collision_keeps_name_witness :
  ∃ m pre' post' tr1 tr2,
    t_model_version (db renumbered_custom_versions)
    = pre' ++ VersionRow "v4" "delta" (m + 1) "m1" :: post' ∧
    length pre' = 3%nat ∧
    max_number_of "m1" (duplicate_custom_versions ++ pre') m ∧
    (∀ p, p ∈ post' → mv_model_id p = "m1" → mv_number p ≠ m + 1) ∧
    trace renumbered_custom_versions = [] ++ tr1
      ++ [Update "model_version" "v4" (Values None (Some (m + 1)))]
      ++ tr2.
Proof.
  apply (number_collision_keeps_name
           (Conn (Database [] [] [] duplicate_custom_versions []) [])
           renumbered_custom_versions
           [VersionRow "v1" "alpha" 1 "m1"; VersionRow "v2" "beta" 5 "m1";
            VersionRow "v3" "gamma" 1 "m1"]
           [VersionRow "v5" "delta" 5 "m2"]
           (VersionRow "v4" "delta" 5 "m1")
           (VersionRow "v2" "beta" 5 "m1")).
  - apply (bool_decide_unpack _). vm_compute. exact I.
  - reflexivity.
  - vm_compute. reflexivity.
  - vm_compute. discriminate.
  - right. left.
  - reflexivity.
  - reflexivity.
  - intros p Hp _.
    repeat (apply elem_of_cons in Hp as [->|Hp]; [by vm_compute|]).
    by apply elem_of_nil in Hp.
Defined.

(** ** Models do not interfere *)

Lemma stage_agree d d' r :
  get_set (existing_names d) (mv_model_id r)
  = get_set (existing_names d') (mv_model_id r) →
  get_set (existing_numbers d) (mv_model_id r)
  = get_set (existing_numbers d') (mv_model_id r) →
  stage d r = stage d' r.
Proof. intros Hn Hs. unfold stage. by rewrite Hn, Hs. Qed.

Lemma resolved_version_agree d d' numbers numbers' r :
  get_set (existing_names d) (mv_model_id r)
  = get_set (existing_names d') (mv_model_id r) →
  get_set (existing_numbers d) (mv_model_id r)
  = get_set (existing_numbers d') (mv_model_id r) →
  get_set numbers (mv_model_id r) = get_set numbers' (mv_model_id r) →
  (resolved_version d numbers r).1 = (resolved_version d' numbers' r).1 ∧
  get_set (resolved_version d numbers r).2 (mv_model_id r)
  = get_set (resolved_version d' numbers' r).2 (mv_model_id r).
Proof.
  intros Hn Hs Hnum. unfold resolved_version.
  rewrite (stage_agree d d' r Hn Hs), Hnum.
  destruct (stage d' r) as [s|]; [|done].
  destruct (set_max _) as [m|]; [|done]. cbn [fst snd]. split; [done|].
  unfold fix_numbers. destruct (_ || _); [|done].
  by rewrite !get_set_add_to, Hnum.
Qed.

Lemma resolved_version_numbers_other d numbers r k :
  mv_model_id r ≠ k →
  get_set (resolved_version d numbers r).2 k = get_set numbers k.
Proof.
  intros Hk. unfold resolved_version. destruct (stage d r) as [s|] eqn:Hs; [|done].
  destruct (set_max _) as [m|]; [|done]. cbn [snd]. unfold fix_numbers.
  destruct (_ || _); [|done].
  destruct (stage_Some _ _ _ Hs) as (_ & _ & _ & Hm & _).
  rewrite get_set_add_to, decide_False; [done|congruence].
Qed.

Lemma resolved_versions_of_model k (rows : list version_row) d d' numbers numbers' :
  get_set (existing_names d) k = get_set (existing_names d') k →
  get_set (existing_numbers d) k = get_set (existing_numbers d') k →
  get_set numbers k = get_set numbers' k →
  rows_of_model k (resolved_versions d numbers rows)
  = resolved_versions d' numbers' (rows_of_model k rows).
Proof.
  unfold rows_of_model. revert d d' numbers numbers'.
  induction rows as [|r rows IH]; intros d d' numbers numbers' Hn Hs Hnum; [done|].
  cbn [resolved_versions]. rewrite !filter_cons, resolved_version_model_id.
  destruct (decide (mv_model_id r = k)) as [Hk|Hk].
  - subst k.
    destruct (resolved_version_agree d d' numbers numbers' r Hn Hs Hnum)
      as [Hrow Hnum'].
    cbn [resolved_versions]. rewrite Hrow. f_equal.
    apply IH; [| |done]; unfold detect_row; cbn [existing_names existing_numbers];
      rewrite !get_set_add_to, ?Hn, ?Hs; done.
  - apply IH.
    + unfold detect_row; cbn [existing_names]. by rewrite get_set_add_to, decide_False.
    + unfold detect_row; cbn [existing_numbers].
      by rewrite get_set_add_to, decide_False.
    + by rewrite resolved_version_numbers_other.
Qed.

Lemma detect_rows_of_model k (rows : list version_row) :
  get_set (existing_numbers (detect rows)) k
  = get_set (existing_numbers (detect (rows_of_model k rows))) k.
Proof.
  apply set_eq. intros x. unfold detect.
  rewrite !foldl_detect_row_numbers_spec. cbn [existing_numbers].
  rewrite get_set_empty. unfold rows_of_model. split.
  - intros [Hx|(q & Hq & Hn & Hm)]; [by apply not_elem_of_empty in Hx|].
    right. exists q. split; [by apply list_elem_of_filter|done].
  - intros [Hx|(q & Hq & Hn & Hm)]; [by apply not_elem_of_empty in Hx|].
    right. exists q. apply list_elem_of_filter in Hq as [_ Hq]. done.
Qed.

(** X11: with ids that identify rows, what the resolution makes of the
    versions of one model does not depend on the versions of the other
    models: resolving the whole table and keeping the versions of the model
    gives the rows that resolving the versions of the model alone gives. *)
Theorem models_are_resolved_independently (c c' : conn) (k : string) :
  NoDup (mv_id <$> t_model_version (db c)) →
  resolve_duplicate_entities c = Ok c' →
  ∃ c'',
    resolve_duplicate_entities (only_model k c) = Ok c'' ∧
    rows_of_model k (t_model_version (db c')) = t_model_version (db c'').
Proof.
  intros Hids Hres.
  destruct (resolve_duplicate_entities_is_Ok (only_model k c)) as [c'' Hres''].
  exists c''. split; [done|].
  rewrite (resolve_duplicate_entities_versions c c' Hids Hres).
  rewrite (resolve_duplicate_entities_versions (only_model k c) c''); [|
|done].
  - cbn [only_model db set_versions t_model_version].
    apply resolved_versions_of_model; [done|done|].
    apply detect_rows_of_model.
  - cbn [only_model db set_versions t_model_version].
    eapply sublist_NoDup; [exact Hids|].
    apply fmap_sublist, sublist_filter.
Qed.

Lemma models_are_resolved_independently_witness :
  ∃ c'',
    resolve_duplicate_entities
      (only_model "m1"
         (Conn (Database [] [] []
                  [VersionRow "v1" "1" 1 "m1"; VersionRow "v2" "1" 1 "m2";
                   VersionRow "v3" "1" 1 "m1"; VersionRow "v4" "1" 1 "m2"] []) []))
    = Ok c'' ∧
    rows_of_model "m1"
      (t_model_version
         (db (Conn (Database [] [] []
                      [VersionRow "v1" "1" 1 "m1"; VersionRow "v2" "1" 1 "m2";
                       VersionRow "v3" "2" 2 "m1"; VersionRow "v4" "2" 2 "m2"] [])
                   [Warning version_fmt ["1"; "2"];
                    Update "model_version" "v3" (Values (Some "2") (Some 2));
                    Warning version_fmt ["1"; "2"];
                    Update "model_version" "v4" (Values (Some "2") (Some 2))])))
    = t_model_version (db c'').
Proof.
  apply (models_are_resolved_independently
           (Conn (Database [] [] []
                    [VersionRow "v1" "1" 1 "m1"; VersionRow "v2" "1" 1 "m2";
                     VersionRow "v3" "1" 1 "m1"; VersionRow "v4" "1" 1 "m2"] []) [])).
  - apply (bool_decide_unpack _). vm_compute. exact I.
  - vm_compute. reflexivity.
Defined.

(** ** Each row is updated at most once *)

Lemma updates_on_app table tr1 tr2 :
  updates_on table (tr1 ++ tr2) = updates_on table tr1 ++ updates_on table tr2.
Proof. apply omap_app. Qed.

Lemma updates_on_warning table fmt args tr :
  updates_on table (Warning fmt args :: tr) = updates_on table tr.
Proof. done. Qed.

Lemma updates_on_update table t i vals tr :
  updates_on table (Update t i vals :: tr)
  = (if decide (t = table) then [i] else []) ++ updates_on table tr.
Proof. unfold updates_on; cbn. by destruct (decide _). Qed.

(** The updates of the loop over a simple table go to that table, to rows
    it read, in read order, each row at most once. *)
Lemma foldl_dedupe_row_updates t (rows : list row) existing c :
  ∃ tr,
    trace (foldl (dedupe_row t) (existing, c) rows).2 = trace c ++ tr ∧
    updates_on (table_name t) tr `sublist_of` (r_id <$> rows) ∧
    ∀ table, table ≠ table_name t → updates_on table tr = [].
Proof.
  revert existing c. induction rows as [|r rows IH]; intros existing c.
  - exists []. cbn. by rewrite app_nil_r.
  - cbn [foldl]. unfold dedupe_row at 2.
    destruct (decide (r_name r ∈ _)) as [Hseen|Hnew].
    + destruct (IH (add_to existing (r_workspace_id r) (suffixed (r_name r) (r_id r)))
                  (execute_update t (r_id r) (suffixed (r_name r) (r_id r))
                     (log_warning simple_fmt
                        [table_name t; r_name r; suffixed (r_name r) (r_id r)] c)))
        as (tr & Htr & Hsub & Hother).
      eexists (_ :: _ :: tr). split; [|split].
      * rewrite Htr. unfold execute_update, log_warning, emit; cbn [trace db].
        by rewrite <- !app_assoc.
      * rewrite updates_on_warning, updates_on_update, decide_True by done.
        rewrite fmap_cons. by apply sublist_skip.
      * intros table Htable.
        rewrite updates_on_warning, updates_on_update, decide_False by done.
        by apply Hother.
    + destruct (IH (add_to existing (r_workspace_id r) (r_name r)) c)
        as (tr & Htr & Hsub & Hother).
      exists tr. split; [done|]. split; [|done].
      rewrite fmap_cons. by apply sublist_cons.
Qed.

Lemma resolve_simple_table_updates c t :
  ∃ tr,
    trace (resolve_simple_table c t) = trace c ++ tr ∧
    updates_on (table_name t) tr `sublist_of` (r_id <$> select t (db c)) ∧
    ∀ table, table ≠ table_name t → updates_on table tr = [].
Proof. apply foldl_dedupe_row_updates. Qed.

Lemma fix_row_updates numbers c s numbers' c' :
  fix_row (numbers, c) s = Ok (numbers', c') →
  ∃ tr,
    trace c' = trace c ++ tr ∧
    updates_on "model_version" tr = [s_id s] ∧
    ∀ table, table ≠ "model_version" → updates_on table tr = [].
Proof.
  unfold fix_row. destruct (set_max _) as [m|]; [|done].
  destruct (bool_decide _); [|destruct (needs_new_name s), (needs_new_number s)];
    intros [= _ <-];
    unfold execute_version_update, log_warning, emit; cbn [trace db];
    rewrite <- ?app_assoc; (eexists; split; [reflexivity|]);
    (split; [done|]); intros table Htable; cbn; by rewrite decide_False.
Qed.

Lemma fix_rows_updates (l : list staged) numbers c numbers' c' :
  fix_rows (numbers, c) l = Ok (numbers', c') →
  ∃ tr,
    trace c' = trace c ++ tr ∧
    updates_on "model_version" tr = s_id <$> l ∧
    ∀ table, table ≠ "model_version" → updates_on table tr = [].
Proof.
  revert numbers c. induction l as [|s l IH]; intros numbers c; cbn [fix_rows].
  - intros [= _ <-]. exists []. cbn. by rewrite app_nil_r.
  - destruct (fix_row (numbers, c) s) as [[numbers1 c1]|] eqn:Hfix; [|done].
    intros Hrest.
    destruct (fix_row_updates _ _ _ _ _ Hfix) as (tr1 & T1 & U1 & O1).
    destruct (IH _ _ Hrest) as (tr2 & T2 & U2 & O2).
    exists (tr1 ++ tr2). split; [by rewrite T2, T1, <- app_assoc|].
    split.
    + by rewrite updates_on_app, U1, U2.
    + intros table Htable. by rewrite updates_on_app, O1, O2.
Qed.

Lemma stage_rows_ids (rows : list version_row) d :
  s_id <$> stage_rows d rows `sublist_of` mv_id <$> rows.
Proof.
  revert d. induction rows as [|r rows IH]; intros d; [done|].
  cbn [stage_rows]. rewrite fmap_app, fmap_cons.
  destruct (stage d r) as [s|] eqn:Hs; cbn.
  - destruct (stage_Some _ _ _ Hs) as (<- & _). by apply sublist_skip.
  - by apply sublist_cons.
Qed.

Lemma resolve_model_versions_updates c c' :
  resolve_model_versions c = Ok c' →
  ∃ tr,
    trace c' = trace c ++ tr ∧
    updates_on "model_version" tr `sublist_of` (mv_id <$> t_model_version (db c)) ∧
    ∀ table, table ≠ "model_version" → updates_on table tr = [].
Proof.
  unfold resolve_model_versions.
  destruct (fix_rows _ _) as [[numbers1 c1]|] eqn:Hfix; [|done].
  intros [= <-]. cbn [snd].
  destruct (fix_rows_updates _ _ _ _ _ Hfix) as (tr & Htr & Hu & Hother).
  exists tr. split; [done|]. split; [|done].
  rewrite Hu. unfold detect. rewrite foldl_detect_row_stage_rows.
  cbn [needs_update app]. apply stage_rows_ids.
Qed.

(** X12: the resolution always returns, and the updates it issues go to rows
    it read, in the order it read them, no row being updated twice: for every
    table, the ids updated, in order, form a sublist of the ids of the table
    (so they are pairwise distinct when the ids of the table are). *)
Theorem rows_are_updated_at_most_once (c : conn) :
  ∃ c' tr,
    resolve_duplicate_entities c = Ok c' ∧
    trace c' = trace c ++ tr ∧
    (∀ t, updates_on (table_name t) tr `sublist_of` (r_id <$> select t (db c))) ∧
    updates_on "model_version" tr
      `sublist_of` (mv_id <$> t_model_version (db c)) ∧
    (∀ t, NoDup (r_id <$> select t (db c)) →
          NoDup (updates_on (table_name t) tr)) ∧
    (NoDup (mv_id <$> t_model_version (db c)) →
     NoDup (updates_on "model_version" tr)).
Proof.
  destruct (resolve_duplicate_entities_is_Ok c) as [c' Hres]. exists c'.
  unfold resolve_duplicate_entities in Hres. cbn [foldl] in Hres.
  set (c1 := resolve_simple_table c PipelineRun) in *.
  set (c2 := resolve_simple_table c1 Pipeline) in *.
  set (c3 := resolve_simple_table c2 Model) in *.
  assert (simple_frame (db c) PipelineRun c c1) as [_ V1 O1 _]
    by by apply resolve_simple_table_frame.
  assert (simple_frame (db c) Pipeline c1 c2) as [_ V2 O2 _]
    by (apply resolve_simple_table_frame; by apply O1).
  assert (simple_frame (db c) Model c2 c3) as [_ V3 _ _]
    by (apply resolve_simple_table_frame; rewrite O2, O1; done).
  destruct (resolve_simple_table_updates c PipelineRun) as (tr1 & T1 & U1 & N1).
  destruct (resolve_simple_table_updates c1 Pipeline) as (tr2 & T2 & U2 & N2).
  destruct (resolve_simple_table_updates c2 Model) as (tr3 & T3 & U3 & N3).
  destruct (resolve_model_versions_updates c3 c' Hres) as (tr4 & T4 & U4 & N4).
  fold c1 in T1. fold c2 in T2. fold c3 in T3.
  rewrite (O1 Pipeline) in U2 by done.
  rewrite (O2 Model), (O1 Model) in U3 by done.
  rewrite V3, V2, V1 in U4.
  exists (tr1 ++ tr2 ++ tr3 ++ tr4).
  assert (∀ t, updates_on (table_name t) (tr1 ++ tr2 ++ tr3 ++ tr4)
               `sublist_of` (r_id <$> select t (db c))) as Hsimple.
  { intros t. rewrite !updates_on_app, (N4 (table_name t)) by by destruct t.
    rewrite app_nil_r. destruct t; cbn [table_name select].
    - rewrite (N2 "pipeline_run"), (N3 "pipeline_run") by done.
      by rewrite !app_nil_r.
    - rewrite (N1 "pipeline"), (N3 "pipeline") by done.
      by rewrite app_nil_r.
    - rewrite (N1 "model"), (N2 "model") by done. done. }
  assert (updates_on "model_version" (tr1 ++ tr2 ++ tr3 ++ tr4)
          `sublist_of` (mv_id <$> t_model_version (db c))) as Hversions.
  { rewrite !updates_on_app, (N1 "model_version"), (N2 "model_version"),
      (N3 "model_version") by done. done. }
  split; [done|]. split; [by rewrite T4, T3, T2, T1, <- !app_assoc|].
  split; [done|]. split; [done|]. split.
  - intros t Hids. eapply sublist_NoDup; [exact Hids|apply Hsimple].
  - intros Hids. eapply sublist_NoDup; [exact Hids|apply Hversions].
Qed.

(** ** Inputs on which renaming cannot collide *)

Lemma string_app_nil (b : string) : "" +:+ b = b.
Proof. reflexivity. Qed.

Lemma string_app_cons x (a b : string) : String x a +:+ b = String x (a +:+ b).
Proof. reflexivity. Qed.

Lemma string_length_app (a b : string) :
  String.length (a +:+ b) = (String.length a + String.length b)%nat.
Proof.
  induction a as [|x a IH]; [done|].
  rewrite string_app_cons. cbn. by rewrite IH.
Qed.

Lemma string_app_inj_suffix (a c b d : string) :
  a +:+ b = c +:+ d → String.length b = String.length d → a = c ∧ b = d.
Proof.
  revert c. induction a as [|x a IH]; intros [|y c];
    rewrite ?string_app_nil, ?string_app_cons; intros Heq Hlen.
  - done.
  - subst b. cbn in Hlen. rewrite string_length_app in Hlen. lia.
  - subst d. cbn in Hlen. rewrite string_length_app in Hlen. lia.
  - injection Heq as -> Heq. destruct (IH c Heq Hlen) as [-> ->]. done.
Qed.

Lemma substring_0_length (n : nat) (s : string) :
  String.length (String.substring 0 n s) = (n `min` String.length s)%nat.
Proof.
  revert s. induction n as [|n IH]; intros [|x s]; cbn; [done..|].
  by rewrite IH.
Qed.

(** [id_[:6]] has six characters when the id has at least six. *)
Lemma first6_length (id_ : string) :
  (6 ≤ String.length id_)%nat → String.length (first6 id_) = 6%nat.
Proof. intros Hlen. unfold first6. rewrite substring_0_length. lia. Qed.

Lemma suffixed_inj n1 i1 n2 i2 :
  (6 ≤ String.length i1)%nat → (6 ≤ String.length i2)%nat →
  suffixed n1 i1 = suffixed n2 i2 → n1 = n2 ∧ first6 i1 = first6 i2.
Proof.
  intros H1 H2 Heq. unfold suffixed in Heq.
  apply string_app_inj_suffix in Heq as [-> Heq].
  - split; [done|]. rewrite !string_app_cons, !string_app_nil in Heq.
    by injection Heq.
  - by rewrite !string_length_app, !first6_length.
Qed.

Lemma collision_free_distinct_prefixes (all rest : list row) existing :
  (∀ r, r ∈ rest → r ∈ all) →
  NoDup ((λ r, first6 (r_id r)) <$> rest) →
  (∀ r, r ∈ all → (6 ≤ String.length (r_id r))%nat) →
  (∀ r q, r ∈ all → q ∈ all → r_name q ≠ suffixed (r_name r) (r_id r)) →
  seen_from all rest existing →
  collision_free existing rest.
Proof.
  intros Hall Hnd Hlen Hnames. revert existing Hall Hnd.
  induction rest as [|r rest IH]; intros existing Hall Hnd Hseen; [done|].
  rewrite fmap_cons in Hnd. apply NoDup_cons in Hnd as [Hr Hnd].
  assert (r ∈ all) as Hr_all by (apply Hall; left).
  cbn [collision_free]. split.
  - unfold resolved_row. destruct (decide _) as [Hin|Hnew]; [|done].
    cbn. intros Hcollide.
    destruct (Hseen _ _ Hcollide) as [(q & Hq & Hname)|(q & Hq & Heq & Hfresh)].
    + by apply (Hnames r q).
    + apply suffixed_inj in Heq as [_ Heq]; [|by apply Hlen..].
      apply Hfresh. rewrite fmap_cons, <- Heq. left.
  - apply IH; [intros q Hq; apply Hall; by right|done|].
    intros w x. unfold see. rewrite get_set_add_to.
    destruct (decide _) as [Hw|Hw].
    + intros [->%elem_of_singleton|Hx]%elem_of_union.
      * unfold resolved_row. destruct (decide _); cbn; [right|left]; eauto.
      * destruct (Hseen _ _ Hx) as [?|(q & Hq & Heq & Hfresh)]; [by left|].
        right. exists q. split; [done|]. split; [done|].
        intros Hin. apply Hfresh. rewrite fmap_cons. by right.
    + intros Hx.
      destruct (Hseen _ _ Hx) as [?|(q & Hq & Heq & Hfresh)]; [by left|].
      right. exists q. split; [done|]. split; [done|].
      intros Hin. apply Hfresh. rewrite fmap_cons. by right.
Qed.

(** X13: a simple table is resolved to pairwise distinct
    [(name, workspace_id)] pairs whenever its ids have at least six
    characters and start with pairwise distinct six characters, and no row is
    named like the name line 47 synthesizes for a row of the table. *)
Theorem distinct_id_prefixes_give_unique_names (c : conn) (t : simple_table) :
  NoDup ((λ r, first6 (r_id r)) <$> select t (db c)) →
  (∀ r, r ∈ select t (db c) → (6 ≤ String.length (r_id r))%nat) →
  (∀ r q, r ∈ select t (db c) → q ∈ select t (db c) →
          r_name q ≠ suffixed (r_name r) (r_id r)) →
  NoDup (key <$> select t (db (resolve_simple_table c t))).
Proof.
  intros Hnd Hlen Hnames.
  assert (NoDup (r_id <$> select t (db c))) as Hids.
  { apply (NoDup_fmap_1 first6). by rewrite <- list_fmap_compose. }
  rewrite resolve_simple_table_rows by done.
  apply collision_free_spec.
  apply (collision_free_distinct_prefixes (select t (db c))); done.
Qed.

Lemma distinct_id_prefixes_give_unique_names_witness :
  NoDup (key <$> select Pipeline
           (db (resolve_simple_table
                  (Conn (Database []
                           [Row "1f0c86aa5d2e4c07" "etl" "ws1";
                            Row "c4d5e6f7a8b94c0d" "etl" "ws1";
                            Row "9f8e7d6c5b4a4321" "etl" "ws1"] [] [] []) [])
                  Pipeline))).
Proof.
  apply (distinct_id_prefixes_give_unique_names
           (Conn (Database []
                    [Row "1f0c86aa5d2e4c07" "etl" "ws1";
                     Row "c4d5e6f7a8b94c0d" "etl" "ws1";
                     Row "9f8e7d6c5b4a4321" "etl" "ws1"] [] [] []) [])
           Pipeline).
  - apply (bool_decide_unpack _). vm_compute. exact I.
  - intros r Hr. cbn in Hr.
    repeat (apply elem_of_cons in Hr as [->|Hr]; [cbn; lia|]).
    by apply elem_of_nil in Hr.
  - intros r q Hr Hq. cbn in Hr, Hq.
    repeat (apply elem_of_cons in Hr as [->|Hr];
            [repeat (apply elem_of_cons in Hq as [->|Hq]; [by vm_compute|]);
             by apply elem_of_nil in Hq|]).
    by apply elem_of_nil in Hr.
Defined.

(** *** Names of model versions *)

Lemma no_underscore_pretty_N_go (x : N) (s : string) :
  no_underscore s → no_underscore (pretty_N_go x s).
Proof.
  revert s. induction (N.lt_wf_0 x) as [x _ IH]; intros s Hs.
  destruct (decide (x = 0)%N) as [->|Hx]; [by rewrite pretty_N_go_0|].
  rewrite pretty_N_go_step by lia. apply IH; [apply N.div_lt; lia|].
  split; [|done]. unfold pretty_N_char.
  by repeat (discriminate || case_match).
Qed.

(** The decimal rendering of an integer has no [_]. *)
Lemma no_underscore_str (z : Z) : no_underscore (str z).
Proof.
  unfold str, pretty, pretty_Z. destruct z as [|p|p].
  - by cbn.
  - unfold pretty, pretty_positive, pretty, pretty_N.
    destruct (decide _); [by cbn|]. by apply no_underscore_pretty_N_go.
  - rewrite string_app_cons, string_app_nil. split; [done|].
    unfold pretty, pretty_positive, pretty, pretty_N.
    destruct (decide _); [by cbn|]. by apply no_underscore_pretty_N_go.
Qed.

Lemma no_underscore_app_underscore (a b : string) :
  ¬ no_underscore (a +:+ "_" +:+ b).
Proof.
  induction a as [|x a IH]; rewrite ?string_app_nil, ?string_app_cons.
  - rewrite string_app_nil. by intros [? _].
  - by intros [_ ?].
Qed.

Lemma str_neq_suffixed (z : Z) name id_ : str z ≠ suffixed name id_.
Proof.
  intros Heq. apply (no_underscore_app_underscore name (first6 id_)).
  unfold suffixed in Heq. rewrite <- Heq. apply no_underscore_str.
Qed.

Lemma detect_row_names_mono d r k :
  get_set (existing_names d) k ⊆ get_set (existing_names (detect_row d r)) k.
Proof. apply get_set_add_to_mono. Qed.

(** The name the two passes leave a row with: its own, which pass 1 had then
    not seen for the model; or [name_id[:6]]; or the decimal rendering of the
    number after the maximum seen, which then joins the numbers seen. *)
Lemma resolved_version_name d numbers r :
  mv_number r ∈ get_set numbers (mv_model_id r) →
  (mv_name (resolved_version d numbers r).1 = mv_name r ∧
   mv_name r ∉ get_set (existing_names d) (mv_model_id r)) ∨
  mv_name (resolved_version d numbers r).1 = suffixed (mv_name r) (mv_id r) ∨
  (∃ m, set_max (get_set numbers (mv_model_id r)) = Some m ∧
        mv_name (resolved_version d numbers r).1 = str (m + 1) ∧
        (resolved_version d numbers r).2
        = add_to numbers (mv_model_id r) (m + 1)).
Proof.
  intros Hseen. unfold resolved_version.
  destruct (stage d r) as [s|] eqn:Hstage.
  - destruct (stage_Some d r s Hstage) as (Hid & Hn & Hnum & Hm & Hnn & _).
    destruct (set_max_is_Some _ _ Hseen) as [m Hmax]. rewrite Hmax. cbn [fst snd].
    unfold assign_where, fix_values, fix_numbers.
    rewrite decide_True, Hn, Hnum, Hid, Hm by done.
    destruct (bool_decide (str _ = _)); cbn.
    + right. right. by exists m.
    + destruct (needs_new_name s); cbn; [by auto|].
      left. split; [done|]. symmetry in Hnn.
      by apply bool_decide_eq_false in Hnn.
  - left. split; [done|]. unfold stage in Hstage.
    destruct (bool_decide (mv_name r ∈ _)) eqn:Hname; [done|].
    by apply bool_decide_eq_false in Hname.
Qed.

Lemma resolved_versions_names d numbers (rest : list version_row) q' :
  (∀ q, q ∈ rest → mv_number q ∈ get_set numbers (mv_model_id q)) →
  q' ∈ resolved_versions d numbers rest →
  ∃ q, q ∈ rest ∧ mv_model_id q' = mv_model_id q ∧
    ((mv_name q' = mv_name q ∧
      mv_name q ∉ get_set (existing_names d) (mv_model_id q)) ∨
     mv_name q' = suffixed (mv_name q) (mv_id q) ∨
     (∃ z, mv_name q' = str z ∧
           ∀ y, y ∈ get_set numbers (mv_model_id q) → y < z)).
Proof.
  revert d numbers. induction rest as [|r rest IH]; intros d numbers Hseen;
    cbn [resolved_versions]; [by intros ?%elem_of_nil|].
  intros [->|Hq']%elem_of_cons.
  - exists r. split; [left|]. split; [apply resolved_version_model_id|].
    destruct (resolved_version_name d numbers r (Hseen r ltac:(left)))
      as [?|[?|(m & Hmax & Hname & _)]]; [by left|by right; left|].
    right. right. exists (m + 1). split; [done|].
    intros y Hy. apply set_max_Some in Hmax as [_ Hle]. specialize (Hle y Hy). lia.
  - destruct (IH (detect_row d r) (resolved_version d numbers r).2) as
      (q & Hq & Hm & Hcases); [|done|].
    { intros q Hq. apply resolved_version_numbers_mono, Hseen. by right. }
    exists q. split; [by right|]. split; [done|].
    destruct Hcases as [[Hname Hnew]|[?|(z & Hname & Hz)]];
      [left|by right; left|right; right].
    + split; [done|]. intros Hin. apply Hnew. by apply detect_row_names_mono.
    + exists z. split; [done|]. intros y Hy.
      apply Hz. by apply resolved_version_numbers_mono.
Qed.

Lemma resolved_versions_names_unique (all rest : list version_row) d numbers :
  (∀ r, r ∈ rest → r ∈ all) →
  NoDup ((λ r, first6 (mv_id r)) <$> rest) →
  (∀ r, r ∈ all → (6 ≤ String.length (mv_id r))%nat) →
  (∀ r q, r ∈ all → q ∈ all → mv_name q ≠ suffixed (mv_name r) (mv_id r)) →
  (∀ r z, r ∈ all → mv_name r = str z →
          ∃ q, q ∈ all ∧ mv_model_id q = mv_model_id r ∧ z ≤ mv_number q) →
  (∀ q, q ∈ all → mv_number q ∈ get_set numbers (mv_model_id q)) →
  NoDup (version_name_key <$> resolved_versions d numbers rest).
Proof.
  intros Hall Hnd Hlen Hnames Hdecimal. revert d numbers Hall Hnd.
  induction rest as [|r rest IH]; intros d numbers Hall Hnd Hseen;
    cbn [resolved_versions]; [constructor|].
  rewrite fmap_cons in Hnd. apply NoDup_cons in Hnd as [Hr Hnd].
  assert (r ∈ all) as Hr_all by (apply Hall; left).
  assert (∀ q, q ∈ all →
            mv_number q ∈ get_set (resolved_version d numbers r).2 (mv_model_id q))
    as Hseen' by (intros q Hq; by apply resolved_version_numbers_mono, Hseen).
  rewrite fmap_cons. apply NoDup_cons. split.
  2:{ apply IH; [intros q Hq; apply Hall; by right|done|done]. }
  intros (q' & Hkey & Hq')%list_elem_of_fmap.
  injection Hkey as Hname Hmodel.
  rewrite resolved_version_model_id in Hmodel.
  destruct (resolved_versions_names _ _ _ _
              (λ q Hq, Hseen' q (Hall q ltac:(by right))) Hq')
    as (q & Hq & Hmq & Hcases).
  assert (q ∈ all) as Hq_all by (apply Hall; by right).
  assert (mv_model_id q = mv_model_id r) as Hqr by congruence.
  destruct (resolved_version_name d numbers r (Hseen r Hr_all))
    as [[Hr_name _]|[Hr_name|(m & Hmax & Hr_name & Hnumbers)]];
    rewrite Hr_name in Hname;
    destruct Hcases as [[Hq_name Hq_new]|[Hq_name|(z & Hq_name & Hz)]];
    rewrite Hq_name in Hname.
  - apply Hq_new. rewrite <- Hname, Hqr. unfold detect_row; cbn [existing_names].
    rewrite get_set_add_to, decide_True by done.
    apply elem_of_union_l. by apply elem_of_singleton.
  - by apply (Hnames q r).
  - destruct (Hdecimal r z Hr_all Hname) as (q0 & Hq0 & Hm0 & Hle).
    specialize (Hseen' q0 Hq0). rewrite Hm0, <- Hqr in Hseen'.
    specialize (Hz _ Hseen'). lia.
  - by apply (Hnames r q).
  - apply suffixed_inj in Hname as [_ Hname]; [|by apply Hlen..].
    apply Hr. rewrite Hname. apply (list_elem_of_fmap_2 (λ r, first6 (mv_id r))), Hq.
  - symmetry in Hname. by apply str_neq_suffixed in Hname.
  - destruct (Hdecimal q (m + 1) Hq_all (eq_sym Hname)) as (q0 & Hq0 & Hm0 & Hle).
    apply set_max_Some in Hmax as [_ Hmax].
    specialize (Hseen q0 Hq0). rewrite Hm0, Hqr in Hseen.
    specialize (Hmax _ Hseen). lia.
  - by apply str_neq_suffixed in Hname.
  - apply (inj str) in Hname. subst z.
    assert (m + 1 < m + 1); [|lia]. apply Hz.
    rewrite Hnumbers, get_set_add_to, Hqr, decide_True by done.
    apply elem_of_union_l. by apply elem_of_singleton.
Qed.

(** X14: the resolution leaves pairwise distinct [(name, model_id)] pairs on
    a [model_version] table whose ids have at least six characters and start
    with pairwise distinct six characters, where no version is named like
    the name line 119 synthesizes for a version, and where a name that is the
    decimal rendering of an integer does not exceed every number of its
    model. *)
Theorem safe_versions_give_unique_names (c c' : conn) :
  safe_versions (t_model_version (db c)) →
  resolve_duplicate_entities c = Ok c' →
  NoDup (version_name_key <$> t_model_version (db c')).
Proof.
  intros (Hnd & Hlen & Hnames & Hdecimal) Hres.
  assert (NoDup (mv_id <$> t_model_version (db c))) as Hids.
  { apply (NoDup_fmap_1 first6). by rewrite <- list_fmap_compose. }
  rewrite (resolve_duplicate_entities_versions c c' Hids Hres).
  apply (resolved_versions_names_unique (t_model_version (db c))); try done.
  intros q Hq. by apply foldl_detect_row_numbers.
Qed.

Lemma numeric_form_decimal r z :
  numeric_form r → mv_name r = str z → z = mv_number r.
Proof.
  unfold numeric_form. intros <- Heq. symmetry. by apply (inj str).
Qed.

Lemma safe_versions_give_unique_names_witness :
  NoDup (version_name_key <$>
           t_model_version
             (db (Conn (Database [] [] []
                          [VersionRow "1f0c86aa5d2e" "1" 1 "m1";
                           VersionRow "c4d5e6f7a8b9" "2" 2 "m1";
                           VersionRow "9f8e7d6c5b4a" "my_model" 3 "m1"] [])
                       [Warning version_fmt ["1"; "2"];
                        Update "model_version" "c4d5e6f7a8b9"
                               (Values (Some "2") (Some 2));
                        Update "model_version" "9f8e7d6c5b4a"
                               (Values None (Some 3))]))).
Proof.
  apply (safe_versions_give_unique_names
           (Conn (Database [] [] []
                    [VersionRow "1f0c86aa5d2e" "1" 1 "m1";
                     VersionRow "c4d5e6f7a8b9" "1" 1 "m1";
                     VersionRow "9f8e7d6c5b4a" "my_model" 1 "m1"] []) [])).
  - split; [|split; [|split]].
    + apply (bool_decide_unpack _). vm_compute. exact I.
    + intros r Hr. cbn in Hr.
      repeat (apply elem_of_cons in Hr as [->|Hr]; [cbn; lia|]).
      by apply elem_of_nil in Hr.
    + intros r q Hr Hq. cbn in Hr, Hq.
      repeat (apply elem_of_cons in Hr as [->|Hr];
              [repeat (apply elem_of_cons in Hq as [->|Hq]; [by vm_compute|]);
               by apply elem_of_nil in Hq|]).
      by apply elem_of_nil in Hr.
    + intros r z Hr Hname. cbn in Hr.
      apply elem_of_cons in Hr as [->|Hr].
      { apply numeric_form_decimal in Hname as ->; [|by vm_compute].
        eexists. split; [left|]. by cbn. }
      apply elem_of_cons in Hr as [->|Hr].
      { apply numeric_form_decimal in Hname as ->; [|by vm_compute].
        eexists. split; [left|]. by cbn. }
      apply elem_of_cons in Hr as [->|Hr]; [|by apply elem_of_nil in Hr].
      exfalso. pose proof (no_underscore_str z) as Hz.
      rewrite <- Hname in Hz. cbn in Hz.
      repeat (destruct Hz as [? Hz]; try done).
  - vm_compute. reflexivity.
Defined.

(** ** Inputs on which the whole resolution succeeds *)

Lemma resolve_duplicate_entities_simple_rows c c' t :
  NoDup (r_id <$> select t (db c)) →
  resolve_duplicate_entities c = Ok c' →
  select t (db c') = resolved_rows ∅ (select t (db c)).
Proof.
  intros Hids Hres. unfold resolve_duplicate_entities in Hres. cbn [foldl] in Hres.
  set (c1 := resolve_simple_table c PipelineRun) in *.
  set (c2 := resolve_simple_table c1 Pipeline) in *.
  set (c3 := resolve_simple_table c2 Model) in *.
  assert (simple_frame (db c) PipelineRun c c1) as [_ V1 O1 _]
    by by apply resolve_simple_table_frame.
  assert (simple_frame (db c) Pipeline c1 c2) as [_ V2 O2 _]
    by (apply resolve_simple_table_frame; by apply O1).
  assert (simple_frame (db c) Model c2 c3) as [_ V3 O3 _]
    by (apply resolve_simple_table_frame; rewrite O2, O1; done).
  assert (version_frame (db c) c3 c') as [_ O4 _]
    by (apply resolve_model_versions_frame; [congruence|done]).
  rewrite O4. destruct t.
  - rewrite (O3 PipelineRun), (O2 PipelineRun) by done.
    by apply resolve_simple_table_rows.
  - rewrite (O3 Pipeline) by done. unfold c2.
    rewrite resolve_simple_table_rows by (by rewrite (O1 Pipeline)).
    by rewrite (O1 Pipeline).
  - unfold c3. rewrite resolve_simple_table_rows
      by (by rewrite (O2 Model), (O1 Model)).
    by rewrite (O2 Model), (O1 Model).
Qed.

(** X15: on a state whose four tables are safe in the sense above, the
    resolution returns a state without duplicates, which is what the five
    constraints of [upgrade] need, and running it again on that state changes
    nothing and issues nothing. *)
Theorem safe_state_is_resolved (c : conn) :
  (∀ t, safe_rows (select t (db c))) →
  safe_versions (t_model_version (db c)) →
  ∃ c',
    resolve_duplicate_entities c = Ok c' ∧
    duplicate_free (db c') ∧
    resolve_duplicate_entities c' = Ok c'.
Proof.
  intros Hsimple Hversions.
  destruct (resolve_duplicate_entities_is_Ok c) as [c' Hres]. exists c'.
  assert (duplicate_free (db c')) as Hfree.
  { split; [|split].
    - intros t. destruct (Hsimple t) as (Hnd & Hlen & Hnames).
      assert (NoDup (r_id <$> select t (db c))) as Hids.
      { apply (NoDup_fmap_1 first6). by rewrite <- list_fmap_compose. }
      rewrite (resolve_duplicate_entities_simple_rows c c' t Hids Hres).
      apply collision_free_spec.
      apply (collision_free_distinct_prefixes (select t (db c))); done.
    - destruct Hversions as (Hnd & Hlen & Hnames & Hdecimal).
      assert (NoDup (mv_id <$> t_model_version (db c))) as Hids.
      { apply (NoDup_fmap_1 first6). by rewrite <- list_fmap_compose. }
      rewrite (resolve_duplicate_entities_versions c c' Hids Hres).
      apply (resolved_versions_names_unique (t_model_version (db c))); try done.
      intros q Hq. by apply foldl_detect_row_numbers.
    - destruct Hversions as (Hnd & _).
      assert (NoDup (mv_id <$> t_model_version (db c))) as Hids.
      { apply (NoDup_fmap_1 first6). by rewrite <- list_fmap_compose. }
      unfold resolve_duplicate_entities in Hres.
      eapply resolve_model_versions_numbers; [|exact Hres].
      cbn [foldl]. by rewrite !resolve_simple_table_versions. }
  split; [done|]. split; [done|].
  destruct Hfree as (Hs & Hn & Hm). unfold resolve_duplicate_entities.
  cbn [foldl].
  rewrite (resolve_simple_table_unique c' PipelineRun) by apply Hs.
  rewrite (resolve_simple_table_unique c' Pipeline) by apply Hs.
  rewrite (resolve_simple_table_unique c' Model) by apply Hs.
  by apply resolve_model_versions_unique.
Qed.

Lemma safe_state_is_resolved_witness :
  ∃ c',
    resolve_duplicate_entities
      (Conn (Database
               [Row "a1b2c3d4e5f6" "nightly" "w1";
                Row "0f9e8d7c6b5a" "nightly" "w1"]
               [Row "5e6f7a8b9c0d" "train" "w1";
                Row "77aa88bb99cc" "train" "w1"]
               [Row "d00dfeed1234" "bert" "w1"]
               [VersionRow "1f0c86aa5d2e" "1" 1 "m1";
                VersionRow "c4d5e6f7a8b9" "1" 1 "m1"] []) []) = Ok c' ∧
    duplicate_free (db c') ∧
    resolve_duplicate_entities c' = Ok c'.
Proof.
  apply (safe_state_is_resolved
           (Conn (Database
                    [Row "a1b2c3d4e5f6" "nightly" "w1";
                     Row "0f9e8d7c6b5a" "nightly" "w1"]
                    [Row "5e6f7a8b9c0d" "train" "w1";
                     Row "77aa88bb99cc" "train" "w1"]
                    [Row "d00dfeed1234" "bert" "w1"]
                    [VersionRow "1f0c86aa5d2e" "1" 1 "m1";
                     VersionRow "c4d5e6f7a8b9" "1" 1 "m1"] []) [])).
  - intros t. destruct t; cbn [select db t_pipeline_run t_pipeline t_model].
    all: split; [apply (bool_decide_unpack _); vm_compute; exact I|split].
    all: try (intros r Hr;
              repeat (apply elem_of_cons in Hr as [->|Hr]; [cbn; lia|]);
              by apply elem_of_nil in Hr).
    all: intros r q Hr Hq;
      repeat (apply elem_of_cons in Hr as [->|Hr];
              [repeat (apply elem_of_cons in Hq as [->|Hq]; [by vm_compute|]);
               by apply elem_of_nil in Hq|]);
      by apply elem_of_nil in Hr.
  - split; [|split; [|split]].
    + apply (bool_decide_unpack _). vm_compute. exact I.
    + intros r Hr. cbn in Hr.
      repeat (apply elem_of_cons in Hr as [->|Hr]; [cbn; lia|]).
      by apply elem_of_nil in Hr.
    + intros r q Hr Hq. cbn in Hr, Hq.
      repeat (apply elem_of_cons in Hr as [->|Hr];
              [repeat (apply elem_of_cons in Hq as [->|Hq]; [by vm_compute|]);
               by apply elem_of_nil in Hq|]).
      by apply elem_of_nil in Hr.
    + intros r z Hr Hname. cbn in Hr.
      apply elem_of_cons in Hr as [->|Hr].
      { apply numeric_form_decimal in Hname as ->; [|by vm_compute].
        eexists. split; [left|]. by cbn. }
      apply elem_of_cons in Hr as [->|Hr]; [|by apply elem_of_nil in Hr].
      apply numeric_form_decimal in Hname as ->; [|by vm_compute].
      eexists. split; [left|]. by cbn.
Defined.

(** ** The migration on safe inputs *)

Lemma safe_state_duplicate_free c c' :
  (∀ t, safe_rows (select t (db c))) →
  safe_versions (t_model_version (db c)) →
  resolve_duplicate_entities c = Ok c' →
  duplicate_free (db c').
Proof.
  intros Hsimple Hversions Hres. split; [|split].
  - intros t. destruct (Hsimple t) as (Hnd & Hlen & Hnames).
    assert (NoDup (r_id <$> select t (db c))) as Hids.
    { apply (NoDup_fmap_1 first6). by rewrite <- list_fmap_compose. }
    rewrite (resolve_duplicate_entities_simple_rows c c' t Hids Hres).
    apply collision_free_spec.
    apply (collision_free_distinct_prefixes (select t (db c))); done.
  - destruct Hversions as (Hnd & Hlen & Hnames & Hdecimal).
    assert (NoDup (mv_id <$> t_model_version (db c))) as Hids.
    { apply (NoDup_fmap_1 first6). by rewrite <- list_fmap_compose. }
    rewrite (resolve_duplicate_entities_versions c c' Hids Hres).
    apply (resolved_versions_names_unique (t_model_version (db c))); try done.
    intros q Hq. by apply foldl_detect_row_numbers.
  - destruct Hversions as (Hnd & _).
    assert (NoDup (mv_id <$> t_model_version (db c))) as Hids.
    { apply (NoDup_fmap_1 first6). by rewrite <- list_fmap_compose. }
    unfold resolve_duplicate_entities in Hres.
    eapply resolve_model_versions_numbers; [|exact Hres].
    cbn [foldl]. by rewrite !resolve_simple_table_versions.
Qed.

Lemma duplicate_free_same_rows c c' :
  same_rows c c' → duplicate_free (db c) → duplicate_free (db c').
Proof.
  intros (H1 & H2 & H3 & H4) (Hs & Hn & Hm).
  split; [|by rewrite H4].
  intros t. specialize (Hs t). destruct t; cbn [select] in *; congruence.
Qed.

(** X17: on a state whose four tables are safe, [upgrade] returns: none of
    the five constraints is refused, the rows are those the resolution left,
    free of duplicates, and the schema holds the five constraints. *)
Theorem upgrade_succeeds_on_safe_state (c : conn) :
  (∀ t, safe_rows (select t (db c))) →
  safe_versions (t_model_version (db c)) →
  ∃ c1 c2,
    resolve_duplicate_entities c = Ok c1 ∧
    upgrade c = Ok c2 ∧
    same_rows c1 c2 ∧
    duplicate_free (db c2) ∧
    ∀ k, k ∈ upgrade_constraints → k ∈ constraints (db c2).
Proof.
  intros Hsimple Hversions.
  destruct (resolve_duplicate_entities_is_Ok c) as [c1 Hres].
  pose proof (safe_state_duplicate_free c c1 Hsimple Hversions Hres) as Hfree.
  exists c1, (constrained c1). split; [done|].
  split; [by apply upgrade_Ok|].
  split; [apply same_rows_constrained|].
  split; [apply (duplicate_free_same_rows c1); [apply same_rows_constrained|done]|].
  intros k Hk. rewrite constraints_constrained. apply elem_of_app. by right.
Qed.

Lemma upgrade_succeeds_on_safe_state_witness :
  ∃ c1 c2,
    resolve_duplicate_entities safe_state = Ok c1 ∧
    upgrade safe_state = Ok c2 ∧
    same_rows c1 c2 ∧
    duplicate_free (db c2) ∧
    ∀ k, k ∈ upgrade_constraints → k ∈ constraints (db c2).
Proof.
  apply (upgrade_succeeds_on_safe_state safe_state).
  - intros t. destruct t; cbn [select db t_pipeline_run t_pipeline t_model safe_state].
    all: split; [apply (bool_decide_unpack _); vm_compute; exact I|split].
    all: try (intros r Hr;
              repeat (apply elem_of_cons in Hr as [->|Hr]; [cbn; lia|]);
              by apply elem_of_nil in Hr).
    all: intros r q Hr Hq;
      repeat (apply elem_of_cons in Hr as [->|Hr];
              [repeat (apply elem_of_cons in Hq as [->|Hq]; [by vm_compute|]);
               by apply elem_of_nil in Hq|]);
      by apply elem_of_nil in Hr.
  - split; [|split; [|split]].
    + apply (bool_decide_unpack _). vm_compute. exact I.
    + intros r Hr. cbn in Hr.
      repeat (apply elem_of_cons in Hr as [->|Hr]; [cbn; lia|]).
      by apply elem_of_nil in Hr.
    + intros r q Hr Hq. cbn in Hr, Hq.
      repeat (apply elem_of_cons in Hr as [->|Hr];
              [repeat (apply elem_of_cons in Hq as [->|Hq]; [by vm_compute|]);
               by apply elem_of_nil in Hq|]).
      by apply elem_of_nil in Hr.
    + intros r z Hr Hname. cbn in Hr.
      apply elem_of_cons in Hr as [->|Hr].
      { apply numeric_form_decimal in Hname as ->; [|by vm_compute].
        eexists. split; [left|]. by cbn. }
      apply elem_of_cons in Hr as [->|Hr]; [|by apply elem_of_nil in Hr].
      apply numeric_form_decimal in Hname as ->; [|by vm_compute].
      eexists. split; [left|]. by cbn.
Defined.

(** ** The scenarios of the specification *)

(** Two pipelines of one workspace with the same name: the first one is
    left alone, the second one gets its id appended (an id shorter than six
    characters is appended whole). *)
Example scenario_duplicate_pipeline :
  upgrade (Conn (Database [] [Row "a1" "p" "ws1"; Row "b2" "p" "ws1"] [] [] []) [])
  = Ok (Conn (Database [] [Row "a1" "p" "ws1"; Row "b2" "p_b2" "ws1"] [] []
                       upgrade_constraints)
             ([Warning simple_fmt ["pipeline"; "p"; "p_b2"];
               Update "pipeline" "b2" (Values (Some "p_b2") None)]
              ++ (create_event <$> upgrade_constraints))).
Proof. vm_compute. reflexivity. Qed.

(** Two versions of one model in numeric form with the same number: the
    second one becomes version 2, named ["2"]. *)
Example scenario_duplicate_numeric_version :
  resolve_duplicate_entities
    (Conn (Database [] [] []
             [VersionRow "v1" "1" 1 "m1"; VersionRow "v2" "1" 1 "m1"] []) [])
  = Ok (Conn (Database [] [] []
                [VersionRow "v1" "1" 1 "m1"; VersionRow "v2" "2" 2 "m1"] [])
             [Warning version_fmt ["1"; "2"];
              Update "model_version" "v2" (Values (Some "2") (Some 2))]).
Proof. vm_compute. reflexivity. Qed.

(** Two versions of one model with the same custom name and distinct
    numbers: the second one gets its id appended and keeps its number. *)
Example scenario_duplicate_custom_name :
  resolve_duplicate_entities
    (Conn (Database [] [] []
             [VersionRow "v1" "alpha" 1 "m1"; VersionRow "v2" "alpha" 2 "m1"] [])
          [])
  = Ok (Conn (Database [] [] []
                [VersionRow "v1" "alpha" 1 "m1"; VersionRow "v2" "alpha_v2" 2 "m1"]
                [])
             [Warning version_fmt ["alpha"; "alpha_v2"];
              Update "model_version" "v2" (Values (Some "alpha_v2") None)]).
Proof. vm_compute. reflexivity. Qed.

(** [upgrade] then [downgrade]: the constraints are gone, the new name
    stays. *)
Example scenario_upgrade_downgrade :
  ∃ c1 c2,
    upgrade (Conn (Database [] [Row "a1" "p" "ws1"; Row "b2" "p" "ws1"] [] [] []) [])
    = Ok c1 ∧
    downgrade c1 = Ok c2 ∧
    db c2 = Database [] [Row "a1" "p" "ws1"; Row "b2" "p_b2" "ws1"] [] [] [].
Proof.
  eexists _, _. split; [vm_compute; reflexivity|].
  split; vm_compute; reflexivity.
Qed.

(** [upgrade] on the three pipelines the resolution cannot tell apart: the
    constraint on [pipeline] is refused. *)
Example scenario_upgrade_refused :
  upgrade (Conn colliding_pipelines_db []) = Raise IntegrityError.
Proof. vm_compute. reflexivity. Qed.

(** [downgrade] on a schema [upgrade] has not run on. *)
Example scenario_downgrade_without_upgrade :
  downgrade (Conn (Database [] [] [] [] []) []) = Raise SchemaError.
Proof. vm_compute. reflexivity. Qed.
